(** * Gangjin AR: the orchestrator of [ar-engine/src/js/main.js]

    A shallow embedding of class [ARApp]: the gesture handlers registered by
    [setupEvents], overlay placement ([placeCube], [cleanupHud]), the render
    tick ([animate], [processSLAM], [updateCameraFromSensor]), the tracking
    mode operations ([setTrackingMode], [initVisualOdometry]), [resetPose],
    [destroy], and the chroma-key fragment shader of the overlay material.

    Conventions.
    - A JavaScript number (and a GLSL float) is read as a real number: the
      arithmetic of the handlers is exact, there is no NaN and no rounding.
      [Date.now()] and the pixel sizes of the camera frame are integers.
    - [null] is [None].  A call on [null] raises a TypeError, which ends the
      running handler and keeps the assignments made so far: see [Completion].
    - Objects made by [new] or [document.createElement] get a fresh number
      from [nextId]; the calls the orchestrator makes on its collaborators
      (three.js, the DOM, the pose manager, the visual-odometry engine) are
      put on [log], newest first; [history] reads them oldest first.
      [console.log] is not recorded.
    - An [async] method is cut at its [await]s; the continuation after an
      [await] is an event of its own, carrying how the promise settled. *)

From Stdlib Require Import Reals Lra Lia ZArith List String Bool.
Import ListNotations.

Set Implicit Arguments.

Local Open Scope R_scope.

(** ** Numbers *)

(** [a < b] and [a > b] as used in an [if]. *)
Definition Rltb (a b : R) : bool := if Rlt_dec a b then true else false.

(** [x || 0] and the arithmetic coercion of a nullable number: [null] and
    [undefined] both give 0 where the source uses them. *)
Definition orZero (x : option R) : R :=
  match x with Some v => v | None => 0 end.

(** [THREE.MathUtils.degToRad]: degrees times [Math.PI / 180]. *)
Definition degToRad (degrees : R) : R := degrees * (PI / 180).

(** [Math.max(lo, Math.min(hi, x))], the form of both scale clamps. *)
Definition clampScale (lo hi x : R) : R := Rmax lo (Rmin hi x).

(** ** Data *)

Record Touch := { clientX : R; clientY : R }.

Record Vec3 := { vx : R; vy : R; vz : R }.

Inductive TrackingMode := sensor | slam | hybrid.

Definition TrackingMode_eqb (a b : TrackingMode) : bool :=
  match a, b with
  | sensor, sensor | slam, slam | hybrid, hybrid => true
  | _, _ => false
  end.

(** [this.gesture]. *)
Record Gesture := {
  isDragging : bool;
  isPinching : bool;
  dragStartX : R;
  dragStartY : R;
  objStartX : R;
  objStartY : R;
  pinchStartDist : R;
  pinchStartScale : R
}.

(** A [deviceorientation] event: each angle is a number or [null]. *)
Record OrientationEvent := {
  ev_alpha : option R;
  ev_beta : option R;
  ev_gamma : option R
}.

(** [this.deviceOrientation] and [this.initialOrientation]: [alpha] is a
    number once [onDeviceOrientation] has let the sample through. *)
Record Orientation := {
  alpha : R;
  beta : option R;
  gamma : option R
}.

(** The uniforms of the overlay's [ShaderMaterial]. *)
Record Uniforms := {
  videoTexture : nat;
  keyColor : Vec3;
  similarity : R;
  smoothness : R;
  cropTop : R;
  cropBottom : R
}.

Record Geometry := { geo_id : nat; geo_width : R; geo_height : R }.

Record Material := { mat_id : nat; uniforms : Uniforms }.

(** [this.hudCube]: a [THREE.Mesh]. *)
Record Mesh := {
  mesh_id : nat;
  geometry : Geometry;
  material : Material;
  position : Vec3;
  scale : Vec3
}.

(** [this.hudVideo]: the [<video>] element of the overlay. *)
Record HudVideo := {
  vid_id : nat;
  vid_loop : bool;
  vid_muted : bool;
  vid_src : string;
  vid_volume : R
}.

(** [this.hudVideoTexture]: a [THREE.VideoTexture]. *)
Record Texture := { tex_id : nat; tex_video : nat; needsUpdate : bool }.

(** What [visualOdometry.processFrame] answers when it does not answer [null]. *)
Record VOResult := {
  tracking : bool;
  viewMatrix : list R;
  featureCount : Z
}.

(** The parts of [window] the orchestrator reads. *)
Record Window := {
  innerWidth : R;
  innerHeight : R;
  orientation : option R
}.

(** ** Collaborators that are not part of the orchestrator *)

(** The quaternion functions of three.js that [updateCameraFromSensor]
    calls in its direct branch.  Their arithmetic is three.js's, not the
    orchestrator's, and is left open. *)
Class ThreeMath := {
  Quaternion : Type;
  quat_identity : Quaternion;
  (** [quaternion.setFromEuler(new THREE.Euler(x, y, z, 'YXZ'))] *)
  quat_setFromEuler : R -> R -> R -> Quaternion;
  (** [quaternion.setFromAxisAngle(new THREE.Vector3(x, y, z), angle)] *)
  quat_setFromAxisAngle : Vec3 -> R -> Quaternion;
  (** [a.multiply(b)] *)
  quat_multiply : Quaternion -> Quaternion -> Quaternion
}.

(** The interface of [CameraPoseManager.js] as [main.js] uses it.  The file
    is imported by [main.js] and is not among the sources, so the manager is
    a parameter.  Its state stands for the manager object together with the
    transform it has given the camera it was constructed with; a method is a
    function on that state. *)
Class PoseManager := {
  Manager : Type;
  (** [new CameraPoseManager(camera)] *)
  mgr_new : Manager;
  mgr_setSmoothing : bool -> R -> Manager -> Manager;
  mgr_applyViewMatrix : list R -> bool -> Manager -> Manager;
  mgr_applyDeviceOrientation :
    R -> option R -> option R -> R -> Manager -> Manager;
  mgr_reset : Manager -> Manager;
  (** the truth value of the field [isTracking] *)
  mgr_isTracking : Manager -> bool
}.

(** [this.camera]: a [THREE.PerspectiveCamera].  [quaternion] is what the
    orchestrator itself writes when it has no manager; [children] lists the
    ids of the objects attached with [camera.add]. *)
Record Camera `{ThreeMath} := {
  fov : R;
  aspect : R;
  quaternion : Quaternion;
  children : list nat
}.

(** The text handed to [updateStatus].  The tracking text also prints the
    position that [getDebugInfo()] reports, which is the manager's to say. *)
Inductive StatusText :=
| StatusTracking (features : Z)
| StatusInitFailed.

(** A call on a collaborator, as recorded in [log]. *)
Inductive Call :=
| CameraAdd (child : nat)
| CameraRemove (child : nat)
| GeometryDispose (g : nat)
| MaterialDispose (m : nat)
| TextureDispose (t : nat)
| CreateVideo (v : nat)
| VideoSetSrc (v : nat) (src : string)
| VideoLoad (v : nat)
| VideoPlay (v : nat)
| VideoPause (v : nat)
| CreateTexture (t v : nat)
| CreateMaterial (m t : nat)
| CreateGeometry (g : nat) (w h : R)
| CreateMesh (mesh g m : nat)
| ApplyViewMatrix (m : list R) (smooth : bool)
| ApplyDeviceOrientation (a : R) (b g : option R) (screen : R)
| ManagerReset
| GetDebugInfo
| VOImport
| VOInit (engine : nat)
| VOAutoConfigureCamera (engine : nat) (w h : Z)
| VOProcessFrame (engine : nat) (w h : Z)
| VOReset (engine : nat)
| VODestroy (engine : nat)
| DrawImage (w h : Z)
| UpdateStatus (text : StatusText)
| RequestAnimationFrame
| Render
| RendererSetSize (w h : R)
| RendererDispose
| StopTracks
| SwitchCamera.

Section Orchestrator.

Context `{TM : ThreeMath} `{PM : PoseManager}.

(** ** The application object *)

(** The fields of [ARApp] that the modelled methods read or write, then the
    two variables [lastTap] and [mouseDown] that the handlers of
    [setupEvents] close over, the host window, the continuations of
    [initVisualOdometry] that wait on a promise, and the two bookkeeping
    fields described at the top.  [video] holds whether the background
    element has a stream; [renderer] holds the size last given to
    [setSize]; [visualOdometry] holds the id of the engine object;
    [processCanvas] holds the canvas size. *)
Record ARApp := {
  video : option bool;
  camera : option Camera;
  renderer : option (R * R);
  visualOdometry : option nat;
  cameraPoseManager : option Manager;
  hudCube : option Mesh;
  hudCubeBaseScale : R;
  hudVideo : option HudVideo;
  hudVideoTexture : option Texture;
  currentVideoSrc : string;
  gesture : Gesture;
  deviceOrientation : Orientation;
  initialOrientation : option Orientation;
  useGyroscope : bool;
  acceleration : option Vec3;
  trackingMode : TrackingMode;
  isRunning : bool;
  isReady : bool;
  processCanvas : option (Z * Z);
  lastTap : Z;
  mouseDown : bool;
  window : Window;
  pendingImport : nat;
  pendingInit : list nat;
  nextId : nat;
  log : list Call
}.

(** Assignment to one field: [set_f v s] is [s] after [this.f = v]. *)
Definition set_video v (s : ARApp) : ARApp :=
  {| video := v; camera := camera s; renderer := renderer s;
     visualOdometry := visualOdometry s;
     cameraPoseManager := cameraPoseManager s; hudCube := hudCube s;
     hudCubeBaseScale := hudCubeBaseScale s; hudVideo := hudVideo s;
     hudVideoTexture := hudVideoTexture s;
     currentVideoSrc := currentVideoSrc s; gesture := gesture s;
     deviceOrientation := deviceOrientation s;
     initialOrientation := initialOrientation s;
     useGyroscope := useGyroscope s; acceleration := acceleration s;
     trackingMode := trackingMode s; isRunning := isRunning s;
     isReady := isReady s; processCanvas := processCanvas s;
     lastTap := lastTap s; mouseDown := mouseDown s; window := window s;
     pendingImport := pendingImport s; pendingInit := pendingInit s;
     nextId := nextId s; log := log s |}.
Definition set_camera v (s : ARApp) : ARApp :=
  {| video := video s; camera := v; renderer := renderer s;
     visualOdometry := visualOdometry s;
     cameraPoseManager := cameraPoseManager s; hudCube := hudCube s;
     hudCubeBaseScale := hudCubeBaseScale s; hudVideo := hudVideo s;
     hudVideoTexture := hudVideoTexture s;
     currentVideoSrc := currentVideoSrc s; gesture := gesture s;
     deviceOrientation := deviceOrientation s;
     initialOrientation := initialOrientation s;
     useGyroscope := useGyroscope s; acceleration := acceleration s;
     trackingMode := trackingMode s; isRunning := isRunning s;
     isReady := isReady s; processCanvas := processCanvas s;
     lastTap := lastTap s; mouseDown := mouseDown s; window := window s;
     pendingImport := pendingImport s; pendingInit := pendingInit s;
     nextId := nextId s; log := log s |}.
Definition set_renderer v (s : ARApp) : ARApp :=
  {| video := video s; camera := camera s; renderer := v;
     visualOdometry := visualOdometry s;
     cameraPoseManager := cameraPoseManager s; hudCube := hudCube s;
     hudCubeBaseScale := hudCubeBaseScale s; hudVideo := hudVideo s;
     hudVideoTexture := hudVideoTexture s;
     currentVideoSrc := currentVideoSrc s; gesture := gesture s;
     deviceOrientation := deviceOrientation s;
     initialOrientation := initialOrientation s;
     useGyroscope := useGyroscope s; acceleration := acceleration s;
     trackingMode := trackingMode s; isRunning := isRunning s;
     isReady := isReady s; processCanvas := processCanvas s;
     lastTap := lastTap s; mouseDown := mouseDown s; window := window s;
     pendingImport := pendingImport s; pendingInit := pendingInit s;
     nextId := nextId s; log := log s |}.
Definition set_visualOdometry v (s : ARApp) : ARApp :=
  {| video := video s; camera := camera s; renderer := renderer s;
     visualOdometry := v; cameraPoseManager := cameraPoseManager s;
     hudCube := hudCube s; hudCubeBaseScale := hudCubeBaseScale s;
     hudVideo := hudVideo s; hudVideoTexture := hudVideoTexture s;
     currentVideoSrc := currentVideoSrc s; gesture := gesture s;
     deviceOrientation := deviceOrientation s;
     initialOrientation := initialOrientation s;
     useGyroscope := useGyroscope s; acceleration := acceleration s;
     trackingMode := trackingMode s; isRunning := isRunning s;
     isReady := isReady s; processCanvas := processCanvas s;
     lastTap := lastTap s; mouseDown := mouseDown s; window := window s;
     pendingImport := pendingImport s; pendingInit := pendingInit s;
     nextId := nextId s; log := log s |}.
Definition set_cameraPoseManager v (s : ARApp) : ARApp :=
  {| video := video s; camera := camera s; renderer := renderer s;
     visualOdometry := visualOdometry s; cameraPoseManager := v;
     hudCube := hudCube s; hudCubeBaseScale := hudCubeBaseScale s;
     hudVideo := hudVideo s; hudVideoTexture := hudVideoTexture s;
     currentVideoSrc := currentVideoSrc s; gesture := gesture s;
     deviceOrientation := deviceOrientation s;
     initialOrientation := initialOrientation s;
     useGyroscope := useGyroscope s; acceleration := acceleration s;
     trackingMode := trackingMode s; isRunning := isRunning s;
     isReady := isReady s; processCanvas := processCanvas s;
     lastTap := lastTap s; mouseDown := mouseDown s; window := window s;
     pendingImport := pendingImport s; pendingInit := pendingInit s;
     nextId := nextId s; log := log s |}.
Definition set_hudCube v (s : ARApp) : ARApp :=
  {| video := video s; camera := camera s; renderer := renderer s;
     visualOdometry := visualOdometry s;
     cameraPoseManager := cameraPoseManager s; hudCube := v;
     hudCubeBaseScale := hudCubeBaseScale s; hudVideo := hudVideo s;
     hudVideoTexture := hudVideoTexture s;
     currentVideoSrc := currentVideoSrc s; gesture := gesture s;
     deviceOrientation := deviceOrientation s;
     initialOrientation := initialOrientation s;
     useGyroscope := useGyroscope s; acceleration := acceleration s;
     trackingMode := trackingMode s; isRunning := isRunning s;
     isReady := isReady s; processCanvas := processCanvas s;
     lastTap := lastTap s; mouseDown := mouseDown s; window := window s;
     pendingImport := pendingImport s; pendingInit := pendingInit s;
     nextId := nextId s; log := log s |}.
Definition set_hudCubeBaseScale v (s : ARApp) : ARApp :=
  {| video := video s; camera := camera s; renderer := renderer s;
     visualOdometry := visualOdometry s;
     cameraPoseManager := cameraPoseManager s; hudCube := hudCube s;
     hudCubeBaseScale := v; hudVideo := hudVideo s;
     hudVideoTexture := hudVideoTexture s;
     currentVideoSrc := currentVideoSrc s; gesture := gesture s;
     deviceOrientation := deviceOrientation s;
     initialOrientation := initialOrientation s;
     useGyroscope := useGyroscope s; acceleration := acceleration s;
     trackingMode := trackingMode s; isRunning := isRunning s;
     isReady := isReady s; processCanvas := processCanvas s;
     lastTap := lastTap s; mouseDown := mouseDown s; window := window s;
     pendingImport := pendingImport s; pendingInit := pendingInit s;
     nextId := nextId s; log := log s |}.
Definition set_hudVideo v (s : ARApp) : ARApp :=
  {| video := video s; camera := camera s; renderer := renderer s;
     visualOdometry := visualOdometry s;
     cameraPoseManager := cameraPoseManager s; hudCube := hudCube s;
     hudCubeBaseScale := hudCubeBaseScale s; hudVideo := v;
     hudVideoTexture := hudVideoTexture s;
     currentVideoSrc := currentVideoSrc s; gesture := gesture s;
     deviceOrientation := deviceOrientation s;
     initialOrientation := initialOrientation s;
     useGyroscope := useGyroscope s; acceleration := acceleration s;
     trackingMode := trackingMode s; isRunning := isRunning s;
     isReady := isReady s; processCanvas := processCanvas s;
     lastTap := lastTap s; mouseDown := mouseDown s; window := window s;
     pendingImport := pendingImport s; pendingInit := pendingInit s;
     nextId := nextId s; log := log s |}.
Definition set_hudVideoTexture v (s : ARApp) : ARApp :=
  {| video := video s; camera := camera s; renderer := renderer s;
     visualOdometry := visualOdometry s;
     cameraPoseManager := cameraPoseManager s; hudCube := hudCube s;
     hudCubeBaseScale := hudCubeBaseScale s; hudVideo := hudVideo s;
     hudVideoTexture := v; currentVideoSrc := currentVideoSrc s;
     gesture := gesture s; deviceOrientation := deviceOrientation s;
     initialOrientation := initialOrientation s;
     useGyroscope := useGyroscope s; acceleration := acceleration s;
     trackingMode := trackingMode s; isRunning := isRunning s;
     isReady := isReady s; processCanvas := processCanvas s;
     lastTap := lastTap s; mouseDown := mouseDown s; window := window s;
     pendingImport := pendingImport s; pendingInit := pendingInit s;
     nextId := nextId s; log := log s |}.
Definition set_currentVideoSrc v (s : ARApp) : ARApp :=
  {| video := video s; camera := camera s; renderer := renderer s;
     visualOdometry := visualOdometry s;
     cameraPoseManager := cameraPoseManager s; hudCube := hudCube s;
     hudCubeBaseScale := hudCubeBaseScale s; hudVideo := hudVideo s;
     hudVideoTexture := hudVideoTexture s; currentVideoSrc := v;
     gesture := gesture s; deviceOrientation := deviceOrientation s;
     initialOrientation := initialOrientation s;
     useGyroscope := useGyroscope s; acceleration := acceleration s;
     trackingMode := trackingMode s; isRunning := isRunning s;
     isReady := isReady s; processCanvas := processCanvas s;
     lastTap := lastTap s; mouseDown := mouseDown s; window := window s;
     pendingImport := pendingImport s; pendingInit := pendingInit s;
     nextId := nextId s; log := log s |}.
Definition set_gesture v (s : ARApp) : ARApp :=
  {| video := video s; camera := camera s; renderer := renderer s;
     visualOdometry := visualOdometry s;
     cameraPoseManager := cameraPoseManager s; hudCube := hudCube s;
     hudCubeBaseScale := hudCubeBaseScale s; hudVideo := hudVideo s;
     hudVideoTexture := hudVideoTexture s;
     currentVideoSrc := currentVideoSrc s; gesture := v;
     deviceOrientation := deviceOrientation s;
     initialOrientation := initialOrientation s;
     useGyroscope := useGyroscope s; acceleration := acceleration s;
     trackingMode := trackingMode s; isRunning := isRunning s;
     isReady := isReady s; processCanvas := processCanvas s;
     lastTap := lastTap s; mouseDown := mouseDown s; window := window s;
     pendingImport := pendingImport s; pendingInit := pendingInit s;
     nextId := nextId s; log := log s |}.
Definition set_deviceOrientation v (s : ARApp) : ARApp :=
  {| video := video s; camera := camera s; renderer := renderer s;
     visualOdometry := visualOdometry s;
     cameraPoseManager := cameraPoseManager s; hudCube := hudCube s;
     hudCubeBaseScale := hudCubeBaseScale s; hudVideo := hudVideo s;
     hudVideoTexture := hudVideoTexture s;
     currentVideoSrc := currentVideoSrc s; gesture := gesture s;
     deviceOrientation := v; initialOrientation := initialOrientation s;
     useGyroscope := useGyroscope s; acceleration := acceleration s;
     trackingMode := trackingMode s; isRunning := isRunning s;
     isReady := isReady s; processCanvas := processCanvas s;
     lastTap := lastTap s; mouseDown := mouseDown s; window := window s;
     pendingImport := pendingImport s; pendingInit := pendingInit s;
     nextId := nextId s; log := log s |}.
Definition set_initialOrientation v (s : ARApp) : ARApp :=
  {| video := video s; camera := camera s; renderer := renderer s;
     visualOdometry := visualOdometry s;
     cameraPoseManager := cameraPoseManager s; hudCube := hudCube s;
     hudCubeBaseScale := hudCubeBaseScale s; hudVideo := hudVideo s;
     hudVideoTexture := hudVideoTexture s;
     currentVideoSrc := currentVideoSrc s; gesture := gesture s;
     deviceOrientation := deviceOrientation s; initialOrientation := v;
     useGyroscope := useGyroscope s; acceleration := acceleration s;
     trackingMode := trackingMode s; isRunning := isRunning s;
     isReady := isReady s; processCanvas := processCanvas s;
     lastTap := lastTap s; mouseDown := mouseDown s; window := window s;
     pendingImport := pendingImport s; pendingInit := pendingInit s;
     nextId := nextId s; log := log s |}.
Definition set_useGyroscope v (s : ARApp) : ARApp :=
  {| video := video s; camera := camera s; renderer := renderer s;
     visualOdometry := visualOdometry s;
     cameraPoseManager := cameraPoseManager s; hudCube := hudCube s;
     hudCubeBaseScale := hudCubeBaseScale s; hudVideo := hudVideo s;
     hudVideoTexture := hudVideoTexture s;
     currentVideoSrc := currentVideoSrc s; gesture := gesture s;
     deviceOrientation := deviceOrientation s;
     initialOrientation := initialOrientation s; useGyroscope := v;
     acceleration := acceleration s; trackingMode := trackingMode s;
     isRunning := isRunning s; isReady := isReady s;
     processCanvas := processCanvas s; lastTap := lastTap s;
     mouseDown := mouseDown s; window := window s;
     pendingImport := pendingImport s; pendingInit := pendingInit s;
     nextId := nextId s; log := log s |}.
Definition set_acceleration v (s : ARApp) : ARApp :=
  {| video := video s; camera := camera s; renderer := renderer s;
     visualOdometry := visualOdometry s;
     cameraPoseManager := cameraPoseManager s; hudCube := hudCube s;
     hudCubeBaseScale := hudCubeBaseScale s; hudVideo := hudVideo s;
     hudVideoTexture := hudVideoTexture s;
     currentVideoSrc := currentVideoSrc s; gesture := gesture s;
     deviceOrientation := deviceOrientation s;
     initialOrientation := initialOrientation s;
     useGyroscope := useGyroscope s; acceleration := v;
     trackingMode := trackingMode s; isRunning := isRunning s;
     isReady := isReady s; processCanvas := processCanvas s;
     lastTap := lastTap s; mouseDown := mouseDown s; window := window s;
     pendingImport := pendingImport s; pendingInit := pendingInit s;
     nextId := nextId s; log := log s |}.
Definition set_trackingMode v (s : ARApp) : ARApp :=
  {| video := video s; camera := camera s; renderer := renderer s;
     visualOdometry := visualOdometry s;
     cameraPoseManager := cameraPoseManager s; hudCube := hudCube s;
     hudCubeBaseScale := hudCubeBaseScale s; hudVideo := hudVideo s;
     hudVideoTexture := hudVideoTexture s;
     currentVideoSrc := currentVideoSrc s; gesture := gesture s;
     deviceOrientation := deviceOrientation s;
     initialOrientation := initialOrientation s;
     useGyroscope := useGyroscope s; acceleration := acceleration s;
     trackingMode := v; isRunning := isRunning s; isReady := isReady s;
     processCanvas := processCanvas s; lastTap := lastTap s;
     mouseDown := mouseDown s; window := window s;
     pendingImport := pendingImport s; pendingInit := pendingInit s;
     nextId := nextId s; log := log s |}.
Definition set_isRunning v (s : ARApp) : ARApp :=
  {| video := video s; camera := camera s; renderer := renderer s;
     visualOdometry := visualOdometry s;
     cameraPoseManager := cameraPoseManager s; hudCube := hudCube s;
     hudCubeBaseScale := hudCubeBaseScale s; hudVideo := hudVideo s;
     hudVideoTexture := hudVideoTexture s;
     currentVideoSrc := currentVideoSrc s; gesture := gesture s;
     deviceOrientation := deviceOrientation s;
     initialOrientation := initialOrientation s;
     useGyroscope := useGyroscope s; acceleration := acceleration s;
     trackingMode := trackingMode s; isRunning := v; isReady := isReady s;
     processCanvas := processCanvas s; lastTap := lastTap s;
     mouseDown := mouseDown s; window := window s;
     pendingImport := pendingImport s; pendingInit := pendingInit s;
     nextId := nextId s; log := log s |}.
Definition set_isReady v (s : ARApp) : ARApp :=
  {| video := video s; camera := camera s; renderer := renderer s;
     visualOdometry := visualOdometry s;
     cameraPoseManager := cameraPoseManager s; hudCube := hudCube s;
     hudCubeBaseScale := hudCubeBaseScale s; hudVideo := hudVideo s;
     hudVideoTexture := hudVideoTexture s;
     currentVideoSrc := currentVideoSrc s; gesture := gesture s;
     deviceOrientation := deviceOrientation s;
     initialOrientation := initialOrientation s;
     useGyroscope := useGyroscope s; acceleration := acceleration s;
     trackingMode := trackingMode s; isRunning := isRunning s; isReady := v;
     processCanvas := processCanvas s; lastTap := lastTap s;
     mouseDown := mouseDown s; window := window s;
     pendingImport := pendingImport s; pendingInit := pendingInit s;
     nextId := nextId s; log := log s |}.
Definition set_processCanvas v (s : ARApp) : ARApp :=
  {| video := video s; camera := camera s; renderer := renderer s;
     visualOdometry := visualOdometry s;
     cameraPoseManager := cameraPoseManager s; hudCube := hudCube s;
     hudCubeBaseScale := hudCubeBaseScale s; hudVideo := hudVideo s;
     hudVideoTexture := hudVideoTexture s;
     currentVideoSrc := currentVideoSrc s; gesture := gesture s;
     deviceOrientation := deviceOrientation s;
     initialOrientation := initialOrientation s;
     useGyroscope := useGyroscope s; acceleration := acceleration s;
     trackingMode := trackingMode s; isRunning := isRunning s;
     isReady := isReady s; processCanvas := v; lastTap := lastTap s;
     mouseDown := mouseDown s; window := window s;
     pendingImport := pendingImport s; pendingInit := pendingInit s;
     nextId := nextId s; log := log s |}.
Definition set_lastTap v (s : ARApp) : ARApp :=
  {| video := video s; camera := camera s; renderer := renderer s;
     visualOdometry := visualOdometry s;
     cameraPoseManager := cameraPoseManager s; hudCube := hudCube s;
     hudCubeBaseScale := hudCubeBaseScale s; hudVideo := hudVideo s;
     hudVideoTexture := hudVideoTexture s;
     currentVideoSrc := currentVideoSrc s; gesture := gesture s;
     deviceOrientation := deviceOrientation s;
     initialOrientation := initialOrientation s;
     useGyroscope := useGyroscope s; acceleration := acceleration s;
     trackingMode := trackingMode s; isRunning := isRunning s;
     isReady := isReady s; processCanvas := processCanvas s; lastTap := v;
     mouseDown := mouseDown s; window := window s;
     pendingImport := pendingImport s; pendingInit := pendingInit s;
     nextId := nextId s; log := log s |}.
Definition set_mouseDown v (s : ARApp) : ARApp :=
  {| video := video s; camera := camera s; renderer := renderer s;
     visualOdometry := visualOdometry s;
     cameraPoseManager := cameraPoseManager s; hudCube := hudCube s;
     hudCubeBaseScale := hudCubeBaseScale s; hudVideo := hudVideo s;
     hudVideoTexture := hudVideoTexture s;
     currentVideoSrc := currentVideoSrc s; gesture := gesture s;
     deviceOrientation := deviceOrientation s;
     initialOrientation := initialOrientation s;
     useGyroscope := useGyroscope s; acceleration := acceleration s;
     trackingMode := trackingMode s; isRunning := isRunning s;
     isReady := isReady s; processCanvas := processCanvas s;
     lastTap := lastTap s; mouseDown := v; window := window s;
     pendingImport := pendingImport s; pendingInit := pendingInit s;
     nextId := nextId s; log := log s |}.
Definition set_window v (s : ARApp) : ARApp :=
  {| video := video s; camera := camera s; renderer := renderer s;
     visualOdometry := visualOdometry s;
     cameraPoseManager := cameraPoseManager s; hudCube := hudCube s;
     hudCubeBaseScale := hudCubeBaseScale s; hudVideo := hudVideo s;
     hudVideoTexture := hudVideoTexture s;
     currentVideoSrc := currentVideoSrc s; gesture := gesture s;
     deviceOrientation := deviceOrientation s;
     initialOrientation := initialOrientation s;
     useGyroscope := useGyroscope s; acceleration := acceleration s;
     trackingMode := trackingMode s; isRunning := isRunning s;
     isReady := isReady s; processCanvas := processCanvas s;
     lastTap := lastTap s; mouseDown := mouseDown s; window := v;
     pendingImport := pendingImport s; pendingInit := pendingInit s;
     nextId := nextId s; log := log s |}.
Definition set_pendingImport v (s : ARApp) : ARApp :=
  {| video := video s; camera := camera s; renderer := renderer s;
     visualOdometry := visualOdometry s;
     cameraPoseManager := cameraPoseManager s; hudCube := hudCube s;
     hudCubeBaseScale := hudCubeBaseScale s; hudVideo := hudVideo s;
     hudVideoTexture := hudVideoTexture s;
     currentVideoSrc := currentVideoSrc s; gesture := gesture s;
     deviceOrientation := deviceOrientation s;
     initialOrientation := initialOrientation s;
     useGyroscope := useGyroscope s; acceleration := acceleration s;
     trackingMode := trackingMode s; isRunning := isRunning s;
     isReady := isReady s; processCanvas := processCanvas s;
     lastTap := lastTap s; mouseDown := mouseDown s; window := window s;
     pendingImport := v; pendingInit := pendingInit s; nextId := nextId s;
     log := log s |}.
Definition set_pendingInit v (s : ARApp) : ARApp :=
  {| video := video s; camera := camera s; renderer := renderer s;
     visualOdometry := visualOdometry s;
     cameraPoseManager := cameraPoseManager s; hudCube := hudCube s;
     hudCubeBaseScale := hudCubeBaseScale s; hudVideo := hudVideo s;
     hudVideoTexture := hudVideoTexture s;
     currentVideoSrc := currentVideoSrc s; gesture := gesture s;
     deviceOrientation := deviceOrientation s;
     initialOrientation := initialOrientation s;
     useGyroscope := useGyroscope s; acceleration := acceleration s;
     trackingMode := trackingMode s; isRunning := isRunning s;
     isReady := isReady s; processCanvas := processCanvas s;
     lastTap := lastTap s; mouseDown := mouseDown s; window := window s;
     pendingImport := pendingImport s; pendingInit := v; nextId := nextId s;
     log := log s |}.
Definition set_nextId v (s : ARApp) : ARApp :=
  {| video := video s; camera := camera s; renderer := renderer s;
     visualOdometry := visualOdometry s;
     cameraPoseManager := cameraPoseManager s; hudCube := hudCube s;
     hudCubeBaseScale := hudCubeBaseScale s; hudVideo := hudVideo s;
     hudVideoTexture := hudVideoTexture s;
     currentVideoSrc := currentVideoSrc s; gesture := gesture s;
     deviceOrientation := deviceOrientation s;
     initialOrientation := initialOrientation s;
     useGyroscope := useGyroscope s; acceleration := acceleration s;
     trackingMode := trackingMode s; isRunning := isRunning s;
     isReady := isReady s; processCanvas := processCanvas s;
     lastTap := lastTap s; mouseDown := mouseDown s; window := window s;
     pendingImport := pendingImport s; pendingInit := pendingInit s;
     nextId := v; log := log s |}.
Definition set_log v (s : ARApp) : ARApp :=
  {| video := video s; camera := camera s; renderer := renderer s;
     visualOdometry := visualOdometry s;
     cameraPoseManager := cameraPoseManager s; hudCube := hudCube s;
     hudCubeBaseScale := hudCubeBaseScale s; hudVideo := hudVideo s;
     hudVideoTexture := hudVideoTexture s;
     currentVideoSrc := currentVideoSrc s; gesture := gesture s;
     deviceOrientation := deviceOrientation s;
     initialOrientation := initialOrientation s;
     useGyroscope := useGyroscope s; acceleration := acceleration s;
     trackingMode := trackingMode s; isRunning := isRunning s;
     isReady := isReady s; processCanvas := processCanvas s;
     lastTap := lastTap s; mouseDown := mouseDown s; window := window s;
     pendingImport := pendingImport s; pendingInit := pendingInit s;
     nextId := nextId s; log := v |}.

(** ** Control *)

(** How a handler ends: it returns, or a TypeError leaves it where it
    stood.  Either way the state reached so far is the application's. *)
Inductive Completion :=
| Normal (s : ARApp)
| TypeError (s : ARApp).

Definition andThen (c : Completion) (k : ARApp -> Completion) : Completion :=
  match c with
  | Normal s => k s
  | TypeError s => TypeError s
  end.

Notation "c >>= k" := (andThen c k) (at level 50, left associativity).

Definition stateOf (c : Completion) : ARApp :=
  match c with
  | Normal s => s
  | TypeError s => s
  end.

(** Record a call on a collaborator. *)
Definition call (c : Call) (s : ARApp) : ARApp := set_log (c :: log s) s.

(** The calls made so far, oldest first. *)
Definition history (s : ARApp) : list Call := rev (log s).

(** Take the next object id. *)
Definition bump (s : ARApp) : ARApp := set_nextId (S (nextId s)) s.

(** [str.includes(sub)]. *)
Definition includes (str sub : string) : bool :=
  match index 0 sub str with
  | Some _ => true
  | None => false
  end.

(** [Object3D.remove]: the first occurrence of the child is spliced out. *)
Fixpoint removeChild (c : nat) (l : list nat) : list nat :=
  match l with
  | [] => []
  | x :: t => if Nat.eqb x c then t else x :: removeChild c t
  end.

(** ** The state after [new ARApp()] *)

Definition constructor (w : Window) : ARApp :=
  {| video := None; camera := None; renderer := None;
     visualOdometry := None; cameraPoseManager := None;
     hudCube := None; hudCubeBaseScale := 1;
     hudVideo := None; hudVideoTexture := None;
     currentVideoSrc := "greetgang.mp4";
     gesture := {| isDragging := false; isPinching := false;
                   dragStartX := 0; dragStartY := 0;
                   objStartX := 0; objStartY := 0;
                   pinchStartDist := 0; pinchStartScale := 1 |};
     deviceOrientation := {| alpha := 0; beta := Some 0; gamma := Some 0 |};
     initialOrientation := None;
     useGyroscope := false; acceleration := None;
     trackingMode := sensor;
     isRunning := false; isReady := false;
     processCanvas := None;
     lastTap := 0%Z; mouseDown := false;
     window := w;
     pendingImport := 0%nat; pendingInit := [];
     nextId := 0%nat; log := [] |}.

(** ** Sensors *)

(** [onDeviceMotion]: [event.acceleration] is [null] or three nullable
    numbers. *)
Definition onDeviceMotion (acc : option (option R * option R * option R))
    (s : ARApp) : ARApp :=
  match acc with
  | Some (x, y, z) =>
      set_acceleration
        (Some {| vx := orZero x; vy := orZero y; vz := orZero z |}) s
  | None => s
  end.

(** [onDeviceOrientation]. *)
Definition onDeviceOrientation (event : OrientationEvent) (s : ARApp) : ARApp :=
  match ev_alpha event with
  | None => s
  | Some a =>
      let s1 :=
        set_deviceOrientation
          {| alpha := a; beta := ev_beta event; gamma := ev_gamma event |} s in
      match initialOrientation s1 with
      | None => set_initialOrientation (Some (deviceOrientation s1)) s1
      | Some _ => s1
      end
  end.

(** ** Overlay placement *)

(** [cleanupHud]. *)
Definition cleanupHud (s : ARApp) : Completion :=
  (match hudCube s with
   | Some cube =>
       match camera s with
       | None => TypeError s
       | Some cam =>
           let cam' :=
             {| fov := fov cam; aspect := aspect cam;
                quaternion := quaternion cam;
                children := removeChild (mesh_id cube) (children cam) |} in
           let s := call (CameraRemove (mesh_id cube)) (set_camera (Some cam') s) in
           let s := call (GeometryDispose (geo_id (geometry cube))) s in
           let s := call (MaterialDispose (mat_id (material cube))) s in
           Normal (set_hudCube None s)
       end
   | None => Normal s
   end) >>= fun s =>
  let s :=
    match hudVideoTexture s with
    | Some tex => set_hudVideoTexture None (call (TextureDispose (tex_id tex)) s)
    | None => s
    end in
  let s :=
    match hudVideo s with
    | Some v =>
        set_hudVideo None
          (call (VideoSetSrc (vid_id v) EmptyString) (call (VideoPause (vid_id v)) s))
    | None => s
    end in
  Normal s.

(** The truth value of [videoSrc] in [if (videoSrc)]: neither [null] nor
    the empty string. *)
Definition truthySrc (videoSrc : option string) : option string :=
  match videoSrc with
  | Some EmptyString => None
  | other => other
  end.

(** [placeCube] from the creation of the video element to its end: the
    construction of the new overlay. *)
Definition buildOverlay (s : ARApp) : Completion :=
  (* the video element *)
  let v := nextId s in
  let muted := negb (includes (currentVideoSrc s) "singgang2") in
  let hv :=
    {| vid_id := v; vid_loop := true; vid_muted := muted;
       vid_src := currentVideoSrc s;
       vid_volume := if negb muted then 0.8 else 1 |} in
  let s := call (CreateVideo v) (bump s) in
  let s := call (VideoSetSrc v (currentVideoSrc s)) (set_hudVideo (Some hv) s) in
  let s := call (VideoLoad v) s in
  (* the texture *)
  let t := nextId s in
  let s := call (CreateTexture t v)
             (set_hudVideoTexture
                (Some {| tex_id := t; tex_video := v; needsUpdate := false |})
                (bump s)) in
  (* the material *)
  let m := nextId s in
  let u :=
    {| videoTexture := t;
       keyColor := {| vx := 0; vy := 1; vz := 0 |};
       similarity := 0.4; smoothness := 0.1;
       cropTop := 0; cropBottom := 0 |} in
  let s := call (CreateMaterial m t) (bump s) in
  (* the geometry and the mesh *)
  let g := nextId s in
  let s := call (CreateGeometry g 0.5 0.5) (bump s) in
  let k := nextId s in
  let s := call (CreateMesh k g m) (bump s) in
  let u :=
    if includes (currentVideoSrc s) "singgang2"
    then {| videoTexture := t; keyColor := keyColor u;
            similarity := similarity u; smoothness := smoothness u;
            cropTop := 0.08; cropBottom := 0.08 |}
    else u in
  let cube :=
    {| mesh_id := k;
       geometry := {| geo_id := g; geo_width := 0.5; geo_height := 0.5 |};
       material := {| mat_id := m; uniforms := u |};
       position := {| vx := 0; vy := 0; vz := -1.5 |};
       scale := {| vx := 1; vy := 1; vz := 1 |} |} in
  let s := set_hudCubeBaseScale 1 (set_hudCube (Some cube) s) in
  match camera s with
  | None => TypeError s
  | Some cam =>
      let cam' :=
        {| fov := fov cam; aspect := aspect cam;
           quaternion := quaternion cam;
           children := children cam ++ [k] |} in
      Normal (call (CameraAdd k) (set_camera (Some cam') s))
  end.

(** [placeCube(videoSrc = null)]. *)
Definition placeCube (videoSrc : option string) (s : ARApp) : Completion :=
  if negb (isReady s) then Normal s else
  let s :=
    match truthySrc videoSrc with
    | Some src => set_currentVideoSrc src s
    | None => s
    end in
  cleanupHud s >>= buildOverlay.

(** The [loadedmetadata] listener that [placeCube] registers; [vw] and
    [vh] are [this.hudVideo.videoWidth] and [videoHeight] when it runs. *)
Definition onLoadedMetadata (vw vh : R) (s : ARApp) : Completion :=
  match hudVideo s with
  | None => TypeError s
  | Some _ =>
      let aspect := vw / vh in
      let height := 0.5 in
      let width := height * aspect in
      match hudCube s with
      | None => TypeError s
      | Some cube =>
          let s := call (GeometryDispose (geo_id (geometry cube))) s in
          let g := nextId s in
          let cube' :=
            {| mesh_id := mesh_id cube;
               geometry := {| geo_id := g; geo_width := width; geo_height := height |};
               material := material cube;
               position := position cube;
               scale := scale cube |} in
          Normal (call (CreateGeometry g width height)
                    (set_hudCube (Some cube') (bump s)))
      end
  end.

(** [tryPlay], run by the [canplay] listener, and its retry a second after
    a rejected [play()]: both call [this.hudVideo.play()]. *)
Definition tryPlay (s : ARApp) : Completion :=
  match hudVideo s with
  | None => TypeError s
  | Some v => Normal (call (VideoPlay (vid_id v)) s)
  end.

(** ** Gestures *)

(** [getTouchDistance(touches)]; it is called with two touches only. *)
Definition getTouchDistance (touches : list Touch) : R :=
  match touches with
  | t0 :: t1 :: _ =>
      let dx := clientX t0 - clientX t1 in
      let dy := clientY t0 - clientY t1 in
      sqrt (dx * dx + dy * dy)
  | _ => 0
  end.

(** [screenPixelToLocal()]; [None] is the TypeError of reading [fov] on a
    [null] camera.  The quotient is the code's when [innerHeight] is not 0;
    at 0 the code goes on with [Infinity], which no real number is. *)
Definition screenPixelToLocal (s : ARApp) : option R :=
  match camera s with
  | None => None
  | Some cam =>
      let distance := 1.5 in
      let fovRad := degToRad (fov cam) in
      let screenHeight := innerHeight (window s) in
      Some ((2 * distance * tan (fovRad / 2)) / screenHeight)
  end.

(** [cube.position.x = x; cube.position.y = y]. *)
Definition moveTo (x y : R) (cube : Mesh) : Mesh :=
  {| mesh_id := mesh_id cube; geometry := geometry cube;
     material := material cube;
     position := {| vx := x; vy := y; vz := vz (position cube) |};
     scale := scale cube |}.

(** [cube.scale.set(k, k, k)]. *)
Definition scaleTo (k : R) (cube : Mesh) : Mesh :=
  {| mesh_id := mesh_id cube; geometry := geometry cube;
     material := material cube;
     position := position cube;
     scale := {| vx := k; vy := k; vz := k |} |}.

(** The drag-start assignments shared by [touchstart], [touchend] and
    [mousedown]; the flags are given by the caller. *)
Definition anchorDrag (dragging pinching : bool) (x y ox oy : R) (g : Gesture)
    : Gesture :=
  {| isDragging := dragging; isPinching := pinching;
     dragStartX := x; dragStartY := y;
     objStartX := ox; objStartY := oy;
     pinchStartDist := pinchStartDist g;
     pinchStartScale := pinchStartScale g |}.

Definition setFlags (dragging pinching : bool) (g : Gesture) : Gesture :=
  {| isDragging := dragging; isPinching := pinching;
     dragStartX := dragStartX g; dragStartY := dragStartY g;
     objStartX := objStartX g; objStartY := objStartY g;
     pinchStartDist := pinchStartDist g;
     pinchStartScale := pinchStartScale g |}.

(** The [touchstart] listener; [touches] is [e.touches]. *)
Definition onTouchStart (touches : list Touch) (s : ARApp) : ARApp :=
  match touches, hudCube s with
  | [t0], Some cube =>
      set_gesture
        (anchorDrag true false (clientX t0) (clientY t0)
           (vx (position cube)) (vy (position cube)) (gesture s)) s
  | [_; _], Some cube =>
      let g := gesture s in
      set_gesture
        {| isDragging := false; isPinching := true;
           dragStartX := dragStartX g; dragStartY := dragStartY g;
           objStartX := objStartX g; objStartY := objStartY g;
           pinchStartDist := getTouchDistance touches;
           pinchStartScale := hudCubeBaseScale s |} s
  | _, _ => s
  end.

(** The [touchmove] listener.  The ratio of the pinch branch is the code's
    when [pinchStartDist] is not 0; at 0 the code goes on with [Infinity]
    or [NaN], which no real number is. *)
Definition onTouchMove (touches : list Touch) (s : ARApp) : Completion :=
  match hudCube s with
  | None => Normal s
  | Some cube =>
      let g := gesture s in
      match touches with
      | [t0] =>
          if isDragging g then
            let dx := clientX t0 - dragStartX g in
            let dy := clientY t0 - dragStartY g in
            match screenPixelToLocal s with
            | None => TypeError s
            | Some scale =>
                Normal
                  (set_hudCube
                     (Some (moveTo (objStartX g + dx * scale)
                                   (objStartY g - dy * scale) cube)) s)
            end
          else Normal s
      | [_; _] =>
          if isPinching g then
            let dist := getTouchDistance touches in
            let ratio := dist / pinchStartDist g in
            let newScale := clampScale 0.3 20 (pinchStartScale g * ratio) in
            Normal
              (set_hudCube (Some (scaleTo newScale cube))
                 (set_hudCubeBaseScale newScale s))
          else Normal s
      | _ => Normal s
      end
  end.

(** The [touchend] listener; [changed] is [e.changedTouches] and [now] is
    what [Date.now()] returns in it. *)
Definition onTouchEnd (touches changed : list Touch) (now : Z) (s : ARApp)
    : Completion :=
  match touches with
  | [] =>
      let g := gesture s in
      (if isDragging g && negb (isPinching g) then
         let dx :=
           Rabs (orZero (option_map clientX (hd_error changed)) - dragStartX g) in
         let dy :=
           Rabs (orZero (option_map clientY (hd_error changed)) - dragStartY g) in
         if Rltb dx 10 && Rltb dy 10 then
           (if (now - lastTap s <? 300)%Z then placeCube None s else Normal s)
           >>= fun s => Normal (set_lastTap now s)
         else Normal s
       else Normal s)
      >>= fun s => Normal (set_gesture (setFlags false false (gesture s)) s)
  | [t0] =>
      let ox := match hudCube s with Some cube => vx (position cube) | None => 0 end in
      let oy := match hudCube s with Some cube => vy (position cube) | None => 0 end in
      Normal
        (set_gesture
           (anchorDrag true false (clientX t0) (clientY t0) ox oy (gesture s)) s)
  | _ => Normal s
  end.

(** The [mousedown] listener. *)
Definition onMouseDown (x y : R) (s : ARApp) : Completion :=
  match hudCube s with
  | None => placeCube None s
  | Some cube =>
      let s := set_mouseDown true s in
      let g := gesture s in
      Normal
        (set_gesture
           (anchorDrag (isDragging g) (isPinching g) x y
              (vx (position cube)) (vy (position cube)) g) s)
  end.

(** The [mousemove] listener. *)
Definition onMouseMove (x y : R) (s : ARApp) : Completion :=
  match mouseDown s, hudCube s with
  | true, Some cube =>
      let g := gesture s in
      let dx := x - dragStartX g in
      let dy := y - dragStartY g in
      match screenPixelToLocal s with
      | None => TypeError s
      | Some scale =>
          Normal
            (set_hudCube
               (Some (moveTo (objStartX g + dx * scale)
                             (objStartY g - dy * scale) cube)) s)
      end
  | _, _ => Normal s
  end.

(** The [mouseup] and [mouseleave] listeners. *)
Definition onMouseUp (s : ARApp) : ARApp := set_mouseDown false s.

(** The [wheel] listener. *)
Definition onWheel (deltaY : R) (s : ARApp) : ARApp :=
  match hudCube s with
  | None => s
  | Some cube =>
      let delta := if Rltb 0 deltaY then 0.9 else 1.1 in
      let s :=
        set_hudCubeBaseScale
          (clampScale 0.3 5 (hudCubeBaseScale s * delta)) s in
      set_hudCube (Some (scaleTo (hudCubeBaseScale s) cube)) s
  end.

(** [onResize()], after the window has taken the size [w] by [h]. *)
Definition onResize (w h : R) (s : ARApp) : Completion :=
  let s :=
    set_window {| innerWidth := w; innerHeight := h;
                  orientation := orientation (window s) |} s in
  let width := innerWidth (window s) in
  let height := innerHeight (window s) in
  match camera s with
  | None => TypeError s
  | Some cam =>
      let cam' :=
        {| fov := fov cam; aspect := width / height;
           quaternion := quaternion cam; children := children cam |} in
      let s := set_camera (Some cam') s in
      match renderer s with
      | None => TypeError s
      | Some _ =>
          Normal (call (RendererSetSize width height)
                    (set_renderer (Some (width, height)) s))
      end
  end.

(** [switchCamera()], seen after [window.switchCamera] has answered. *)
Definition switchCamera (s : ARApp) : ARApp :=
  let s := call SwitchCamera s in
  match video s with
  | Some _ => set_video (Some true) s
  | None => s
  end.

(** ** The render tick *)

(** [processSLAM()].  [vw] and [vh] are [this.video.videoWidth] and
    [videoHeight] at the tick; [answer] is what
    [this.visualOdometry.processFrame] returns if it is called. *)
Definition processSLAM (vw vh : Z) (answer : option VOResult) (s : ARApp)
    : Completion :=
  match visualOdometry s, video s with
  | Some engine, Some _ =>
      (* a new canvas is 300 by 150 *)
      let s :=
        match processCanvas s with
        | None => set_processCanvas (Some (300, 150)%Z) s
        | Some _ => s
        end in
      if (vw =? 0)%Z then Normal s else
      let w := (vw / 2)%Z in
      let h := (vh / 2)%Z in
      let s := set_processCanvas (Some (w, h)) s in
      let s := call (DrawImage w h) s in
      let s := call (VOProcessFrame engine w h) s in
      match answer with
      | Some result =>
          if tracking result then
            match cameraPoseManager s with
            | None => TypeError s
            | Some mgr =>
                let mgr := mgr_applyViewMatrix (viewMatrix result) true mgr in
                let s := call (ApplyViewMatrix (viewMatrix result) true)
                           (set_cameraPoseManager (Some mgr) s) in
                let s := call GetDebugInfo s in
                Normal (call (UpdateStatus
                                (StatusTracking (featureCount result))) s)
            end
          else Normal s
      | None => Normal s
      end
  | _, _ => Normal s
  end.

(** [this.cameraPoseManager?.isTracking] as a condition. *)
Definition managerIsTracking (s : ARApp) : bool :=
  match cameraPoseManager s with
  | Some mgr => mgr_isTracking mgr
  | None => false
  end.

(** [updateCameraFromSensor()]. *)
Definition updateCameraFromSensor (s : ARApp) : Completion :=
  match initialOrientation s with
  | None => Normal s
  | Some initial =>
      if TrackingMode_eqb (trackingMode s) hybrid && managerIsTracking s
      then Normal s
      else
        let o := deviceOrientation s in
        match cameraPoseManager s with
        | Some mgr =>
            let screenOrientation := orZero (orientation (window s)) in
            Normal
              (call (ApplyDeviceOrientation (alpha o) (beta o) (gamma o)
                       screenOrientation)
                 (set_cameraPoseManager
                    (Some (mgr_applyDeviceOrientation (alpha o) (beta o)
                             (gamma o) screenOrientation mgr)) s))
        | None =>
            let a := degToRad (alpha o - alpha initial) in
            let b := degToRad (orZero (beta o)) in
            let c := degToRad (orZero (gamma o)) in
            match camera s with
            | None => TypeError s
            | Some cam =>
                let q := quat_setFromEuler b a (- c) in
                let screenOrientation := orZero (orientation (window s)) in
                let screenQuat :=
                  quat_setFromAxisAngle {| vx := 0; vy := 0; vz := 1 |}
                    (- degToRad screenOrientation) in
                Normal
                  (set_camera
                     (Some {| fov := fov cam; aspect := aspect cam;
                              quaternion := quat_multiply q screenQuat;
                              children := children cam |}) s)
            end
        end
  end.

(** [animate()]. *)
Definition animate (vw vh : Z) (answer : option VOResult) (s : ARApp)
    : Completion :=
  if negb (isRunning s) then Normal s else
  let s := call RequestAnimationFrame s in
  (match trackingMode s with
   | slam | hybrid => processSLAM vw vh answer s
   | sensor => Normal s
   end) >>= fun s =>
  (match trackingMode s with
   | sensor | hybrid => updateCameraFromSensor s
   | slam => Normal s
   end) >>= fun s =>
  let s :=
    match hudVideoTexture s with
    | Some tex =>
        set_hudVideoTexture
          (Some {| tex_id := tex_id tex; tex_video := tex_video tex;
                   needsUpdate := true |}) s
    | None => s
    end in
  match renderer s with
  | None => TypeError s
  | Some _ => Normal (call Render s)
  end.

(** ** Tracking mode *)

(** [initVisualOdometry()] up to its first [await]: the dynamic import is
    started and the method waits for it. *)
Definition initVisualOdometry (s : ARApp) : ARApp :=
  call VOImport (set_pendingImport (S (pendingImport s)) s).

(** [initVisualOdometry()] from the settling of the import to the second
    [await].  When the import is rejected control is in the [catch] block. *)
Definition initVisualOdometry_imported (resolved : bool) (s : ARApp) : ARApp :=
  match pendingImport s with
  | O => s
  | S n =>
      let s := set_pendingImport n s in
      if resolved then
        let engine := nextId s in
        let s := set_visualOdometry (Some engine) (bump s) in
        set_pendingInit (pendingInit s ++ [engine]) (call (VOInit engine) s)
      else set_trackingMode sensor s
  end.

Fixpoint removeEngine (e : nat) (l : list nat) : list nat :=
  match l with
  | [] => []
  | x :: t => if Nat.eqb x e then t else x :: removeEngine e t
  end.

(** [initVisualOdometry()] from the settling of [init()] on [engine] to its
    end; [vw] and [vh] are the size of [this.video] then.  When [init()] is
    rejected control is in the [catch] block. *)
Definition initVisualOdometry_initialized (engine : nat) (resolved : bool)
    (vw vh : Z) (s : ARApp) : ARApp :=
  if negb (existsb (Nat.eqb engine) (pendingInit s)) then s else
  let s := set_pendingInit (removeEngine engine (pendingInit s)) s in
  if resolved then
    match video s with
    | Some _ =>
        if (0 <? vw)%Z then
          match visualOdometry s with
          | Some current =>
              set_trackingMode hybrid
                (call (VOAutoConfigureCamera current vw vh) s)
          | None => set_trackingMode sensor s
          end
        else set_trackingMode hybrid s
    | None => set_trackingMode hybrid s
    end
  else set_trackingMode sensor s.

(** [setTrackingMode(mode)]. *)
Definition setTrackingMode (mode : TrackingMode) (s : ARApp) : ARApp :=
  let s := set_trackingMode mode s in
  match mode with
  | slam | hybrid =>
      match visualOdometry s with
      | None => initVisualOdometry s
      | Some _ => s
      end
  | sensor => s
  end.

(** [resetPose()]. *)
Definition resetPose (s : ARApp) : ARApp :=
  let s :=
    match cameraPoseManager s with
    | Some mgr =>
        call ManagerReset (set_cameraPoseManager (Some (mgr_reset mgr)) s)
    | None => s
    end in
  let s :=
    match visualOdometry s with
    | Some engine => call (VOReset engine) s
    | None => s
    end in
  set_initialOrientation None s.

(** [destroy()]. *)
Definition destroy (s : ARApp) : Completion :=
  let s := set_isRunning false s in
  cleanupHud s >>= fun s =>
  let s :=
    match video s with
    | Some true => call StopTracks s
    | _ => s
    end in
  let s :=
    match renderer s with
    | Some _ => call RendererDispose s
    | None => s
    end in
  let s :=
    match visualOdometry s with
    | Some engine => call (VODestroy engine) s
    | None => s
    end in
  Normal s.

(** ** Start-up *)

(** How the steps of [init()] that depend on the page and the platform
    turn out. *)
Inductive InitOutcome :=
| NoVideoElement
| CameraRejected (hasStream : bool)
| NoContainer
| InitOk.

(** [init()], seen when its one [await] has settled.  [gyro] tells whether
    [window.sensorPermissionGranted !== false]; the last three arguments are
    those of the first [animate()], which [init()] calls itself.  The
    placement that [init()] schedules half a second later is the event
    [EvPlaceCube None].  [lastTap] and [mouseDown] are the variables of
    the listeners that this [init()] registers: they are the code's for an
    application whose [init()] has run to its end once, while a later run
    adds a second set of listeners with variables of its own, which the
    one pair here does not tell apart. *)
Definition init (o : InitOutcome) (gyro : bool) (vw vh : Z)
    (answer : option VOResult) (s : ARApp) : ARApp :=
  let failed s := call (UpdateStatus StatusInitFailed) s in
  match o with
  | NoVideoElement => failed (set_video None s)
  | CameraRejected hasStream => failed (set_video (Some hasStream) s)
  | NoContainer | InitOk =>
      let s := set_video (Some true) s in
      let w := innerWidth (window s) in
      let h := innerHeight (window s) in
      let cam :=
        {| fov := 70; aspect := w / h;
           quaternion := quat_identity; children := [] |} in
      let s := set_camera (Some cam) s in
      let s := call (RendererSetSize w h) (set_renderer (Some (w, h)) s) in
      match o with
      | InitOk =>
          let s :=
            set_cameraPoseManager (Some (mgr_setSmoothing true 0.2 mgr_new)) s in
          let s := if gyro then set_useGyroscope true s else s in
          let s := set_mouseDown false (set_lastTap 0%Z s) in
          let s := set_isReady true (set_isRunning true s) in
          match animate vw vh answer s with
          | Normal s => s
          | TypeError s => failed s
          end
      | _ => failed s
      end
  end.

(** ** Events *)

(** What can happen to the application: the listeners it registers, the
    operations it exposes on [window], its timers, and the settling of the
    promises it waits on.  Any event may come in any state: a listener that
    [init()] has not registered yet is still given its event here, which
    only adds behaviours to those of the page. *)
Inductive Event :=
| EvInit (o : InitOutcome) (gyro : bool) (vw vh : Z) (answer : option VOResult)
| EvDeviceOrientation (event : OrientationEvent)
| EvDeviceMotion (acc : option (option R * option R * option R))
| EvTouchStart (touches : list Touch)
| EvTouchMove (touches : list Touch)
| EvTouchEnd (touches changed : list Touch) (now : Z)
| EvMouseDown (x y : R)
| EvMouseMove (x y : R)
| EvMouseUp
| EvMouseLeave
| EvWheel (deltaY : R)
| EvSwitchCamera
| EvResize (w h : R)
| EvScreenRotate (angle : option R)
| EvTick (vw vh : Z) (answer : option VOResult)
| EvPlaceCube (videoSrc : option string)
| EvLoadedMetadata (vw vh : R)
| EvTryPlay
| EvResetPose
| EvSetTrackingMode (mode : TrackingMode)
| EvVOImportSettled (resolved : bool)
| EvVOInitSettled (engine : nat) (resolved : bool) (vw vh : Z)
| EvDestroy.

Definition handle (e : Event) (s : ARApp) : Completion :=
  match e with
  | EvInit o gyro vw vh answer => Normal (init o gyro vw vh answer s)
  | EvDeviceOrientation event => Normal (onDeviceOrientation event s)
  | EvDeviceMotion acc => Normal (onDeviceMotion acc s)
  | EvTouchStart touches => Normal (onTouchStart touches s)
  | EvTouchMove touches => onTouchMove touches s
  | EvTouchEnd touches changed now => onTouchEnd touches changed now s
  | EvMouseDown x y => onMouseDown x y s
  | EvMouseMove x y => onMouseMove x y s
  | EvMouseUp | EvMouseLeave => Normal (onMouseUp s)
  | EvWheel deltaY => Normal (onWheel deltaY s)
  | EvSwitchCamera => Normal (switchCamera s)
  | EvResize w h => onResize w h s
  | EvScreenRotate angle =>
      Normal (set_window {| innerWidth := innerWidth (window s);
                            innerHeight := innerHeight (window s);
                            orientation := angle |} s)
  | EvTick vw vh answer => animate vw vh answer s
  | EvPlaceCube videoSrc => placeCube videoSrc s
  | EvLoadedMetadata vw vh => onLoadedMetadata vw vh s
  | EvTryPlay => tryPlay s
  | EvResetPose => Normal (resetPose s)
  | EvSetTrackingMode mode => Normal (setTrackingMode mode s)
  | EvVOImportSettled resolved => Normal (initVisualOdometry_imported resolved s)
  | EvVOInitSettled engine resolved vw vh =>
      Normal (initVisualOdometry_initialized engine resolved vw vh s)
  | EvDestroy => destroy s
  end.

(** One event: the application goes on from wherever the handler ended. *)
Definition step (e : Event) (s : ARApp) : ARApp := stateOf (handle e s).

(** A sequence of events, oldest first. *)
Definition run (events : list Event) (s : ARApp) : ARApp :=
  fold_left (fun s e => step e s) events s.

(** The states the application can be in. *)
Inductive reachable : ARApp -> Prop :=
| reachable_new w : reachable (constructor w)
| reachable_step e s : reachable s -> reachable (step e s).

End Orchestrator.

(** ** The chroma-key fragment shader *)

(** The [fragmentShader] string of the material built in [placeCube],
    with the GLSL built-ins it uses written out from the GLSL ES
    specification. *)
Module ChromaKey.

Record Vec2 := { cx : R; cy : R }.

Record Vec4 := { red : R; green : R; blue : R; opacity : R }.

Definition rgb (c : Vec4) : Vec3 :=
  {| vx := red c; vy := green c; vz := blue c |}.

(** GLSL [clamp(x, minVal, maxVal)] is [min(max(x, minVal), maxVal)]. *)
Definition clamp (x minVal maxVal : R) : R := Rmin (Rmax x minVal) maxVal.

(** GLSL [smoothstep(edge0, edge1, x)]. *)
Definition smoothstep (edge0 edge1 x : R) : R :=
  let t := clamp ((x - edge0) / (edge1 - edge0)) 0 1 in
  t * t * (3 - 2 * t).

Definition dot (p q : Vec2) : R := cx p * cx q + cy p * cy q.

Definition sub (p q : Vec2) : Vec2 :=
  {| cx := cx p - cx q; cy := cy p - cy q |}.

(** [vec2 RGBtoUV(vec3 rgb)]. *)
Definition RGBtoUV (c : Vec3) : Vec2 :=
  {| cx := vx c * -0.169 + vy c * -0.331 + vz c * 0.5 + 0.5;
     cy := vx c * 0.5 + vy c * -0.419 + vz c * -0.081 + 0.5 |}.

(** The distance [chromaDist] of [main()] between a colour and the key. *)
Definition chromaDist (c key : Vec3) : R :=
  let chromaVec := sub (RGBtoUV c) (RGBtoUV key) in
  sqrt (dot chromaVec chromaVec).

(** [void main()]: the value given to [gl_FragColor].  [texture2D] is the
    sampling of the [videoTexture] uniform; [vUv] is the varying. *)
Definition main (texture2D : Vec2 -> Vec4) (u : Uniforms) (vUv : Vec2) : Vec4 :=
  let cropRange := 1 - cropTop u - cropBottom u in
  let croppedUV := {| cx := cx vUv; cy := cropBottom u + cy vUv * cropRange |} in
  let texColor := texture2D croppedUV in
  let alpha :=
    smoothstep (similarity u) (similarity u + smoothness u)
      (chromaDist (rgb texColor) (keyColor u)) in
  {| red := red texColor; green := green texColor; blue := blue texColor;
     opacity := opacity texColor * alpha |}.

End ChromaKey.

(** ** Stand-ins for the collaborators *)

(** Quaternions as the record of the three.js calls that made them. *)
Inductive CallQuaternion :=
| QIdentity
| QFromEuler (x y z : R)
| QFromAxisAngle (axis : Vec3) (angle : R)
| QMultiply (a b : CallQuaternion).

#[export] Instance callThreeMath : ThreeMath :=
  {| Quaternion := CallQuaternion;
     quat_identity := QIdentity;
     quat_setFromEuler := QFromEuler;
     quat_setFromAxisAngle := QFromAxisAngle;
     quat_multiply := QMultiply |}.

(** Modelled from the spec: [CameraPoseManager.js] is missing from the
    sources.  Section 4.1 gives the manager a reference orientation set by
    the first [applyDeviceOrientation] after a reset, a smoothing factor
    "configured once", a pose that [applyViewMatrix] takes from the view
    matrix (blended when [smoothed] is asked) and a [tracking] flag
    reported by [getDebugInfo]; section 4.3 has the sensor suppressed on
    a tick whose visual-odometry result was tracking, which is the flag
    [main.js] reads as [isTracking].  The pose is kept as the description of
    the call that produced it. *)
Module SpecManager.

(** Modelled from the spec: the camera pose the missing
    [CameraPoseManager.js] holds, named after the call that set it. *)
Inductive SpecPose :=
| PoseInitial
| PoseFromViewMatrix (matrix : list R) (blend : option R) (previous : SpecPose)
| PoseFromSensor (azimuthDelta : R) (pitch roll : option R) (screen : R).

(** Modelled from the spec: the state of the missing
    [CameraPoseManager.js] object. *)
Record State := {
  reference : option R;
  smoothingEnabled : bool;
  smoothingFactor : R;
  isTracking : bool;
  cameraPose : SpecPose
}.

(** Modelled from the spec: [new CameraPoseManager(camera)] of the missing
    [CameraPoseManager.js]; nothing is tracked and no reference is held. *)
Definition create : State :=
  {| reference := None; smoothingEnabled := false; smoothingFactor := 0;
     isTracking := false; cameraPose := PoseInitial |}.

(** Modelled from the spec: [setSmoothing] of the missing
    [CameraPoseManager.js], "a fixed interpolation factor (configured
    once, e.g. 0.2)". *)
Definition setSmoothing (enabled : bool) (factor : R) (m : State) : State :=
  {| reference := reference m; smoothingEnabled := enabled;
     smoothingFactor := factor; isTracking := isTracking m;
     cameraPose := cameraPose m |}.

(** Modelled from the spec: [applyViewMatrix] of the missing
    [CameraPoseManager.js]; the pose comes from the view matrix, blended
    with the configured factor when [smoothed] is asked, and the manager
    reports that visual odometry is tracking. *)
Definition applyViewMatrix (matrix : list R) (smoothed : bool) (m : State)
    : State :=
  {| reference := reference m; smoothingEnabled := smoothingEnabled m;
     smoothingFactor := smoothingFactor m; isTracking := true;
     cameraPose :=
       PoseFromViewMatrix matrix
         (if smoothed then Some (smoothingFactor m) else None)
         (cameraPose m) |}.

(** Modelled from the spec: [applyDeviceOrientation] of the missing
    [CameraPoseManager.js]; the first call after a reset sets the
    reference, and the pose is the azimuth relative to it with pitch and
    roll as given. *)
Definition applyDeviceOrientation (a : R) (b g : option R) (screen : R)
    (m : State) : State :=
  let ref := match reference m with Some r => r | None => a end in
  {| reference := Some ref; smoothingEnabled := smoothingEnabled m;
     smoothingFactor := smoothingFactor m; isTracking := isTracking m;
     cameraPose := PoseFromSensor (a - ref) b g screen |}.

(** Modelled from the spec: [reset] of the missing
    [CameraPoseManager.js]; it "clears the reference orientation and any
    smoothing accumulator". *)
Definition reset (m : State) : State :=
  {| reference := None; smoothingEnabled := smoothingEnabled m;
     smoothingFactor := smoothingFactor m; isTracking := false;
     cameraPose := PoseInitial |}.

End SpecManager.

#[export] Instance specPoseManager : PoseManager :=
  {| Manager := SpecManager.State;
     mgr_new := SpecManager.create;
     mgr_setSmoothing := SpecManager.setSmoothing;
     mgr_applyViewMatrix := SpecManager.applyViewMatrix;
     mgr_applyDeviceOrientation := SpecManager.applyDeviceOrientation;
     mgr_reset := SpecManager.reset;
     mgr_isTracking := SpecManager.isTracking |}.

(** ** The reference orientation, as the specification words it *)

Definition sampleOf (event : OrientationEvent) : option Orientation :=
  match ev_alpha event with
  | Some a => Some {| alpha := a; beta := ev_beta event; gamma := ev_gamma event |}
  | None => None
  end.

(** "The first non-null sample becomes the reference exactly once per
    session/reset; after reset, the next sample redefines the reference":
    the reference after a sequence of events, given the one before it. *)
Fixpoint referenceAfter (events : list Event) (reference : option Orientation)
    : option Orientation :=
  match events with
  | [] => reference
  | EvResetPose :: rest => referenceAfter rest None
  | EvDeviceOrientation event :: rest =>
      match reference, sampleOf event with
      | None, Some o => referenceAfter rest (Some o)
      | _, _ => referenceAfter rest reference
      end
  | _ :: rest => referenceAfter rest reference
  end.

(** ** The overlay's resources, read off the log and off the state *)

(** The decoder and GPU objects that have been made and not yet let go:
    a video counts from [createElement] to [pause()], a texture, material
    or geometry from [new] to [dispose()].  The log is newest first, so the
    head is applied last. *)
Fixpoint live (l : list Call) : list nat :=
  match l with
  | [] => []
  | c :: older =>
      match c with
      | CreateVideo x | CreateTexture x _ | CreateMaterial x _
      | CreateGeometry x _ _ => x :: live older
      | VideoPause x | TextureDispose x | MaterialDispose x
      | GeometryDispose x => removeChild x (live older)
      | _ => live older
      end
  end.

Section Notions.

Context `{TM : ThreeMath} `{PM : PoseManager}.

(** The objects the application still refers to through [hudCube],
    [hudVideoTexture] and [hudVideo]. *)
Definition overlayResources (s : ARApp) : list nat :=
  match hudCube s with
  | Some cube => [geo_id (geometry cube); mat_id (material cube)]
  | None => []
  end ++
  match hudVideoTexture s with Some tex => [tex_id tex] | None => [] end ++
  match hudVideo s with Some v => [vid_id v] | None => [] end.

(** The overlays attached to the camera. *)
Definition attached (s : ARApp) : list nat :=
  match camera s with
  | Some cam => children cam
  | None => []
  end.

Definition isSome {A} (x : option A) : bool :=
  match x with Some _ => true | None => false end.

(** What the invariant below looks at. *)
Record View := {
  v_running : bool;
  v_ready : bool;
  v_layer : bool * bool * bool;
  v_attached : list nat;
  v_mesh : option nat;
  v_parts : bool * bool;
  v_resources : list nat;
  v_live : list nat;
  v_next : nat;
  v_key : option (Vec3 * R * R);
  v_engine : bool
}.

Definition view (s : ARApp) : View :=
  {| v_running := isRunning s;
     v_ready := isReady s;
     v_layer := (isSome (camera s), isSome (renderer s),
                 isSome (cameraPoseManager s));
     v_attached := attached s;
     v_mesh := option_map mesh_id (hudCube s);
     v_parts := (isSome (hudVideoTexture s), isSome (hudVideo s));
     v_resources := overlayResources s;
     v_live := live (log s);
     v_next := nextId s;
     v_key :=
       option_map
         (fun cube =>
            let u := uniforms (material cube) in
            (keyColor u, similarity u, smoothness u))
         (hudCube s);
     v_engine :=
       isSome (visualOdometry s)
       || match pendingInit s with [] => true | _ :: _ => false end |}.

(** The invariant of the application: it runs only when ready; when ready
    it has its camera, renderer and pose manager; an overlay exists only
    when ready and comes with its texture and video; nothing but the
    current overlay is attached to the camera; the live resources are those
    of the current overlay; the ids in use are below [nextId]; the
    overlay's material keys out pure green with similarity 0.4 and
    smoothness 0.1; and while an [init()] of the engine is awaited,
    [visualOdometry] refers to an engine. *)
Record wellFormedView (v : View) : Prop := {
  wf_running : v_running v = true -> v_ready v = true;
  wf_ready : v_ready v = true -> v_layer v = (true, true, true);
  wf_overlay_ready : v_mesh v <> None -> v_ready v = true;
  wf_overlay_parts : v_mesh v <> None -> v_parts v = (true, true);
  wf_attached :
    v_attached v = [] \/ exists k, v_mesh v = Some k /\ v_attached v = [k];
  wf_live : v_live v = v_resources v;
  wf_fresh_mesh : forall k, v_mesh v = Some k -> (k < v_next v)%nat;
  wf_fresh : Forall (fun i => (i < v_next v)%nat) (v_resources v);
  wf_key :
    forall k, v_key v = Some k -> k = ({| vx := 0; vy := 1; vz := 0 |}, 0.4, 0.1);
  wf_engine : v_engine v = true
}.

Definition wellFormed (s : ARApp) : Prop := wellFormedView (view s).

(** [s'] is [s] after a placement: the overlay is a new mesh in front of the
    camera at unit scale, it is the one object attached to the camera, and
    attaching it is the last call made. *)
Definition placedFrom (s s' : ARApp) : Prop :=
  exists cube,
    hudCube s' = Some cube /\
    (nextId s <= mesh_id cube)%nat /\
    position cube = {| vx := 0; vy := 0; vz := -1.5 |} /\
    scale cube = {| vx := 1; vy := 1; vz := 1 |} /\
    attached s' = [mesh_id cube] /\
    hd_error (log s') = Some (CameraAdd (mesh_id cube)).

(** The two fields that only the tracking-mode and sensor operations
    assign. *)
Definition modeAndReference (s : ARApp)
    : TrackingMode * option Orientation :=
  (trackingMode s, initialOrientation s).

(** Both views at once, for the handlers that keep both. *)
Definition bothViews (s : ARApp) := (modeAndReference s, view s).

(** A single-pointer touch sequence: the finger goes down at [p], moves
    through [moves], and is lifted at [q] at time [t]. *)
Definition tapSequence (p : Touch) (moves : list Touch) (q : Touch) (t : Z)
    : list Event :=
  EvTouchStart [p]
  :: map (fun m => EvTouchMove [m]) moves ++ [EvTouchEnd [] [q] t].

(** The gesture state of a drag that started with a finger down at [p]. *)
Definition armed (s : ARApp) (p : Touch) : Prop :=
  isDragging (gesture s) = true /\
  isPinching (gesture s) = false /\
  dragStartX (gesture s) = clientX p /\
  dragStartY (gesture s) = clientY p.

(** The rule on mode changes as the specification states it: the mode
    changes only on a mode-set request and on a failed initialisation of
    visual odometry. *)
Definition modeChangesOnlyAsStated : Prop :=
  forall (e : Event) (s : ARApp),
    trackingMode (step e s) <> trackingMode s ->
    (exists mode, e = EvSetTrackingMode mode)
    \/ e = EvVOImportSettled false
    \/ (exists engine vw vh, e = EvVOInitSettled engine false vw vh).

End Notions.

(** ** What the overlay, the gestures and the render loop maintain *)

(** The call on the sensor side of a tick. *)
Definition isSensorCall (c : Call) : bool :=
  match c with
  | ApplyDeviceOrientation _ _ _ _ => true
  | _ => false
  end.

Section Readings.

Context `{TM : ThreeMath} `{PM : PoseManager}.

(** The crop that [placeCube] gives the material for a source: 8% at the
    top and at the bottom when the name includes [singgang2], none
    otherwise. *)
Definition cropOf (src : string) : R :=
  if includes src "singgang2" then 0.08 else 0.

(** The overlay as the gestures and the placement leave it: the two gesture
    flags, the base scale, the mesh's scale, depth and what its material
    samples and crops, the camera's field of view, and the video and
    texture behind the material. *)
Record Shape := {
  sh_flags : bool * bool;
  sh_base : R;
  sh_mesh : option (Vec3 * R * (nat * R * R));
  sh_fov : option R;
  sh_src : string;
  sh_video : option (nat * string * bool * R);
  sh_texture : option (nat * nat)
}.

Definition shape (s : ARApp) : Shape :=
  {| sh_flags := (isDragging (gesture s), isPinching (gesture s));
     sh_base := hudCubeBaseScale s;
     sh_mesh :=
       option_map
         (fun cube =>
            let u := uniforms (material cube) in
            (scale cube, vz (position cube),
             (videoTexture u, cropTop u, cropBottom u)))
         (hudCube s);
     sh_fov := option_map fov (camera s);
     sh_src := currentVideoSrc s;
     sh_video :=
       option_map
         (fun v => (vid_id v, vid_src v, vid_muted v, vid_volume v))
         (hudVideo s);
     sh_texture :=
       option_map (fun t => (tex_id t, tex_video t)) (hudVideoTexture s) |}.

(** A second invariant of the application: the gesture is never a drag and
    a pinch at once; the base scale is between 0.3 and 20; the overlay has
    the base scale on its three axes and sits 1.5 in front of the camera;
    the camera's field of view is 70 degrees; the overlay's video plays
    [currentVideoSrc], muted unless the name includes [singgang2], and at
    volume 0.8 when it is not muted; the material samples the current
    texture and crops as the source asks; the texture wraps the current
    video; and without an overlay there is no texture and no video. *)
Record wellShapedView (v : Shape) : Prop := {
  ws_exclusive : sh_flags v <> (true, true);
  ws_bounds : 0.3 <= sh_base v <= 20;
  ws_uniform :
    forall sc d u, sh_mesh v = Some (sc, d, u) ->
      sc = {| vx := sh_base v; vy := sh_base v; vz := sh_base v |}
      /\ d = -1.5;
  ws_fov : forall f, sh_fov v = Some f -> f = 70;
  ws_media :
    forall i src m vol, sh_video v = Some (i, src, m, vol) ->
      src = sh_src v
      /\ m = negb (includes src "singgang2")
      /\ (m = false -> vol = 0.8);
  ws_sampled :
    forall sc d t top bottom, sh_mesh v = Some (sc, d, (t, top, bottom)) ->
      (exists i, sh_texture v = Some (t, i))
      /\ top = cropOf (sh_src v) /\ bottom = cropOf (sh_src v);
  ws_wraps :
    forall t i, sh_texture v = Some (t, i) ->
      exists src m vol, sh_video v = Some (i, src, m, vol);
  ws_bare : sh_mesh v = None -> sh_texture v = None /\ sh_video v = None
}.

Definition wellShaped (s : ARApp) : Prop := wellShapedView (shape s).

(** The tracking side of the state: what the pose of the camera is made
    from, and the mode. *)
Definition poseSide (s : ARApp) :=
  (cameraPoseManager s, option_map quaternion (camera s),
   (visualOdometry s, pendingImport s, pendingInit s),
   (deviceOrientation s, initialOrientation s, trackingMode s),
   (processCanvas s, isRunning s)).

(** The overlay side of the state: the overlay with its transform and its
    video, the source, and the gesture with the two variables of
    [setupEvents]. *)
Definition overlaySide (s : ARApp) :=
  (hudCube s, hudCubeBaseScale s, hudVideo s,
   option_map (fun t => (tex_id t, tex_video t)) (hudVideoTexture s),
   currentVideoSrc s, (gesture s, lastTap s, mouseDown s)).

(** What the render loop, the sensors and the tracking operations leave
    alone. *)
Definition quiet (s : ARApp) := (shape s, overlaySide s, deviceOrientation s).

(** The events of the gesture listeners and of the overlay's placement and
    video. *)
Definition isOverlayEvent (e : Event) : bool :=
  match e with
  | EvTouchStart _ | EvTouchMove _ | EvTouchEnd _ _ _
  | EvMouseDown _ _ | EvMouseMove _ _ | EvMouseUp | EvMouseLeave
  | EvWheel _ | EvPlaceCube _ | EvLoadedMetadata _ _ | EvTryPlay => true
  | _ => false
  end.

(** The events of the sensors, the render loop, the tracking operations
    and the window. *)
Definition isTrackingEvent (e : Event) : bool :=
  match e with
  | EvDeviceOrientation _ | EvDeviceMotion _ | EvTick _ _ _
  | EvResetPose | EvSetTrackingMode _ | EvVOImportSettled _
  | EvVOInitSettled _ _ _ _ | EvSwitchCamera | EvResize _ _
  | EvScreenRotate _ => true
  | _ => false
  end.

(** A [touchstart] of two fingers finds them apart. *)
Definition fingersApart (e : Event) : Prop :=
  match e with
  | EvTouchStart [a; b] => 0 < getTouchDistance [a; b]
  | _ => True
  end.

(** The pinch in progress has a start distance to divide by. *)
Definition pinchMeasured (s : ARApp) : Prop :=
  isPinching (gesture s) = true -> 0 < pinchStartDist (gesture s).

(** An [init()] that runs to its end. *)
Definition isSuccessfulInit (e : Event) : bool :=
  match e with
  | EvInit InitOk _ _ _ _ => true
  | _ => false
  end.

(** The sample that [deviceOrientation] holds after a sequence of events,
    given the one it held before: the last one whose alpha is not [null]. *)
Fixpoint latestAfter (events : list Event) (latest : Orientation)
    : Orientation :=
  match events with
  | [] => latest
  | EvDeviceOrientation event :: rest =>
      match sampleOf event with
      | Some o => latestAfter rest o
      | None => latestAfter rest latest
      end
  | _ :: rest => latestAfter rest latest
  end.

(** [s'] is [s] after some calls [made], newest first. *)
Definition madeFrom (s s' : ARApp) (made : list Call) : Prop :=
  log s' = made ++ log s.

End Readings.

(** ** Sample data *)

(** A phone in portrait, and the application on it with the stand-ins for
    its collaborators: started, with its first overlay placed. *)
Definition phone : Window :=
  {| innerWidth := 390; innerHeight := 844; orientation := Some 0 |}.

Definition started : ARApp :=
  run [EvInit InitOk true 1280 720 None; EvPlaceCube None] (constructor phone).

(** The application right after [init()], before the timer that places
    the first overlay has fired. *)
Definition initialised : ARApp :=
  step (EvInit InitOk true 1280 720 None) (constructor phone).

(** The same application in hybrid mode with a visual-odometry engine
    that has finished initialising, after a first orientation sample. *)
Definition hybridTracking : ARApp :=
  run [EvSetTrackingMode hybrid;
       EvVOImportSettled true;
       EvVOInitSettled 5 true 1280 720;
       EvDeviceOrientation
         {| ev_alpha := Some 30; ev_beta := Some 80; ev_gamma := Some 2 |}]
    started.

(** The started application after two fingers went down 100 pixels apart,
    after one finger went down, and after a request for [slam] whose
    import has resolved. *)
Definition pinchStarted : ARApp :=
  step (EvTouchStart [{| clientX := 100; clientY := 0 |};
                      {| clientX := 0; clientY := 0 |}]) started.

Definition dragStarted : ARApp :=
  step (EvTouchStart [{| clientX := 100; clientY := 100 |}]) started.

Definition slamRequested : ARApp :=
  run [EvSetTrackingMode slam; EvVOImportSettled true] started.

(** The pinch of [pinchStarted] after one of its fingers was lifted. *)
Definition pinchReleased : ARApp :=
  step (EvTouchEnd [{| clientX := 40; clientY := 60 |}]
          [{| clientX := 100; clientY := 0 |}] 1000) pinchStarted.

(** The started application in [sensor] mode after a first orientation
    sample, and [hybridTracking] after a tick on which visual odometry had
    a fix. *)
Definition sensorTracking : ARApp :=
  step (EvDeviceOrientation
          {| ev_alpha := Some 30; ev_beta := Some 80; ev_gamma := Some 2 |})
    started.

Definition hybridFixed : ARApp :=
  step (EvTick 1280 720
          (Some {| tracking := true; viewMatrix := [1; 0; 0; 0];
                   featureCount := 42 |})) hybridTracking.

(** * Properties *)

(** ** Proof automation *)

(** Name the fields of an application state. *)
Ltac open_app s :=
  destruct s as [video_ camera_ renderer_ vo_ mgr_ cube_ base_ hvideo_ htex_
                 src_ g_ dev_ init_ gyro_ acc_ mode_ running_ ready_ canvas_
                 tap_ mdown_ win_ pimp_ pinit_ next_ log_].

(** Run the field reads and writes, and nothing else. *)
Ltac red_app :=
  cbv beta iota zeta delta
    [video camera renderer visualOdometry cameraPoseManager hudCube
     hudCubeBaseScale hudVideo hudVideoTexture currentVideoSrc gesture
     deviceOrientation initialOrientation useGyroscope acceleration
     trackingMode isRunning isReady processCanvas lastTap mouseDown window
     pendingImport pendingInit nextId log
     set_video set_camera set_renderer set_visualOdometry
     set_cameraPoseManager set_hudCube set_hudCubeBaseScale set_hudVideo
     set_hudVideoTexture set_currentVideoSrc set_gesture
     set_deviceOrientation set_initialOrientation set_useGyroscope
     set_acceleration set_trackingMode set_isRunning set_isReady
     set_processCanvas set_lastTap set_mouseDown set_window
     set_pendingImport set_pendingInit set_nextId set_log
     call bump stateOf andThen negb andb orb managerIsTracking
     TrackingMode_eqb].

(** Case analysis on an innermost test that blocks computation. *)
Ltac break_match :=
  match goal with
  | |- context [match ?x with _ => _ end] =>
      lazymatch x with
      | context [match _ with _ => _ end] => fail
      | _ => destruct x eqn:?
      end
  end.

(** Unfold the control flow of a handler on an opened state. *)
Ltac cases := red_app; repeat (break_match; red_app).

(** The same, in the hypotheses too and through the views. *)
Ltac red_all :=
  cbv beta iota zeta delta
    [video camera renderer visualOdometry cameraPoseManager hudCube
     hudCubeBaseScale hudVideo hudVideoTexture currentVideoSrc gesture
     deviceOrientation initialOrientation useGyroscope acceleration
     trackingMode isRunning isReady processCanvas lastTap mouseDown window
     pendingImport pendingInit nextId log
     set_video set_camera set_renderer set_visualOdometry
     set_cameraPoseManager set_hudCube set_hudCubeBaseScale set_hudVideo
     set_hudVideoTexture set_currentVideoSrc set_gesture
     set_deviceOrientation set_initialOrientation set_useGyroscope
     set_acceleration set_trackingMode set_isRunning set_isReady
     set_processCanvas set_lastTap set_mouseDown set_window
     set_pendingImport set_pendingInit set_nextId set_log
     call bump stateOf andThen negb andb orb managerIsTracking
     TrackingMode_eqb
     view attached overlayResources isSome option_map
     v_running v_ready v_layer v_attached v_mesh v_parts v_resources
     v_live v_next v_key v_engine] in *.

(** Take the invariant of the state before apart. *)
Ltac wf_open H :=
  unfold wellFormed in H;
  destruct H as [W1 W2 W3 W4 W5 W6 W7 W8 W9 W10];
  red_all.

Ltac wf_hyps :=
  repeat match goal with
  | H : _ \/ _ |- _ => destruct H as [H | H]
  | H : exists _, _ |- _ => destruct H as [? H]
  | H : _ /\ _ |- _ => destruct H as [? ?]
  | H : Some _ = Some _ |- _ => injection H as H
  | H : (_, _) = (_, _) |- _ => injection H as ? ?
  | H : Some _ = None |- _ => discriminate H
  | H : None = Some _ |- _ => discriminate H
  | H : true = false |- _ => discriminate H
  | H : false = true |- _ => discriminate H
  | H : Forall _ (_ :: _) |- _ => inversion H; subst; clear H
  end.

(** Prove the invariant of the state after, one clause at a time. *)
Ltac wf_close :=
  unfold wellFormed; constructor; red_all;
  cbn [live removeChild app children fov aspect quaternion
       mesh_id geometry material geo_id mat_id tex_id vid_id] in *;
  intros; wf_hyps; subst;
  repeat match goal with
  | H : forall k, Some ?x = Some k -> _ |- _ => specialize (H _ eq_refl)
  | H : live _ = _ |- _ => rewrite H
  | H : children ?c = _ |- context [children ?c] => rewrite H
  end;
  repeat (progress (cbn [removeChild app]; rewrite ?Nat.eqb_refl));
  try solve
    [ reflexivity | congruence | lia | auto
    | left; reflexivity | left; assumption
    | right; eexists; split; first [eassumption | reflexivity]
    | repeat constructor; lia
    | match goal with
      | H : ?a = true -> _ |- _ =>
          specialize (H eq_refl); wf_hyps; congruence
      end
    | match goal with
      | H : Some ?x <> None -> _ |- _ =>
          assert (Some x <> None) as N by discriminate;
          specialize (H N); wf_hyps; congruence
      end ].

(** A handler that leaves a view of the state as it found it. *)
Ltac keeps :=
  intros;
  match goal with s : ARApp |- _ => open_app s end;
  repeat split; cases; reflexivity.

(** Run the field reads and writes through [shape], here and in the
    hypotheses. *)
Ltac red_shape :=
  cbv beta iota zeta delta
    [video camera renderer visualOdometry cameraPoseManager hudCube
     hudCubeBaseScale hudVideo hudVideoTexture currentVideoSrc gesture
     deviceOrientation initialOrientation useGyroscope acceleration
     trackingMode isRunning isReady processCanvas lastTap mouseDown window
     pendingImport pendingInit nextId log
     set_video set_camera set_renderer set_visualOdometry
     set_cameraPoseManager set_hudCube set_hudCubeBaseScale set_hudVideo
     set_hudVideoTexture set_currentVideoSrc set_gesture
     set_deviceOrientation set_initialOrientation set_useGyroscope
     set_acceleration set_trackingMode set_isRunning set_isReady
     set_processCanvas set_lastTap set_mouseDown set_window
     set_pendingImport set_pendingInit set_nextId set_log
     call bump stateOf andThen negb andb orb managerIsTracking
     TrackingMode_eqb
     shape option_map cropOf moveTo scaleTo anchorDrag setFlags
     sh_flags sh_base sh_mesh sh_fov sh_src sh_video sh_texture] in *;
  cbn [scale position material uniforms vz videoTexture cropTop cropBottom
       fov vid_id vid_src vid_muted vid_volume tex_id tex_video
       isDragging isPinching] in *.

(** Take the second invariant of the state before apart. *)
Ltac ws_open H :=
  unfold wellShaped in H;
  destruct H as [S1 S2 S3 S4 S5 S6 S7 S8];
  red_shape.

(** Read the clauses about the overlay that exists. *)
Ltac ws_use S3 S4 S5 S6 S7 :=
  try specialize (S3 _ _ _ eq_refl);
  try specialize (S4 _ eq_refl);
  try specialize (S5 _ _ _ _ eq_refl);
  try specialize (S6 _ _ _ _ _ eq_refl);
  try specialize (S7 _ _ eq_refl).

(** Prove the second invariant of the state after, one clause at a time. *)
Ltac ws_close :=
  unfold wellShaped; constructor; red_shape;
  intros; wf_hyps; subst;
  repeat match goal with
  | H : includes ?a ?b = _ |- context [includes ?a ?b] => rewrite H
  end;
  try solve
    [ assumption | reflexivity | discriminate | congruence | lra | eauto
    | split; [reflexivity | lra]
    | split; [reflexivity | split; [reflexivity | intros; first [reflexivity | discriminate | congruence]]]
    | split; [eexists; reflexivity | split; reflexivity]
    | do 3 eexists; reflexivity
    | split; reflexivity
    | repeat split; first [assumption | reflexivity | congruence | lra | eauto]
    | unfold clampScale, Rmax, Rmin;
      repeat match goal with
      | |- context [Rle_dec ?a ?b] => destruct (Rle_dec a b)
      end; lra ].

(** Run a sequence of events on an opened state, handlers included. *)
Ltac red_run :=
  cbv beta iota zeta delta
    [video camera renderer visualOdometry cameraPoseManager hudCube
     hudCubeBaseScale hudVideo hudVideoTexture currentVideoSrc gesture
     deviceOrientation initialOrientation useGyroscope acceleration
     trackingMode isRunning isReady processCanvas lastTap mouseDown window
     pendingImport pendingInit nextId log
     set_video set_camera set_renderer set_visualOdometry
     set_cameraPoseManager set_hudCube set_hudCubeBaseScale set_hudVideo
     set_hudVideoTexture set_currentVideoSrc set_gesture
     set_deviceOrientation set_initialOrientation set_useGyroscope
     set_acceleration set_trackingMode set_isRunning set_isReady
     set_processCanvas set_lastTap set_mouseDown set_window
     set_pendingImport set_pendingInit set_nextId set_log
     call bump stateOf andThen negb andb orb managerIsTracking
     TrackingMode_eqb
     run fold_left step handle
     onDeviceMotion onDeviceOrientation cleanupHud truthySrc buildOverlay
     placeCube onLoadedMetadata tryPlay onTouchStart onTouchMove onTouchEnd
     onMouseDown onMouseMove onMouseUp onWheel onResize switchCamera
     processSLAM updateCameraFromSensor animate initVisualOdometry
     initVisualOdometry_imported initVisualOdometry_initialized
     setTrackingMode resetPose destroy screenPixelToLocal
     ev_alpha ev_beta ev_gamma].

(** ** Checks on small inputs *)

Example includes_singgang2 :
  includes "singgang2.mp4" "singgang2" = true
  /\ includes "greetgang.mp4" "singgang2" = false.
Proof. split; reflexivity. Qed.

Example removeChild_first :
  removeChild 4 [7; 4; 9; 4]%nat = [7; 9; 4]%nat.
Proof. reflexivity. Qed.

Example live_after_release :
  live [CreateTexture 1 0; CreateVideo 0] = [1; 0]%nat
  /\ live [VideoPause 0; TextureDispose 1; CreateTexture 1 0; CreateVideo 0]
     = [].
Proof. split; reflexivity. Qed.

Example referenceAfter_sample :
  let sample a := EvDeviceOrientation
                    {| ev_alpha := a; ev_beta := Some 80; ev_gamma := None |} in
  referenceAfter
    [sample None; sample (Some 30); sample (Some 45); EvResetPose;
     sample None; sample (Some 60)] None
  = Some {| alpha := 60; beta := Some 80; gamma := None |}.
Proof. reflexivity. Qed.

Example started_overlay :
  option_map mesh_id (hudCube started) = Some 4%nat
  /\ attached started = [4%nat]
  /\ live (log started) = [3; 2; 1; 0]%nat.
Proof. repeat split; lazy; reflexivity. Qed.

Example hybridTracking_engine :
  trackingMode hybridTracking = hybrid
  /\ visualOdometry hybridTracking = Some 5%nat
  /\ option_map alpha (initialOrientation hybridTracking) = Some 30.
Proof. repeat split; lazy; reflexivity. Qed.

Section Properties.

Context `{TM : ThreeMath} `{PM : PoseManager}.

Notation "c >>= k" := (andThen c k) (at level 50, left associativity).

(** ** Comparisons and clamps *)

Lemma Rltb_true (a b : R) : Rltb a b = true <-> a < b.
Proof. unfold Rltb; destruct (Rlt_dec a b); split; intros; try easy; lra. Qed.


Lemma clampScale_cases (lo hi x : R) :
  lo <= hi ->
  lo <= clampScale lo hi x <= hi /\
  (x < lo -> clampScale lo hi x = lo) /\
  (lo <= x <= hi -> clampScale lo hi x = x) /\
  (hi < x -> clampScale lo hi x = hi).
Proof.
  intros Hle; unfold clampScale, Rmax, Rmin.
  destruct (Rle_dec hi x), (Rle_dec lo hi), (Rle_dec lo x);
    repeat split; intros; lra.
Qed.

(** ** What the handlers leave alone *)

Lemma andThen_keeps {A} (f : ARApp -> A) (c : Completion)
    (k : ARApp -> Completion) (s0 : ARApp) :
  f (stateOf c) = f s0 ->
  (forall s, f (stateOf (k s)) = f s) ->
  f (stateOf (c >>= k)) = f s0.
Proof.
  intros Hc Hk; destruct c as [s | s]; simpl in *; [|exact Hc].
  rewrite Hk; exact Hc.
Qed.

Lemma onDeviceMotion_keeps acc s :
  modeAndReference (onDeviceMotion acc s) = modeAndReference s /\
  view (onDeviceMotion acc s) = view s.
Proof. unfold onDeviceMotion; open_app s; split; cases; reflexivity. Qed.

Lemma onDeviceOrientation_keeps event s :
  trackingMode (onDeviceOrientation event s) = trackingMode s /\
  view (onDeviceOrientation event s) = view s.
Proof. unfold onDeviceOrientation; open_app s; split; cases; reflexivity. Qed.

Lemma cleanupHud_mode s :
  modeAndReference (stateOf (cleanupHud s)) = modeAndReference s.
Proof. unfold cleanupHud; keeps. Qed.

Lemma buildOverlay_mode s :
  modeAndReference (stateOf (buildOverlay s)) = modeAndReference s.
Proof. unfold buildOverlay; keeps. Qed.

Lemma placeCube_mode videoSrc s :
  modeAndReference (stateOf (placeCube videoSrc s)) = modeAndReference s.
Proof.
  unfold placeCube.
  destruct (negb (isReady s)); [reflexivity|].
  apply andThen_keeps; [|apply buildOverlay_mode].
  rewrite cleanupHud_mode; destruct (truthySrc videoSrc); reflexivity.
Qed.

Lemma onLoadedMetadata_mode vw vh s :
  modeAndReference (stateOf (onLoadedMetadata vw vh s)) = modeAndReference s.
Proof. unfold onLoadedMetadata; keeps. Qed.

Lemma tryPlay_keeps s :
  modeAndReference (stateOf (tryPlay s)) = modeAndReference s /\
  view (stateOf (tryPlay s)) = view s.
Proof. unfold tryPlay; keeps. Qed.

Lemma onTouchStart_keeps touches s :
  modeAndReference (onTouchStart touches s) = modeAndReference s /\
  view (onTouchStart touches s) = view s.
Proof. unfold onTouchStart; keeps. Qed.

Lemma onTouchMove_keeps touches s :
  modeAndReference (stateOf (onTouchMove touches s)) = modeAndReference s /\
  view (stateOf (onTouchMove touches s)) = view s.
Proof. unfold onTouchMove, screenPixelToLocal; keeps. Qed.

Lemma onTouchEnd_mode touches changed now s :
  modeAndReference (stateOf (onTouchEnd touches changed now s))
  = modeAndReference s.
Proof.
  unfold onTouchEnd.
  destruct touches as [|t0 [|t1 rest]]; try reflexivity.
  apply andThen_keeps; [|reflexivity].
  destruct (isDragging (gesture s) && negb (isPinching (gesture s)));
    [|reflexivity].
  match goal with |- context [if ?c then _ else _] => destruct c end;
    [|reflexivity].
  apply andThen_keeps; [|reflexivity].
  destruct (now - lastTap s <? 300)%Z; [apply placeCube_mode|reflexivity].
Qed.

Lemma onMouseDown_mode x y s :
  modeAndReference (stateOf (onMouseDown x y s)) = modeAndReference s.
Proof.
  unfold onMouseDown; destruct (hudCube s); [reflexivity|apply placeCube_mode].
Qed.

Lemma onMouseMove_keeps x y s :
  modeAndReference (stateOf (onMouseMove x y s)) = modeAndReference s /\
  view (stateOf (onMouseMove x y s)) = view s.
Proof. unfold onMouseMove, screenPixelToLocal; keeps. Qed.

Lemma onMouseUp_keeps s :
  modeAndReference (onMouseUp s) = modeAndReference s /\
  view (onMouseUp s) = view s.
Proof. unfold onMouseUp; keeps. Qed.

Lemma onWheel_keeps deltaY s :
  modeAndReference (onWheel deltaY s) = modeAndReference s /\
  view (onWheel deltaY s) = view s.
Proof. unfold onWheel; keeps. Qed.

Lemma onResize_keeps w h s :
  modeAndReference (stateOf (onResize w h s)) = modeAndReference s /\
  view (stateOf (onResize w h s)) = view s.
Proof. unfold onResize; keeps. Qed.

Lemma switchCamera_keeps s :
  modeAndReference (switchCamera s) = modeAndReference s /\
  view (switchCamera s) = view s.
Proof. unfold switchCamera; keeps. Qed.

Lemma processSLAM_keeps vw vh answer s :
  modeAndReference (stateOf (processSLAM vw vh answer s)) = modeAndReference s /\
  view (stateOf (processSLAM vw vh answer s)) = view s.
Proof. unfold processSLAM; keeps. Qed.

Lemma updateCameraFromSensor_keeps s :
  modeAndReference (stateOf (updateCameraFromSensor s)) = modeAndReference s /\
  view (stateOf (updateCameraFromSensor s)) = view s.
Proof. unfold updateCameraFromSensor; keeps. Qed.

Lemma bothViews_eq s s' :
  modeAndReference s' = modeAndReference s /\ view s' = view s ->
  bothViews s' = bothViews s.
Proof. intros [A B]; unfold bothViews; rewrite A, B; reflexivity. Qed.

Lemma animate_keeps vw vh answer s :
  modeAndReference (stateOf (animate vw vh answer s)) = modeAndReference s /\
  view (stateOf (animate vw vh answer s)) = view s.
Proof.
  cut (bothViews (stateOf (animate vw vh answer s)) = bothViews s).
  { unfold bothViews; intros E; split; congruence. }
  unfold animate.
  destruct (negb (isRunning s)); [reflexivity|].
  apply andThen_keeps.
  - transitivity (bothViews (call RequestAnimationFrame s)); [|reflexivity].
    destruct (trackingMode (call RequestAnimationFrame s));
      try reflexivity; apply bothViews_eq, processSLAM_keeps.
  - intros s1; apply andThen_keeps.
    + destruct (trackingMode s1);
        try reflexivity; apply bothViews_eq, updateCameraFromSensor_keeps.
    + intros s2; apply bothViews_eq; keeps.
Qed.

Lemma initVisualOdometry_keeps s :
  modeAndReference (initVisualOdometry s) = modeAndReference s /\
  view (initVisualOdometry s) = view s.
Proof. unfold initVisualOdometry; keeps. Qed.

Lemma setTrackingMode_keeps mode s :
  initialOrientation (setTrackingMode mode s) = initialOrientation s /\
  view (setTrackingMode mode s) = view s.
Proof. unfold setTrackingMode, initVisualOdometry; keeps. Qed.

Lemma imported_reference resolved s :
  initialOrientation (initVisualOdometry_imported resolved s)
  = initialOrientation s.
Proof. unfold initVisualOdometry_imported; keeps. Qed.

Lemma initialized_reference engine resolved vw vh s :
  initialOrientation (initVisualOdometry_initialized engine resolved vw vh s)
  = initialOrientation s.
Proof. unfold initVisualOdometry_initialized; keeps. Qed.

Lemma resetPose_keeps s :
  trackingMode (resetPose s) = trackingMode s /\
  view (resetPose s) = view s.
Proof. unfold resetPose; keeps. Qed.

Lemma destroy_mode s :
  modeAndReference (stateOf (destroy s)) = modeAndReference s.
Proof.
  unfold destroy.
  apply andThen_keeps; [rewrite cleanupHud_mode; reflexivity|].
  keeps.
Qed.

Lemma init_mode o gyro vw vh answer s :
  modeAndReference (init o gyro vw vh answer s) = modeAndReference s.
Proof.
  unfold init.
  destruct o; try reflexivity.
  match goal with
  | |- context [animate vw vh answer ?s1] =>
      pose proof (proj1 (animate_keeps vw vh answer s1)) as E;
      destruct (animate vw vh answer s1)
  end; simpl in E; [rewrite E|
    change (modeAndReference (call (UpdateStatus StatusInitFailed) s0))
      with (modeAndReference s0); rewrite E];
    destruct gyro; reflexivity.
Qed.

(** ** The tracking mode over the events *)

(** The mode an event leaves behind, as the handlers have it, in any state:
    [sensor] also comes out of a resolved [init()] when
    [this.visualOdometry] is [null] at the call of [autoConfigureCamera],
    which throws into the [catch] block. *)
Lemma trackingMode_after e s :
  trackingMode (step e s) =
  match e with
  | EvSetTrackingMode mode => mode
  | EvVOImportSettled resolved =>
      match pendingImport s with
      | O => trackingMode s
      | S _ => if resolved then trackingMode s else sensor
      end
  | EvVOInitSettled engine resolved vw _ =>
      if existsb (Nat.eqb engine) (pendingInit s) then
        if resolved then
          match video s, visualOdometry s with
          | Some _, None => if (0 <? vw)%Z then sensor else hybrid
          | _, _ => hybrid
          end
        else sensor
      else trackingMode s
  | _ => trackingMode s
  end.
Proof.
  unfold step; destruct e; cbn [handle stateOf];
    try (match goal with
         | |- trackingMode ?s' = trackingMode s =>
             change (fst (modeAndReference s') = fst (modeAndReference s))
         end;
         first [ rewrite init_mode | rewrite (proj1 (onDeviceMotion_keeps _ _))
               | rewrite (proj1 (onTouchStart_keeps _ _))
               | rewrite (proj1 (onTouchMove_keeps _ _))
               | rewrite onTouchEnd_mode | rewrite onMouseDown_mode
               | rewrite (proj1 (onMouseMove_keeps _ _ _))
               | rewrite (proj1 (onMouseUp_keeps _))
               | rewrite (proj1 (onWheel_keeps _ _))
               | rewrite (proj1 (switchCamera_keeps _))
               | rewrite (proj1 (onResize_keeps _ _ _))
               | rewrite (proj1 (animate_keeps _ _ _ _))
               | rewrite placeCube_mode | rewrite onLoadedMetadata_mode
               | rewrite (proj1 (tryPlay_keeps _)) | rewrite destroy_mode
               | idtac ];
         reflexivity).
  - apply onDeviceOrientation_keeps.
  - apply resetPose_keeps.
  - unfold setTrackingMode, initVisualOdometry; open_app s; cases; reflexivity.
  - unfold initVisualOdometry_imported; open_app s; cases; reflexivity.
  - unfold initVisualOdometry_initialized; open_app s; cases; reflexivity.
Qed.

(** ** The reference orientation over the events *)

Lemma initialOrientation_after e s :
  initialOrientation (step e s) = referenceAfter [e] (initialOrientation s).
Proof.
  unfold step; destruct e; cbn [handle stateOf referenceAfter];
    try (match goal with
         | |- initialOrientation ?s' = initialOrientation s =>
             change (snd (modeAndReference s') = snd (modeAndReference s))
         end;
         first [ rewrite init_mode | rewrite (proj1 (onDeviceMotion_keeps _ _))
               | rewrite (proj1 (onTouchStart_keeps _ _))
               | rewrite (proj1 (onTouchMove_keeps _ _))
               | rewrite onTouchEnd_mode | rewrite onMouseDown_mode
               | rewrite (proj1 (onMouseMove_keeps _ _ _))
               | rewrite (proj1 (onMouseUp_keeps _))
               | rewrite (proj1 (onWheel_keeps _ _))
               | rewrite (proj1 (switchCamera_keeps _))
               | rewrite (proj1 (onResize_keeps _ _ _))
               | rewrite (proj1 (animate_keeps _ _ _ _))
               | rewrite placeCube_mode | rewrite onLoadedMetadata_mode
               | rewrite (proj1 (tryPlay_keeps _)) | rewrite destroy_mode
               | idtac ];
         reflexivity).
  - unfold onDeviceOrientation, sampleOf; open_app s; cases; reflexivity.
  - reflexivity.
  - apply setTrackingMode_keeps.
  - apply imported_reference.
  - apply initialized_reference.
Qed.

Lemma run_cons e events s : run (e :: events) s = run events (step e s).
Proof. reflexivity. Qed.

Lemma referenceAfter_cons e events r :
  referenceAfter (e :: events) r = referenceAfter events (referenceAfter [e] r).
Proof.
  destruct e; try reflexivity.
  cbn [referenceAfter]; destruct r, (sampleOf event); reflexivity.
Qed.

(** C9: over any sequence of events, the reference orientation held by
    the application is the one the specification describes: the first
    sample with a non-null alpha sets it, later samples leave it, and after
    [resetPose] the next such sample sets it again.  A sample whose alpha is
    [null] changes nothing at all in the state. *)
Theorem reference_orientation_once_per_reset :
  forall (events : list Event) (s : ARApp) (b g : option R),
    initialOrientation (run events s)
    = referenceAfter events (initialOrientation s)
    /\ step (EvDeviceOrientation
               {| ev_alpha := None; ev_beta := b; ev_gamma := g |}) s = s.
Proof.
  intros events s b g; split; [|reflexivity].
  revert s; induction events as [|e events IH]; intros s; [reflexivity|].
  rewrite run_cons, IH, initialOrientation_after, <- referenceAfter_cons.
  reflexivity.
Qed.

(** ** The invariant *)

Lemma wellFormed_view s s' : view s' = view s -> wellFormed s -> wellFormed s'.
Proof. unfold wellFormed; intros -> H; exact H. Qed.

Lemma wellFormed_andThen (c : Completion) (k : ARApp -> Completion) :
  wellFormed (stateOf c) ->
  (forall s, wellFormed s -> wellFormed (stateOf (k s))) ->
  wellFormed (stateOf (c >>= k)).
Proof. intros Hc Hk; destruct c as [s | s]; simpl in *; auto. Qed.

Lemma constructor_wf w : wellFormed (constructor w).
Proof. unfold constructor; wf_close. Qed.

Lemma cleanupHud_wf s : wellFormed s -> wellFormed (stateOf (cleanupHud s)).
Proof.
  intros W; unfold cleanupHud; open_app s; wf_open W; cases; wf_close.
Qed.

Lemma placeCube_wf videoSrc s :
  wellFormed s -> wellFormed (stateOf (placeCube videoSrc s)).
Proof.
  intros W; unfold placeCube, cleanupHud, buildOverlay.
  open_app s; wf_open W; cases; wf_close.
Qed.

Lemma onLoadedMetadata_wf vw vh s :
  wellFormed s -> wellFormed (stateOf (onLoadedMetadata vw vh s)).
Proof.
  intros W; unfold onLoadedMetadata; open_app s.
  destruct htex_, camera_; wf_open W; cases; wf_close.
Qed.

Lemma imported_wf resolved s :
  wellFormed s -> wellFormed (initVisualOdometry_imported resolved s).
Proof.
  intros W; unfold initVisualOdometry_imported.
  open_app s; destruct cube_, htex_, hvideo_; wf_open W; cases; wf_close.
Qed.

Lemma initialized_wf engine resolved vw vh s :
  wellFormed s ->
  wellFormed (initVisualOdometry_initialized engine resolved vw vh s).
Proof.
  intros W; unfold initVisualOdometry_initialized.
  open_app s; destruct vo_, pinit_; wf_open W; try discriminate W10;
    cbn [existsb]; cases; wf_close.
Qed.

Lemma destroy_wf s : wellFormed s -> wellFormed (stateOf (destroy s)).
Proof.
  intros W; unfold destroy.
  apply wellFormed_andThen.
  - apply cleanupHud_wf; open_app s; wf_open W; wf_close.
  - intros s1; apply wellFormed_view; open_app s1; cases; reflexivity.
Qed.

Lemma onTouchEnd_wf touches changed now s :
  wellFormed s -> wellFormed (stateOf (onTouchEnd touches changed now s)).
Proof.
  intros W; unfold onTouchEnd.
  destruct touches as [|t0 [|t1 rest]]; try exact W.
  apply wellFormed_andThen; [|intros s1 W1; exact W1].
  destruct (isDragging (gesture s) && negb (isPinching (gesture s)));
    [|exact W].
  match goal with |- context [if ?c then _ else _] => destruct c end;
    [|exact W].
  apply wellFormed_andThen; [|intros s1 W1; exact W1].
  destruct (now - lastTap s <? 300)%Z; [apply placeCube_wf|]; exact W.
Qed.

Lemma onMouseDown_wf x y s :
  wellFormed s -> wellFormed (stateOf (onMouseDown x y s)).
Proof.
  intros W; unfold onMouseDown; destruct (hudCube s) eqn:E.
  - revert W; apply wellFormed_view; reflexivity.
  - apply placeCube_wf, W.
Qed.

Lemma init_wf o gyro vw vh answer s :
  wellFormed s -> wellFormed (init o gyro vw vh answer s).
Proof.
  intros W; unfold init; destruct o.
  - revert W; apply wellFormed_view; reflexivity.
  - revert W; apply wellFormed_view; reflexivity.
  - open_app s; wf_open W; wf_close.
  - match goal with
    | |- context [animate vw vh answer ?s1] =>
        assert (wellFormed s1) as W1
          by (open_app s; wf_open W; destruct gyro; wf_close);
        pose proof (proj2 (animate_keeps vw vh answer s1)) as E;
        destruct (animate vw vh answer s1) as [s2 | s2]
    end; simpl in E.
    + revert W1; apply wellFormed_view, E.
    + revert W1; apply wellFormed_view.
      transitivity (view s2); [reflexivity | exact E].
Qed.

(** Every event keeps the invariant. *)
Lemma step_wf e s : wellFormed s -> wellFormed (step e s).
Proof.
  intros W; unfold step; destruct e; cbn [handle stateOf];
    first
      [ apply init_wf, W
      | apply onTouchEnd_wf, W
      | apply onMouseDown_wf, W
      | apply placeCube_wf, W
      | apply onLoadedMetadata_wf, W
      | apply imported_wf, W
      | apply initialized_wf, W
      | apply destroy_wf, W
      | revert W; apply wellFormed_view;
        first [ apply onDeviceOrientation_keeps | apply onDeviceMotion_keeps
              | apply onTouchStart_keeps | apply onTouchMove_keeps
              | apply onMouseMove_keeps | apply onMouseUp_keeps
              | apply onWheel_keeps | apply switchCamera_keeps
              | apply onResize_keeps | apply animate_keeps
              | apply tryPlay_keeps | apply resetPose_keeps
              | apply setTrackingMode_keeps
              | reflexivity ] ].
Qed.

Lemma reachable_wf s : reachable s -> wellFormed s.
Proof.
  induction 1 as [w | e s _ IH]; [apply constructor_wf | apply step_wf, IH].
Qed.

(** C3, amended: in a reachable state the tracking mode is assigned by
    [setTrackingMode], which leaves it equal to its argument when it
    returns, and by the end of a pending [initVisualOdometry]: a rejected
    import or a rejected [init()] leaves it [sensor], and a resolved
    [init()] leaves it [hybrid].  No other event changes it. *)
Theorem tracking_mode_assignments :
  forall (e : Event) (s : ARApp),
    reachable s ->
    trackingMode (step e s) =
    match e with
    | EvSetTrackingMode mode => mode
    | EvVOImportSettled resolved =>
        match pendingImport s with
        | O => trackingMode s
        | S _ => if resolved then trackingMode s else sensor
        end
    | EvVOInitSettled engine resolved _ _ =>
        if existsb (Nat.eqb engine) (pendingInit s)
        then (if resolved then hybrid else sensor)
        else trackingMode s
    | _ => trackingMode s
    end.
Proof.
  intros e s R; rewrite trackingMode_after.
  destruct e; try reflexivity.
  pose proof (wf_engine (reachable_wf R)) as W.
  unfold view in W; cbn [v_engine] in W.
  destruct (pendingInit s) as [|e0 rest]; [reflexivity|].
  destruct (visualOdometry s); [|discriminate W].
  destruct (video s); reflexivity.
Qed.

(** ** Placement *)

(** C10: while [isReady] is false, [placeCube] returns at once: the state,
    its log of collaborator calls included, is the one it was given, so no
    video element, texture or mesh is made and the overlay fields are not
    touched. *)
Theorem placeCube_before_ready :
  forall (videoSrc : option string) (s : ARApp),
    isReady s = false ->
    placeCube videoSrc s = Normal s /\ step (EvPlaceCube videoSrc) s = s.
Proof.
  intros videoSrc s H; unfold step, handle, placeCube.
  rewrite H; split; reflexivity.
Qed.

(** C4: in a reachable state that has an overlay, [placeCube] ends with
    exactly one overlay, a new one, attached to the camera.  The calls it
    makes are, in this order, the release of the old overlay (detached
    from the camera, geometry and material disposed, texture disposed,
    video paused and its source cleared) and then the construction of the
    new one; afterwards the live video, texture, material and geometry are
    those of the new overlay and no others. *)
Theorem overlay_replaced_by_recreation :
  forall (s : ARApp) (videoSrc : option string) (cube : Mesh),
    reachable s ->
    hudCube s = Some cube ->
    exists tex vid s' cube' tex' vid',
      hudVideoTexture s = Some tex /\ hudVideo s = Some vid /\
      placeCube videoSrc s = Normal s' /\
      hudCube s' = Some cube' /\
      hudVideoTexture s' = Some tex' /\
      hudVideo s' = Some vid' /\
      attached s' = [mesh_id cube'] /\
      mesh_id cube' <> mesh_id cube /\
      tex_id tex' <> tex_id tex /\
      vid_id vid' <> vid_id vid /\
      history s' =
        history s
        ++ [CameraRemove (mesh_id cube);
            GeometryDispose (geo_id (geometry cube));
            MaterialDispose (mat_id (material cube));
            TextureDispose (tex_id tex);
            VideoPause (vid_id vid);
            VideoSetSrc (vid_id vid) EmptyString]
        ++ [CreateVideo (vid_id vid');
            VideoSetSrc (vid_id vid') (currentVideoSrc s');
            VideoLoad (vid_id vid');
            CreateTexture (tex_id tex') (vid_id vid');
            CreateMaterial (mat_id (material cube')) (tex_id tex');
            CreateGeometry (geo_id (geometry cube')) 0.5 0.5;
            CreateMesh (mesh_id cube') (geo_id (geometry cube'))
              (mat_id (material cube'));
            CameraAdd (mesh_id cube')] /\
      live (log s') =
        [geo_id (geometry cube'); mat_id (material cube');
         tex_id tex'; vid_id vid'].
Proof.
  intros s videoSrc cube R Hcube.
  pose proof (reachable_wf R) as W.
  open_app s; wf_open W; subst cube_.
  specialize (W3 ltac:(discriminate)); subst ready_.
  specialize (W2 eq_refl); specialize (W4 ltac:(discriminate)).
  specialize (W7 _ eq_refl).
  destruct camera_ as [cam|]; [|discriminate W2].
  destruct htex_ as [tex|]; [|discriminate W4].
  destruct hvideo_ as [vid|]; [|discriminate W4].
  exists tex, vid.
  assert (removeChild (mesh_id cube) (children cam) = []) as Hdetach.
  { destruct W5 as [E | [k [E1 E2]]]; rewrite ?E, ?E2; [reflexivity|].
    injection E1 as <-; cbn [removeChild]; rewrite Nat.eqb_refl; reflexivity. }
  cbn [app] in W8, W6.
  inversion W8 as [|? ? Fg W8a]; inversion W8a as [|? ? Fm W8b];
    inversion W8b as [|? ? Ft W8c]; inversion W8c as [|? ? Fv _]; subst.
  unfold placeCube, cleanupHud, buildOverlay; cases.
  all: do 4 eexists.
  all: split; [reflexivity|]; split; [reflexivity|]; split; [reflexivity|].
  all: split; [reflexivity|]; split; [reflexivity|]; split; [reflexivity|].
  all: unfold attached, history; red_app;
    cbn [children rev live mesh_id geometry material geo_id mat_id tex_id
         vid_id].
  all: rewrite Hdetach, W6;
    repeat (progress (cbn [removeChild app]; rewrite ?Nat.eqb_refl)).
  all: repeat split; try lia; try reflexivity.
  all: rewrite <- !app_assoc; reflexivity.
Qed.

(** ** The hybrid tick *)

(** C1: take a pose manager whose [applyViewMatrix] leaves [isTracking]
    set.  On a tick of the running application in hybrid mode, with an
    engine and a camera frame, whose [processFrame] result has
    [tracking = true]: the pose manager after the tick is the one
    [applyViewMatrix(result.viewMatrix, true)] produced, the orchestrator
    has not written the camera itself, and the calls of the tick are the
    seven listed, none of which is [applyDeviceOrientation]. *)
Theorem hybrid_tick_prefers_visual_odometry :
  forall (s : ARApp) (vw vh : Z) (result : VOResult) (engine : nat),
    (forall m smooth mgr,
        mgr_isTracking (mgr_applyViewMatrix m smooth mgr) = true) ->
    reachable s ->
    isRunning s = true ->
    trackingMode s = hybrid ->
    visualOdometry s = Some engine ->
    video s <> None ->
    vw <> 0%Z ->
    tracking result = true ->
    exists mgr s' made,
      cameraPoseManager s = Some mgr /\
      animate vw vh (Some result) s = Normal s' /\
      cameraPoseManager s'
      = Some (mgr_applyViewMatrix (viewMatrix result) true mgr) /\
      camera s' = camera s /\
      history s' = history s ++ made /\
      made = [RequestAnimationFrame;
              DrawImage (vw / 2) (vh / 2);
              VOProcessFrame engine (vw / 2) (vh / 2);
              ApplyViewMatrix (viewMatrix result) true;
              GetDebugInfo;
              UpdateStatus (StatusTracking (featureCount result));
              Render] /\
      forall a b g screen, ~ In (ApplyDeviceOrientation a b g screen) made.
Proof.
  intros s vw vh result engine Htracks R Hrun Hmode Hvo Hvideo Hvw Hres.
  pose proof (reachable_wf R) as W.
  open_app s; wf_open W; subst.
  specialize (W1 eq_refl); subst.
  specialize (W2 eq_refl).
  destruct camera_ as [cam|]; [|discriminate W2].
  destruct renderer_ as [size|]; [|discriminate W2].
  destruct mgr_ as [mgr|]; [|discriminate W2].
  destruct video_ as [stream|]; [|contradiction Hvideo; reflexivity].
  apply Z.eqb_neq in Hvw.
  exists mgr.
  unfold animate, processSLAM, updateCameraFromSensor, history.
  destruct canvas_, init_, htex_; red_app; rewrite Hvw, Hres; red_app;
    rewrite ?Htracks; red_app.
  all: do 2 eexists; repeat split; try reflexivity.
  all: try (cbn [rev]; rewrite <- !app_assoc; reflexivity).
  all: cbn [In]; intuition discriminate.
Qed.

(** ** A failed initialisation of visual odometry *)

(** C2, on the code: ask for [slam] on a new application, let the import
    resolve and [init()] be rejected.  The mode is [sensor], as the claim
    says, but [visualOdometry] still refers to the engine whose [init()]
    failed.  From then on the engine is taken for usable: a new request
    for [hybrid] starts no initialisation.  When it is the import that is
    rejected the field stays [null]. *)
Theorem failed_init_keeps_engine_reference :
  forall (w : Window) (vw vh : Z),
    let s :=
      run [EvSetTrackingMode slam;
           EvVOImportSettled true;
           EvVOInitSettled 0 false vw vh] (constructor w) in
    let s' := step (EvSetTrackingMode hybrid) s in
    let r :=
      run [EvSetTrackingMode slam; EvVOImportSettled false] (constructor w) in
    trackingMode s = sensor /\
    visualOdometry s = Some 0%nat /\
    history s = [VOImport; VOInit 0] /\
    history s' = history s /\ pendingImport s' = 0%nat /\
    trackingMode r = sensor /\ visualOdometry r = None.
Proof.
  intros w vw vh s s' r.
  do 6 (split; [lazy; reflexivity|]); reflexivity.
Qed.

(** ** Gestures *)


(** C6: while dragging an overlay, a [touchmove] of one touch puts the
    overlay at the recorded start position plus [dx * k] along x and minus
    [dy * k] along y, where [(dx, dy)] is the distance of the touch from
    the recorded drag start and [k], the value of [screenPixelToLocal()],
    is [2 * 1.5 * tan(fov / 2) / innerHeight] for the camera's field of
    view in radians.  The depth and the recorded start are left as they
    are. *)
Theorem drag_moves_overlay :
  forall (s : ARApp) (cube : Mesh) (cam : Camera) (t : Touch),
    hudCube s = Some cube ->
    camera s = Some cam ->
    isDragging (gesture s) = true ->
    let g := gesture s in
    let k := 2 * 1.5 * tan (degToRad (fov cam) / 2) / innerHeight (window s) in
    let dx := clientX t - dragStartX g in
    let dy := clientY t - dragStartY g in
    screenPixelToLocal s = Some k /\
    exists s',
      onTouchMove [t] s = Normal s' /\
      option_map position (hudCube s')
      = Some {| vx := objStartX g + dx * k;
                vy := objStartY g - dy * k;
                vz := vz (position cube) |} /\
      gesture s' = g.
Proof.
  intros s cube cam t Hcube Hcam Hdrag g k dx dy.
  assert (screenPixelToLocal s = Some k) as Hk
    by (unfold screenPixelToLocal; rewrite Hcam; reflexivity).
  split; [exact Hk|].
  unfold onTouchMove; rewrite Hcube, Hdrag, Hk.
  eexists; split; [reflexivity|]; split; reflexivity.
Qed.
(** [placeCube] on a ready application. *)
Lemma placeCube_places videoSrc s :
  wellFormed s ->
  isReady s = true ->
  exists s',
    placeCube videoSrc s = Normal s' /\
    placedFrom s s' /\
    lastTap s' = lastTap s /\ gesture s' = gesture s.
Proof.
  intros W Hready.
  open_app s; wf_open W; subst ready_.
  specialize (W2 eq_refl).
  destruct camera_ as [cam|]; [|discriminate W2].
  assert (match cube_ with
          | Some cube => removeChild (mesh_id cube) (children cam)
          | None => children cam
          end = []) as Hdetach.
  { destruct cube_ as [cube|];
      destruct W5 as [E | [k [E1 E2]]]; rewrite ?E, ?E2;
      try reflexivity; try discriminate E1.
    injection E1 as <-; cbn [removeChild]; rewrite Nat.eqb_refl; reflexivity. }
  unfold placeCube, cleanupHud, buildOverlay, placedFrom, attached; cases.
  all: eexists; split; [reflexivity|]; red_app.
  all: split; [|split; reflexivity].
  all: eexists; split; [reflexivity|].
  all: cbn [mesh_id position scale children hd_error]; rewrite Hdetach.
  all: repeat split; try reflexivity; lia.
Qed.

Lemma run_app l1 l2 s : run (l1 ++ l2) s = run l2 (run l1 s).
Proof. unfold run; apply fold_left_app. Qed.

Lemma run_wf events s : wellFormed s -> wellFormed (run events s).
Proof.
  revert s; induction events as [|e events IH]; intros s W; [exact W|].
  apply IH, step_wf, W.
Qed.

Lemma wellFormed_overlay_ready s :
  wellFormed s -> hudCube s <> None -> isReady s = true.
Proof.
  intros W H; apply (wf_overlay_ready W).
  unfold view; cbn; destruct (hudCube s); [discriminate|contradiction].
Qed.

Lemma touchStart_arms p s :
  hudCube s <> None ->
  armed (step (EvTouchStart [p]) s) p /\
  lastTap (step (EvTouchStart [p]) s) = lastTap s /\
  hudCube (step (EvTouchStart [p]) s) = hudCube s.
Proof.
  intros H; unfold step, handle, onTouchStart, stateOf, armed.
  destruct (hudCube s) eqn:E; [|contradiction].
  repeat split; try reflexivity; exact E.
Qed.

Lemma touchMove_keeps_armed m p s :
  armed s p ->
  armed (step (EvTouchMove [m]) s) p /\
  lastTap (step (EvTouchMove [m]) s) = lastTap s /\
  (hudCube s <> None -> hudCube (step (EvTouchMove [m]) s) <> None).
Proof.
  unfold step, handle, onTouchMove, screenPixelToLocal, armed.
  open_app s; red_app; intros A.
  cases; repeat split; try apply A; try reflexivity; try discriminate;
    try assumption; try (intros F; exact F);
    try (destruct A as [F _]; discriminate F).
Qed.

Lemma touchMoves_keep_armed moves p s :
  armed s p ->
  hudCube s <> None ->
  let s' := run (map (fun m => EvTouchMove [m]) moves) s in
  armed s' p /\ lastTap s' = lastTap s /\ hudCube s' <> None.
Proof.
  revert s; induction moves as [|m moves IH]; intros s A H; [repeat split; auto; apply A|].
  destruct (@touchMove_keeps_armed m p s A) as (A1 & T1 & H1).
  destruct (IH _ A1 (H1 H)) as (A2 & T2 & H2).
  cbn [map]; rewrite run_cons; repeat split; try apply A2; auto; congruence.
Qed.

Lemma touchEnd_of_tap p q now s :
  wellFormed s ->
  hudCube s <> None ->
  armed s p ->
  Rabs (clientX q - clientX p) < 10 ->
  Rabs (clientY q - clientY p) < 10 ->
  let s' := step (EvTouchEnd [] [q] now) s in
  lastTap s' = now /\
  hudCube s' <> None /\
  ((now - lastTap s < 300)%Z -> placedFrom s s') /\
  ((300 <= now - lastTap s)%Z -> log s' = log s /\ hudCube s' = hudCube s).
Proof.
  intros W H (A1 & A2 & A3 & A4) Hx Hy.
  unfold step, handle, onTouchEnd.
  rewrite A1, A2; cbn [andb negb hd_error option_map orZero].
  rewrite A3, A4.
  apply Rltb_true in Hx, Hy; rewrite Hx, Hy; cbn [andb].
  destruct (now - lastTap s <? 300)%Z eqn:Hgap.
  - destruct (@placeCube_places None s W (@wellFormed_overlay_ready s W H))
      as (s1 & P & (cube & C1 & C2) & L & G).
    rewrite P; cbn [andThen stateOf].
    split; [reflexivity|].
    split; [cbn; rewrite C1; discriminate|].
    split; [intros _; exists cube; split; [exact C1|exact C2]|].
    apply Z.ltb_lt in Hgap; intros; lia.
  - cbn [andThen stateOf].
    split; [reflexivity|]. split; [exact H|].
    apply Z.ltb_ge in Hgap.
    split; [intros; lia|]. intros _; split; reflexivity.
Qed.

(** C7, amended: in a reachable state that has an overlay, take two
    single-pointer touch sequences, each ending less than 10 pixels from
    where it began on both axes, the first lifted at [t1] and the second at
    [t2].  If [t2 - t1 < 300] the second lift places the overlay anew; if
    [t2 - t1 >= 300] it makes no call and leaves the overlay as it is. *)
Theorem double_tap_places_overlay :
  forall (s : ARApp) (p1 q1 p2 q2 : Touch) (moves1 moves2 : list Touch)
         (t1 t2 : Z),
    reachable s ->
    hudCube s <> None ->
    Rabs (clientX q1 - clientX p1) < 10 ->
    Rabs (clientY q1 - clientY p1) < 10 ->
    Rabs (clientX q2 - clientX p2) < 10 ->
    Rabs (clientY q2 - clientY p2) < 10 ->
    let before :=
      run (tapSequence p1 moves1 q1 t1
           ++ EvTouchStart [p2] :: map (fun m => EvTouchMove [m]) moves2) s in
    let after := step (EvTouchEnd [] [q2] t2) before in
    run (tapSequence p1 moves1 q1 t1 ++ tapSequence p2 moves2 q2 t2) s = after /\
    ((t2 - t1 < 300)%Z -> placedFrom before after) /\
    ((300 <= t2 - t1)%Z ->
     log after = log before /\ hudCube after = hudCube before).
Proof.
  intros s p1 q1 p2 q2 moves1 moves2 t1 t2 R H Hx1 Hy1 Hx2 Hy2 before after.
  pose proof (reachable_wf R) as W.
  (* the first sequence *)
  destruct (@touchStart_arms p1 s H) as (A & T & C).
  set (sa := step (EvTouchStart [p1]) s) in *.
  assert (hudCube sa <> None) as Ha by (rewrite C; exact H).
  destruct (@touchMoves_keep_armed moves1 p1 sa A Ha) as (Ab & Tb & Hb).
  set (sb := run (map (fun m => EvTouchMove [m]) moves1) sa) in *.
  assert (wellFormed sb) as Wb by (apply run_wf, step_wf, W).
  destruct (@touchEnd_of_tap p1 q1 t1 sb Wb Hb Ab Hx1 Hy1) as (Tc & Hc & _).
  set (sc := step (EvTouchEnd [] [q1] t1) sb) in *.
  assert (wellFormed sc) as Wc by (apply step_wf, Wb).
  assert (run (tapSequence p1 moves1 q1 t1) s = sc) as E1.
  { unfold tapSequence; rewrite run_cons, run_app; reflexivity. }
  (* the second sequence *)
  destruct (@touchStart_arms p2 sc Hc) as (Ad & Td & Cd).
  set (sd := step (EvTouchStart [p2]) sc) in *.
  assert (hudCube sd <> None) as Hd by (rewrite Cd; exact Hc).
  destruct (@touchMoves_keep_armed moves2 p2 sd Ad Hd) as (Ae & Te & He).
  set (se := run (map (fun m => EvTouchMove [m]) moves2) sd) in *.
  assert (wellFormed se) as We by (apply run_wf, step_wf, Wc).
  assert (before = se) as E2.
  { unfold before; rewrite run_app, E1, run_cons; reflexivity. }
  assert (lastTap se = t1) as Tse by congruence.
  destruct (@touchEnd_of_tap p2 q2 t2 se We He Ae Hx2 Hy2) as (_ & _ & P & N).
  unfold after; rewrite E2, Tse in *.
  split; [|split; assumption].
  unfold tapSequence at 2.
  rewrite run_app, E1, run_cons, run_app; reflexivity.
Qed.
End Properties.

(** ** The chroma-key shader *)

Module ChromaKeyFacts.

Import ChromaKey.

Lemma clamp_low x : x <= 0 -> clamp x 0 1 = 0.
Proof.
  intros H; unfold clamp.
  rewrite (Rmax_right x 0) by lra. apply Rmin_left; lra.
Qed.

Lemma clamp_high x : 1 <= x -> clamp x 0 1 = 1.
Proof.
  intros H; unfold clamp.
  rewrite (Rmax_left x 0) by lra. apply Rmin_right; lra.
Qed.

Lemma smoothstep_below edge0 edge1 x :
  edge0 < edge1 -> x <= edge0 -> smoothstep edge0 edge1 x = 0.
Proof.
  intros He Hx; unfold smoothstep.
  rewrite clamp_low; [lra|].
  apply Rmult_le_reg_r with (edge1 - edge0); [lra|].
  unfold Rdiv; rewrite Rmult_assoc, Rinv_l by lra; lra.
Qed.

Lemma smoothstep_above edge0 edge1 x :
  edge0 < edge1 -> edge1 <= x -> smoothstep edge0 edge1 x = 1.
Proof.
  intros He Hx; unfold smoothstep.
  rewrite clamp_high; [lra|].
  apply Rmult_le_reg_r with (edge1 - edge0); [lra|].
  unfold Rdiv; rewrite Rmult_assoc, Rinv_l by lra; lra.
Qed.

Lemma chromaDist_same c : chromaDist c c = 0.
Proof.
  unfold chromaDist, dot, sub; cbn [cx cy].
  replace ((cx (RGBtoUV c) - cx (RGBtoUV c)) * (cx (RGBtoUV c) - cx (RGBtoUV c))
           + (cy (RGBtoUV c) - cy (RGBtoUV c)) * (cy (RGBtoUV c) - cy (RGBtoUV c)))
    with 0 by lra.
  exact sqrt_0.
Qed.

(** The two ends of the soft threshold, whatever the uniforms. *)
Lemma alpha_at_key_and_beyond :
  forall (texture2D : Vec2 -> Vec4) (u : Uniforms) (vUv : Vec2),
    0 <= similarity u ->
    0 < smoothness u ->
    let croppedUV :=
      {| cx := cx vUv;
         cy := cropBottom u + cy vUv * (1 - cropTop u - cropBottom u) |} in
    let texColor := texture2D croppedUV in
    let out := main texture2D u vUv in
    (rgb texColor = keyColor u -> opacity out = 0) /\
    (similarity u + smoothness u <= chromaDist (rgb texColor) (keyColor u) ->
     opacity out = opacity texColor).
Proof.
  intros texture2D u vUv Hsim Hsmooth croppedUV texColor out.
  unfold out, main; cbn [opacity]; fold croppedUV; fold texColor.
  split.
  - intros ->; rewrite chromaDist_same, smoothstep_below; lra.
  - intros Hfar; rewrite smoothstep_above; lra.
Qed.

End ChromaKeyFacts.

(** C8: for the material of the overlay in any reachable state, whose key
    colour is pure green with similarity 0.4 and smoothness 0.1: a sampled
    pixel whose colour is the key colour comes out with alpha 0, and a
    sampled pixel whose chroma distance from the key colour is at least
    [similarity + smoothness] comes out with the alpha it was sampled
    with. *)
Theorem chroma_key_alpha :
  forall `{TM : ThreeMath} `{PM : PoseManager} (s : ARApp) (cube : Mesh)
         (texture2D : ChromaKey.Vec2 -> ChromaKey.Vec4)
         (vUv : ChromaKey.Vec2),
    reachable s ->
    hudCube s = Some cube ->
    let u := uniforms (material cube) in
    let croppedUV :=
      {| ChromaKey.cx := ChromaKey.cx vUv;
         ChromaKey.cy :=
           cropBottom u + ChromaKey.cy vUv * (1 - cropTop u - cropBottom u) |} in
    let texColor := texture2D croppedUV in
    let out := ChromaKey.main texture2D u vUv in
    (keyColor u, similarity u, smoothness u)
    = ({| vx := 0; vy := 1; vz := 0 |}, 0.4, 0.1) /\
    (ChromaKey.rgb texColor = keyColor u -> ChromaKey.opacity out = 0) /\
    (similarity u + smoothness u
     <= ChromaKey.chromaDist (ChromaKey.rgb texColor) (keyColor u) ->
     ChromaKey.opacity out = ChromaKey.opacity texColor).
Proof.
  intros TM PM s cube texture2D vUv R Hcube u croppedUV texColor out.
  assert ((keyColor u, similarity u, smoothness u)
          = ({| vx := 0; vy := 1; vz := 0 |}, 0.4, 0.1)) as K.
  { apply (wf_key (reachable_wf R)).
    unfold view; cbn [v_key]; rewrite Hcube; reflexivity. }
  split; [exact K|].
  injection K as _ Hsim Hsmooth.
  apply ChromaKeyFacts.alpha_at_key_and_beyond; lra.
Qed.

(** * Further properties *)

Section FurtherProperties.

Context `{TM : ThreeMath} `{PM : PoseManager}.

Notation "c >>= k" := (andThen c k) (at level 50, left associativity).

(** ** The two sides of the state *)

Lemma onDeviceMotion_quiet acc s : quiet (onDeviceMotion acc s) = quiet s.
Proof. unfold onDeviceMotion; keeps. Qed.

Lemma onDeviceOrientation_overlay event s :
  shape (onDeviceOrientation event s) = shape s /\
  overlaySide (onDeviceOrientation event s) = overlaySide s.
Proof. unfold onDeviceOrientation; keeps. Qed.

Lemma onResize_quiet w h s : quiet (stateOf (onResize w h s)) = quiet s.
Proof. unfold onResize; keeps. Qed.

Lemma switchCamera_quiet s : quiet (switchCamera s) = quiet s.
Proof. unfold switchCamera; keeps. Qed.

Lemma processSLAM_quiet vw vh answer s :
  quiet (stateOf (processSLAM vw vh answer s)) = quiet s.
Proof. unfold processSLAM; keeps. Qed.

Lemma updateCameraFromSensor_quiet s :
  quiet (stateOf (updateCameraFromSensor s)) = quiet s.
Proof. unfold updateCameraFromSensor; keeps. Qed.

Lemma animate_quiet vw vh answer s :
  quiet (stateOf (animate vw vh answer s)) = quiet s.
Proof.
  unfold animate.
  destruct (negb (isRunning s)); [reflexivity|].
  apply andThen_keeps.
  - transitivity (quiet (call RequestAnimationFrame s)); [|reflexivity].
    destruct (trackingMode (call RequestAnimationFrame s));
      try reflexivity; apply processSLAM_quiet.
  - intros s1; apply andThen_keeps.
    + destruct (trackingMode s1);
        try reflexivity; apply updateCameraFromSensor_quiet.
    + keeps.
Qed.

Lemma setTrackingMode_quiet mode s : quiet (setTrackingMode mode s) = quiet s.
Proof. unfold setTrackingMode, initVisualOdometry; keeps. Qed.

Lemma imported_quiet resolved s :
  quiet (initVisualOdometry_imported resolved s) = quiet s.
Proof. unfold initVisualOdometry_imported; keeps. Qed.

Lemma initialized_quiet engine resolved vw vh s :
  quiet (initVisualOdometry_initialized engine resolved vw vh s) = quiet s.
Proof. unfold initVisualOdometry_initialized; keeps. Qed.

Lemma resetPose_quiet s : quiet (resetPose s) = quiet s.
Proof. unfold resetPose; keeps. Qed.

Lemma tryPlay_pose s :
  poseSide (stateOf (tryPlay s)) = poseSide s /\
  shape (stateOf (tryPlay s)) = shape s.
Proof. unfold tryPlay; keeps. Qed.

Lemma onLoadedMetadata_pose vw vh s :
  poseSide (stateOf (onLoadedMetadata vw vh s)) = poseSide s /\
  shape (stateOf (onLoadedMetadata vw vh s)) = shape s.
Proof. unfold onLoadedMetadata; keeps. Qed.

Lemma onTouchStart_pose touches s :
  poseSide (onTouchStart touches s) = poseSide s.
Proof. unfold onTouchStart; keeps. Qed.

Lemma onTouchMove_pose touches s :
  poseSide (stateOf (onTouchMove touches s)) = poseSide s.
Proof. unfold onTouchMove, screenPixelToLocal; keeps. Qed.

Lemma onMouseMove_pose x y s :
  poseSide (stateOf (onMouseMove x y s)) = poseSide s /\
  shape (stateOf (onMouseMove x y s)) = shape s.
Proof. unfold onMouseMove, screenPixelToLocal; keeps. Qed.

Lemma onMouseUp_pose s :
  poseSide (onMouseUp s) = poseSide s /\ shape (onMouseUp s) = shape s.
Proof. unfold onMouseUp; keeps. Qed.

Lemma onWheel_pose deltaY s : poseSide (onWheel deltaY s) = poseSide s.
Proof. unfold onWheel; keeps. Qed.

Lemma cleanupHud_pose s : poseSide (stateOf (cleanupHud s)) = poseSide s.
Proof. unfold cleanupHud; keeps. Qed.

Lemma buildOverlay_pose s : poseSide (stateOf (buildOverlay s)) = poseSide s.
Proof. unfold buildOverlay; keeps. Qed.

Lemma placeCube_pose videoSrc s :
  poseSide (stateOf (placeCube videoSrc s)) = poseSide s.
Proof.
  unfold placeCube.
  destruct (negb (isReady s)); [reflexivity|].
  apply andThen_keeps; [|apply buildOverlay_pose].
  rewrite cleanupHud_pose; destruct (truthySrc videoSrc); reflexivity.
Qed.

Lemma onTouchEnd_pose touches changed now s :
  poseSide (stateOf (onTouchEnd touches changed now s)) = poseSide s.
Proof.
  unfold onTouchEnd.
  destruct touches as [|t0 [|t1 rest]]; try reflexivity.
  apply andThen_keeps; [|reflexivity].
  destruct (isDragging (gesture s) && negb (isPinching (gesture s)));
    [|reflexivity].
  match goal with |- context [if ?c then _ else _] => destruct c end;
    [|reflexivity].
  apply andThen_keeps; [|reflexivity].
  destruct (now - lastTap s <? 300)%Z; [apply placeCube_pose|reflexivity].
Qed.

Lemma onMouseDown_pose x y s :
  poseSide (stateOf (onMouseDown x y s)) = poseSide s.
Proof.
  unfold onMouseDown; destruct (hudCube s); [reflexivity|apply placeCube_pose].
Qed.

(** ** The second invariant *)

Lemma wellShaped_shape s s' : shape s' = shape s -> wellShaped s -> wellShaped s'.
Proof. unfold wellShaped; intros -> H; exact H. Qed.

Lemma wellShaped_andThen (c : Completion) (k : ARApp -> Completion) :
  wellShaped (stateOf c) ->
  (forall s, wellShaped s -> wellShaped (stateOf (k s))) ->
  wellShaped (stateOf (c >>= k)).
Proof. intros Hc Hk; destruct c as [s | s]; simpl in *; auto. Qed.

Lemma quiet_shape s s' : quiet s' = quiet s -> shape s' = shape s.
Proof. intros E; exact (f_equal (fun q => fst (fst q)) E). Qed.

Lemma constructor_ws w : wellShaped (constructor w).
Proof. unfold constructor; ws_close. Qed.

Lemma onTouchStart_ws touches s :
  wellShaped s -> wellShaped (onTouchStart touches s).
Proof.
  intros W; unfold onTouchStart; open_app s; ws_open W.
  cases; red_shape; ws_use S3 S4 S5 S6 S7; ws_close.
Qed.

Lemma onTouchMove_ws touches s :
  wellShaped s -> wellShaped (stateOf (onTouchMove touches s)).
Proof.
  intros W; unfold onTouchMove, screenPixelToLocal; open_app s; ws_open W.
  cases; red_shape; ws_use S3 S4 S5 S6 S7; ws_close.
Qed.

Lemma onWheel_ws deltaY s : wellShaped s -> wellShaped (onWheel deltaY s).
Proof.
  intros W; unfold onWheel; open_app s; ws_open W.
  cases; red_shape; ws_use S3 S4 S5 S6 S7; ws_close.
Qed.

Lemma cleanupHud_ws s : wellShaped s -> wellShaped (stateOf (cleanupHud s)).
Proof.
  intros W; unfold cleanupHud; open_app s; ws_open W.
  cases; red_shape; ws_use S3 S4 S5 S6 S7; ws_close.
Qed.

Lemma placeCube_ws videoSrc s :
  wellFormed s -> wellShaped s -> wellShaped (stateOf (placeCube videoSrc s)).
Proof.
  intros W S; unfold placeCube.
  destruct (isReady s) eqn:Hready; cbn [negb]; [|exact S].
  assert (camera s <> None) as Hcam.
  { pose proof (wf_ready W) as L; unfold view in L; cbn in L.
    specialize (L Hready); destruct (camera s); [discriminate|discriminate L]. }
  clear W Hready; unfold cleanupHud, buildOverlay.
  open_app s; cbn [camera] in Hcam.
  destruct camera_ as [cam|]; [clear Hcam|contradiction Hcam; reflexivity].
  ws_open S.
  cases; red_shape; ws_use S3 S4 S5 S6 S7; ws_close.
Qed.

Lemma setFlags_ws d p s :
  d && p = false ->
  wellShaped s -> wellShaped (set_gesture (setFlags d p (gesture s)) s).
Proof.
  intros F W; open_app s; ws_open W.
  ws_close; destruct d, p; discriminate.
Qed.

Lemma onTouchEnd_ws touches changed now s :
  wellFormed s -> wellShaped s ->
  wellShaped (stateOf (onTouchEnd touches changed now s)).
Proof.
  intros W S; unfold onTouchEnd.
  destruct touches as [|t0 [|t1 rest]]; try exact S.
  - apply wellShaped_andThen;
      [|intros s1 S1; apply (@setFlags_ws false false s1 eq_refl S1)].
    destruct (isDragging (gesture s) && negb (isPinching (gesture s)));
      [|exact S].
    match goal with |- context [if ?c then _ else _] => destruct c end;
      [|exact S].
    apply wellShaped_andThen;
      [|intros s1; apply wellShaped_shape; reflexivity].
    destruct (now - lastTap s <? 300)%Z; [apply placeCube_ws; assumption|exact S].
  - clear W; open_app s; ws_open S.
    cases; red_shape; ws_use S3 S4 S5 S6 S7; ws_close.
Qed.

Lemma onMouseDown_ws x y s :
  wellFormed s -> wellShaped s -> wellShaped (stateOf (onMouseDown x y s)).
Proof.
  intros W S; unfold onMouseDown; destruct (hudCube s) eqn:E.
  - revert S; apply wellShaped_shape.
    open_app s; cbn [hudCube] in E; subst; destruct g_; reflexivity.
  - apply placeCube_ws; assumption.
Qed.

Lemma destroy_ws s : wellShaped s -> wellShaped (stateOf (destroy s)).
Proof.
  intros S; unfold destroy.
  apply wellShaped_andThen.
  - apply cleanupHud_ws; revert S; apply wellShaped_shape; reflexivity.
  - intros s1; apply wellShaped_shape; open_app s1; cases; reflexivity.
Qed.

Lemma init_ws o gyro vw vh answer s :
  wellShaped s -> wellShaped (init o gyro vw vh answer s).
Proof.
  intros S; unfold init; destruct o.
  - revert S; apply wellShaped_shape; reflexivity.
  - revert S; apply wellShaped_shape; reflexivity.
  - open_app s; ws_open S; ws_close.
  - match goal with
    | |- context [animate vw vh answer ?s1] =>
        assert (wellShaped s1) as S1
          by (open_app s; ws_open S; destruct gyro; ws_close);
        pose proof (quiet_shape (animate_quiet vw vh answer s1)) as E;
        destruct (animate vw vh answer s1) as [s2 | s2]
    end; simpl in E.
    + revert S1; apply wellShaped_shape, E.
    + revert S1; apply wellShaped_shape.
      transitivity (shape s2); [reflexivity | exact E].
Qed.

(** Every event keeps the second invariant. *)
Lemma step_ws e s : wellFormed s -> wellShaped s -> wellShaped (step e s).
Proof.
  intros W S; unfold step; destruct e; cbn [handle stateOf];
    first
      [ apply init_ws, S
      | apply onTouchStart_ws, S
      | apply onTouchMove_ws, S
      | apply onTouchEnd_ws; assumption
      | apply onMouseDown_ws; assumption
      | apply onWheel_ws, S
      | apply placeCube_ws; assumption
      | apply destroy_ws, S
      | revert S; apply wellShaped_shape;
        first [ apply onDeviceOrientation_overlay
              | apply quiet_shape;
                first [ apply onDeviceMotion_quiet | apply switchCamera_quiet
                      | apply onResize_quiet | apply animate_quiet
                      | apply resetPose_quiet | apply setTrackingMode_quiet
                      | apply imported_quiet | apply initialized_quiet ]
              | apply onMouseMove_pose | apply onMouseUp_pose
              | apply tryPlay_pose | apply onLoadedMetadata_pose
              | reflexivity ] ].
Qed.

Lemma reachable_ws s : reachable s -> wellShaped s.
Proof.
  induction 1 as [w | e s R IH];
    [apply constructor_ws | apply step_ws; [apply reachable_wf, R | exact IH]].
Qed.

(** ** Gestures and tracking do not meet *)

(** X1: an event of the gesture listeners, of the placement or of the
    overlay's video leaves the tracking side of the state as it was: the
    pose manager, the camera's own quaternion, the engine and its pending
    initialisations, the orientation samples, the mode, the frame canvas
    and [isRunning]. *)
Theorem overlay_events_keep_pose :
  forall (e : Event) (s : ARApp),
    isOverlayEvent e = true -> poseSide (step e s) = poseSide s.
Proof.
  intros e s H; unfold step; destruct e; try discriminate H;
    cbn [handle stateOf];
    first [ apply onTouchStart_pose | apply onTouchMove_pose
          | apply onTouchEnd_pose | apply onMouseDown_pose
          | apply onMouseMove_pose | apply onMouseUp_pose
          | apply onWheel_pose | apply placeCube_pose
          | apply onLoadedMetadata_pose | apply tryPlay_pose ].
Qed.

Lemma quiet_overlay s s' : quiet s' = quiet s -> overlaySide s' = overlaySide s.
Proof. intros E; exact (f_equal (fun q => snd (fst q)) E). Qed.

(** X2: an event of the sensors, the render loop, the tracking operations
    or the window leaves the overlay side of the state as it was: the
    overlay with its position and scale, its video and texture, the source,
    the gesture, [lastTap] and [mouseDown]. *)
Theorem tracking_events_keep_overlay :
  forall (e : Event) (s : ARApp),
    isTrackingEvent e = true -> overlaySide (step e s) = overlaySide s.
Proof.
  intros e s H; unfold step; destruct e; try discriminate H;
    cbn [handle stateOf];
    first [ apply onDeviceOrientation_overlay
          | apply quiet_overlay;
            first [ apply onDeviceMotion_quiet | apply switchCamera_quiet
                  | apply onResize_quiet | apply animate_quiet
                  | apply resetPose_quiet | apply setTrackingMode_quiet
                  | apply imported_quiet | apply initialized_quiet ]
          | reflexivity ].
Qed.

(** ** The latest orientation sample *)

Lemma poseSide_sample s s' :
  poseSide s' = poseSide s -> deviceOrientation s' = deviceOrientation s.
Proof. intros E; exact (f_equal (fun q => fst (fst (snd (fst q)))) E). Qed.

Lemma quiet_sample s s' :
  quiet s' = quiet s -> deviceOrientation s' = deviceOrientation s.
Proof. intros E; exact (f_equal snd E). Qed.

Lemma destroy_sample s :
  deviceOrientation (stateOf (destroy s)) = deviceOrientation s.
Proof.
  unfold destroy.
  apply andThen_keeps;
    [rewrite (poseSide_sample (cleanupHud_pose _)); reflexivity|].
  keeps.
Qed.

Lemma init_sample o gyro vw vh answer s :
  deviceOrientation (init o gyro vw vh answer s) = deviceOrientation s.
Proof.
  unfold init.
  destruct o; try reflexivity.
  match goal with
  | |- context [animate vw vh answer ?s1] =>
      pose proof (quiet_sample (animate_quiet vw vh answer s1)) as E;
      destruct (animate vw vh answer s1)
  end; simpl in E; [rewrite E|
    change (deviceOrientation (call (UpdateStatus StatusInitFailed) s0))
      with (deviceOrientation s0); rewrite E];
    destruct gyro; reflexivity.
Qed.

Lemma deviceOrientation_after e s :
  deviceOrientation (step e s) = latestAfter [e] (deviceOrientation s).
Proof.
  unfold step; destruct e; cbn [handle stateOf latestAfter];
    first [ apply init_sample | apply destroy_sample
          | apply quiet_sample;
            first [ apply onDeviceMotion_quiet | apply switchCamera_quiet
                  | apply onResize_quiet | apply animate_quiet
                  | apply resetPose_quiet | apply setTrackingMode_quiet
                  | apply imported_quiet | apply initialized_quiet ]
          | apply poseSide_sample;
            first [ apply onTouchStart_pose | apply onTouchMove_pose
                  | apply onTouchEnd_pose | apply onMouseDown_pose
                  | apply onMouseMove_pose | apply onMouseUp_pose
                  | apply onWheel_pose | apply placeCube_pose
                  | apply onLoadedMetadata_pose | apply tryPlay_pose ]
          | reflexivity
          | idtac ].
  unfold onDeviceOrientation, sampleOf; open_app s; cases; reflexivity.
Qed.

Lemma latestAfter_cons e events o :
  latestAfter (e :: events) o = latestAfter events (latestAfter [e] o).
Proof.
  destruct e; try reflexivity.
  cbn [latestAfter]; destruct (sampleOf event); reflexivity.
Qed.

(** X3: over any sequence of events, [deviceOrientation] holds the last
    sample whose alpha was not [null], and the one it held before when
    there was none: no other event writes it, [resetPose] included. *)
Theorem latest_sample_wins :
  forall (events : list Event) (s : ARApp),
    deviceOrientation (run events s)
    = latestAfter events (deviceOrientation s).
Proof.
  intros events; induction events as [|e events IH]; intros s; [reflexivity|].
  rewrite run_cons, IH, deviceOrientation_after, <- latestAfter_cons.
  reflexivity.
Qed.

(** ** What holds of the overlay in every reachable state *)

(** X4: in a reachable state the gesture is never a drag and a pinch at
    once. *)
Theorem gesture_flags_exclusive :
  forall s : ARApp,
    reachable s ->
    isDragging (gesture s) && isPinching (gesture s) = false.
Proof.
  intros s R; pose proof (ws_exclusive (reachable_ws R)) as E.
  unfold shape in E; cbn [sh_flags] in E.
  destruct (isDragging (gesture s)), (isPinching (gesture s));
    try reflexivity; contradiction E; reflexivity.
Qed.

Lemma wellShaped_scale s cube :
  wellShaped s ->
  hudCube s = Some cube ->
  scale cube = {| vx := hudCubeBaseScale s; vy := hudCubeBaseScale s;
                  vz := hudCubeBaseScale s |}
  /\ 0.3 <= hudCubeBaseScale s <= 20
  /\ vz (position cube) = -1.5.
Proof.
  intros W H.
  destruct (ws_uniform W (sc := scale cube) (d := vz (position cube))
              (u := (videoTexture (uniforms (material cube)),
                     cropTop (uniforms (material cube)),
                     cropBottom (uniforms (material cube)))))
    as [A B]; [unfold shape; cbn [sh_mesh]; rewrite H; reflexivity|].
  split; [exact A|]. split; [exact (ws_bounds W)|exact B].
Qed.

(** X6: in a reachable state that has an overlay, the material samples the
    current texture, the texture wraps the current video, the video plays
    [currentVideoSrc], and it is muted exactly when the name of the source
    does not include [singgang2], which is also when nothing is cropped;
    a source that includes [singgang2] plays at volume 0.8 and is cropped
    by 8% at the top and at the bottom. *)
Theorem overlay_media_consistent :
  forall (s : ARApp) (cube : Mesh),
    reachable s ->
    hudCube s = Some cube ->
    exists tex vid,
      hudVideoTexture s = Some tex /\
      hudVideo s = Some vid /\
      videoTexture (uniforms (material cube)) = tex_id tex /\
      tex_video tex = vid_id vid /\
      vid_src vid = currentVideoSrc s /\
      vid_muted vid = negb (includes (currentVideoSrc s) "singgang2") /\
      (vid_muted vid = false -> vid_volume vid = 0.8) /\
      cropTop (uniforms (material cube)) = cropOf (currentVideoSrc s) /\
      cropBottom (uniforms (material cube)) = cropOf (currentVideoSrc s).
Proof.
  intros s cube R H; pose proof (reachable_ws R) as W.
  destruct W as [_ _ _ _ S5 S6 S7 _].
  open_app s; cbn [hudCube] in H; subst; red_shape.
  destruct (S6 _ _ _ _ _ eq_refl) as ((i & T) & C1 & C2).
  destruct htex_ as [tex|]; [|discriminate T].
  injection T as T1 T2.
  destruct (S7 _ _ eq_refl) as (src & m & vol & V).
  destruct hvideo_ as [vid|]; [|discriminate V].
  destruct (S5 _ _ _ _ eq_refl) as (V1 & V2 & V3).
  exists tex, vid; rewrite <- V1 at 1.
  repeat split; try assumption; try congruence.
  rewrite V2, V1; destruct (includes src_ "singgang2"); reflexivity.
Qed.

(** ** More on gestures *)

Lemma moveTo_back (cube : Mesh) (x y k : R) :
  moveTo (vx (position cube) + (x - x) * k) (vy (position cube) - (y - y) * k)
    cube = cube.
Proof.
  destruct cube as [i g m [px py pz] sc]; unfold moveTo; cbn.
  f_equal; f_equal; lra.
Qed.

(** The state of a drag that started at [p] on an overlay at [(ox, oy)]. *)
Lemma drag_move_invariant (m p : Touch) (ox oy oz : R) (cam : Camera)
    (w : Window) (s : ARApp) :
  (armed s p /\ objStartX (gesture s) = ox /\ objStartY (gesture s) = oy /\
   camera s = Some cam /\ window s = w /\
   exists c, hudCube s = Some c /\ vz (position c) = oz) ->
  let s' := step (EvTouchMove [m]) s in
  (armed s' p /\ objStartX (gesture s') = ox /\ objStartY (gesture s') = oy /\
   camera s' = Some cam /\ window s' = w /\
   exists c, hudCube s' = Some c /\ vz (position c) = oz) /\
  option_map position (hudCube s')
  = Some {| vx := ox + (clientX m - clientX p)
                       * (2 * 1.5 * tan (degToRad (fov cam) / 2)
                          / innerHeight w);
            vy := oy - (clientY m - clientY p)
                       * (2 * 1.5 * tan (degToRad (fov cam) / 2)
                          / innerHeight w);
            vz := oz |}.
Proof.
  intros ((A1 & A2 & A3 & A4) & Hx & Hy & Hcam & Hw & c & Hc & Hz) s'.
  assert (s' = set_hudCube
                 (Some (moveTo
                          (ox + (clientX m - clientX p)
                                * (2 * 1.5 * tan (degToRad (fov cam) / 2)
                                   / innerHeight w))
                          (oy - (clientY m - clientY p)
                                * (2 * 1.5 * tan (degToRad (fov cam) / 2)
                                   / innerHeight w)) c)) s) as E.
  { unfold s', step, handle, onTouchMove, screenPixelToLocal.
    rewrite Hc, A1, Hcam, Hx, Hy, A3, A4, Hw; reflexivity. }
  rewrite E; split.
  - split; [repeat split; assumption|].
    do 4 (split; [assumption|]).
    eexists; split; [reflexivity|exact Hz].
  - cbn; rewrite Hz; reflexivity.
Qed.

Lemma tan_half_fov : 0 < tan (degToRad 70 / 2).
Proof.
  unfold degToRad; pose proof PI_RGT_0.
  apply tan_gt_0; lra.
Qed.

(** X9: in a reachable state with an overlay, on a window of positive
    height, [screenPixelToLocal()] is positive, so a drag follows the
    finger: a touch to the right of where the drag began puts the overlay
    to the right of where it was then, and a touch below puts it above in
    camera coordinates, whose y axis points up. *)
Theorem drag_follows_finger :
  forall (s : ARApp) (cube : Mesh) (t : Touch),
    reachable s ->
    hudCube s = Some cube ->
    isDragging (gesture s) = true ->
    0 < innerHeight (window s) ->
    exists k s' cube',
      screenPixelToLocal s = Some k /\ 0 < k /\
      onTouchMove [t] s = Normal s' /\
      hudCube s' = Some cube' /\
      (dragStartX (gesture s) < clientX t ->
       objStartX (gesture s) < vx (position cube')) /\
      (dragStartY (gesture s) < clientY t ->
       vy (position cube') < objStartY (gesture s)).
Proof.
  intros s cube t R Hcube Hdrag Hh.
  pose proof (reachable_wf R) as W; pose proof (reachable_ws R) as S.
  assert (isReady s = true) as Hready
    by (apply (wellFormed_overlay_ready W); rewrite Hcube; discriminate).
  pose proof (wf_ready W) as L; unfold view in L; cbn [v_ready v_layer] in L.
  specialize (L Hready).
  destruct (camera s) as [cam|] eqn:Hcam; [|discriminate L].
  assert (fov cam = 70) as F
    by (apply (ws_fov S); unfold shape; cbn [sh_fov]; rewrite Hcam;
        reflexivity).
  set (k := 2 * 1.5 * tan (degToRad 70 / 2) / innerHeight (window s)).
  assert (0 < k) as Hk.
  { unfold k; pose proof tan_half_fov.
    apply Rdiv_lt_0_compat; [lra|exact Hh]. }
  assert (screenPixelToLocal s = Some k) as Ek
    by (unfold screenPixelToLocal; rewrite Hcam, F; reflexivity).
  exists k; eexists; eexists.
  split; [exact Ek|]. split; [exact Hk|].
  split; [unfold onTouchMove; rewrite Hcube, Hdrag, Ek; reflexivity|].
  split; [reflexivity|].
  cbn [moveTo position vx vy]; split; intros D.
  - assert (0 < (clientX t - dragStartX (gesture s)) * k)
      by (apply Rmult_lt_0_compat; lra); lra.
  - assert (0 < (clientY t - dragStartY (gesture s)) * k)
      by (apply Rmult_lt_0_compat; lra); lra.
Qed.

Lemma scaleTo_same (cube : Mesh) (k : R) :
  scale cube = {| vx := k; vy := k; vz := k |} -> scaleTo k cube = cube.
Proof.
  destruct cube as [i g m p sc]; unfold scaleTo; cbn; intros ->; reflexivity.
Qed.

(** X10: a pinch does not jump when it begins: in a reachable state with
    an overlay, after two fingers have come down some distance apart, a
    [touchmove] that reports them where they were leaves the overlay and
    its scale as they were. *)
Theorem pinch_starts_without_jump :
  forall (s : ARApp) (cube : Mesh) (a b : Touch),
    reachable s ->
    hudCube s = Some cube ->
    0 < getTouchDistance [a; b] ->
    let s' := run [EvTouchStart [a; b]; EvTouchMove [a; b]] s in
    hudCube s' = Some cube /\ hudCubeBaseScale s' = hudCubeBaseScale s.
Proof.
  intros s cube a b R Hcube Hd s'.
  destruct (wellShaped_scale (reachable_ws R) Hcube) as (Hs & Hb & _).
  assert (clampScale 0.3 20
            (hudCubeBaseScale s
             * (getTouchDistance [a; b] / getTouchDistance [a; b]))
          = hudCubeBaseScale s) as E.
  { replace (hudCubeBaseScale s
             * (getTouchDistance [a; b] / getTouchDistance [a; b]))
      with (hudCubeBaseScale s) by (field; lra).
    apply clampScale_cases; lra. }
  unfold s', run, fold_left, step, handle, onTouchStart, onTouchMove.
  rewrite Hcube; cbn [stateOf].
  open_app s; cbn [hudCube hudCubeBaseScale] in *; subst.
  red_app; cbn [isPinching pinchStartDist pinchStartScale].
  rewrite E, (scaleTo_same cube Hs); split; reflexivity.
Qed.

Lemma placeCube_mouseDown videoSrc s :
  mouseDown (stateOf (placeCube videoSrc s)) = mouseDown s.
Proof.
  unfold placeCube.
  destruct (negb (isReady s)); [reflexivity|].
  apply andThen_keeps; [|unfold buildOverlay; keeps].
  transitivity
    (mouseDown (match truthySrc videoSrc with
                | Some src => set_currentVideoSrc src s
                | None => s
                end)); [unfold cleanupHud; keeps|].
  destruct (truthySrc videoSrc); reflexivity.
Qed.

(** ** More on the render tick *)

(** The layers of a running application. *)
Lemma running_layers s :
  wellFormed s -> isRunning s = true ->
  exists cam size mgr,
    camera s = Some cam /\ renderer s = Some size /\
    cameraPoseManager s = Some mgr.
Proof.
  intros W Hrun.
  pose proof (wf_running W) as A; pose proof (wf_ready W) as B.
  unfold view in A, B; cbn [v_running v_ready v_layer isSome] in A, B.
  specialize (B (A Hrun)).
  destruct (camera s) as [cam|]; [|discriminate B].
  destruct (renderer s) as [size|]; [|discriminate B].
  destruct (cameraPoseManager s) as [mgr|]; [|discriminate B].
  exists cam, size, mgr; repeat split.
Qed.

(** X12: a tick of the running application in [sensor] mode makes no call
    on the visual-odometry side, whatever the engine would have answered,
    and leaves the frame canvas alone.  Without a reference orientation it
    only renders; with one it hands the pose manager the latest sample,
    not the reference, together with the screen angle, 0 when the window
    has none. *)
Theorem sensor_tick_applies_latest_sample :
  forall (s : ARApp) (vw vh : Z) (answer : option VOResult),
    reachable s ->
    isRunning s = true ->
    trackingMode s = sensor ->
    exists mgr s',
      cameraPoseManager s = Some mgr /\
      animate vw vh answer s = Normal s' /\
      processCanvas s' = processCanvas s /\
      let o := deviceOrientation s in
      let screen := orZero (orientation (window s)) in
      match initialOrientation s with
      | None =>
          cameraPoseManager s' = Some mgr /\
          history s' = history s ++ [RequestAnimationFrame; Render]
      | Some _ =>
          cameraPoseManager s'
          = Some (mgr_applyDeviceOrientation (alpha o) (beta o) (gamma o)
                    screen mgr) /\
          history s'
          = history s
            ++ [RequestAnimationFrame;
                ApplyDeviceOrientation (alpha o) (beta o) (gamma o) screen;
                Render]
      end.
Proof.
  intros s vw vh answer R Hrun Hmode.
  destruct (running_layers (reachable_wf R) Hrun)
    as (cam & size & mgr & Hcam & Hren & Hmgr).
  exists mgr.
  open_app s;
    cbn [isRunning trackingMode camera renderer cameraPoseManager] in *;
    subst.
  unfold animate, updateCameraFromSensor, history.
  destruct init_, htex_; red_app; eexists.
  all: repeat split; try reflexivity.
  all: cbn [rev]; rewrite <- !app_assoc; reflexivity.
Qed.

(** X13: a tick of the running application in [slam] mode never applies
    the device orientation and never writes the camera itself: the pose
    manager is the one it was, or, when the engine was asked and answered
    with a tracking result, the one [applyViewMatrix] made of it.  A frame
    is handed to the engine at half the size of the camera frame. *)
Theorem slam_tick_never_reads_sensor :
  forall (s : ARApp) (vw vh : Z) (answer : option VOResult),
    reachable s ->
    isRunning s = true ->
    trackingMode s = slam ->
    exists s' made,
      animate vw vh answer s = Normal s' /\
      madeFrom s s' made /\
      Forall (fun c => isSensorCall c = false) made /\
      (forall engine w h,
          In (VOProcessFrame engine w h) made ->
          visualOdometry s = Some engine /\ w = (vw / 2)%Z /\ h = (vh / 2)%Z
          /\ vw <> 0%Z /\ processCanvas s' = Some (w, h)) /\
      camera s' = camera s /\
      (cameraPoseManager s' = cameraPoseManager s
       \/ exists result mgr,
            answer = Some result /\ tracking result = true /\
            cameraPoseManager s = Some mgr /\
            cameraPoseManager s'
            = Some (mgr_applyViewMatrix (viewMatrix result) true mgr)).
Proof.
  intros s vw vh answer R Hrun Hmode.
  destruct (running_layers (reachable_wf R) Hrun)
    as (cam & size & mgr & Hcam & Hren & Hmgr).
  open_app s;
    cbn [isRunning trackingMode camera renderer cameraPoseManager] in *;
    subst.
  unfold animate, processSLAM, madeFrom; cases.
  all: eexists;
    first [ exists [Render; RequestAnimationFrame];
            split; [reflexivity|]; split; [reflexivity|]
          | eexists [Render; _; _; _; _; _; RequestAnimationFrame];
            split; [reflexivity|]; split; [reflexivity|]
          | eexists [Render; _; _; RequestAnimationFrame];
            split; [reflexivity|]; split; [reflexivity|] ].
  all: split; [repeat constructor|].
  all: split;
    [ intros engine w h I; cbn [In] in I;
      repeat match goal with
      | H : _ \/ _ |- _ => destruct H as [H | H]
      | H : False |- _ => contradiction H
      end; try discriminate;
      match goal with
      | H : VOProcessFrame _ _ _ = VOProcessFrame _ _ _ |- _ =>
          injection H as <- <- <-
      end;
      repeat split; try reflexivity;
      match goal with
      | H : (_ =? 0)%Z = false |- _ => apply Z.eqb_neq, H
      end
    | ].
  all: split; [reflexivity|].
  all: first [ left; reflexivity
             | right; do 2 eexists; repeat split; first [reflexivity | assumption] ].
Qed.

(** X14: a tick of the running application in [hybrid] mode on which
    visual odometry has no tracking result.  Whether the sensor is applied
    is decided by the pose manager's [isTracking], not by the result of
    this tick: with a reference orientation and [isTracking] false the
    latest sample is applied; with [isTracking] still true, or without a
    reference, the pose manager is left as it was. *)
Theorem hybrid_tick_without_fix :
  forall (s : ARApp) (vw vh : Z) (answer : option VOResult),
    reachable s ->
    isRunning s = true ->
    trackingMode s = hybrid ->
    option_map tracking answer <> Some true ->
    exists mgr s',
      cameraPoseManager s = Some mgr /\
      animate vw vh answer s = Normal s' /\
      camera s' = camera s /\
      let o := deviceOrientation s in
      let screen := orZero (orientation (window s)) in
      cameraPoseManager s'
      = Some match initialOrientation s with
             | Some _ =>
                 if mgr_isTracking mgr then mgr
                 else mgr_applyDeviceOrientation (alpha o) (beta o) (gamma o)
                        screen mgr
             | None => mgr
             end.
Proof.
  intros s vw vh answer R Hrun Hmode Hans.
  destruct (running_layers (reachable_wf R) Hrun)
    as (cam & size & mgr & Hcam & Hren & Hmgr).
  exists mgr.
  assert (match answer with
          | Some result => tracking result = false
          | None => True
          end) as Hlost.
  { destruct answer as [result|]; [|exact I].
    destruct (tracking result) eqn:T; [|reflexivity].
    contradiction Hans; cbn; rewrite T; reflexivity. }
  clear Hans.
  open_app s;
    cbn [isRunning trackingMode camera renderer cameraPoseManager] in *;
    subst.
  unfold animate, processSLAM, updateCameraFromSensor.
  destruct answer as [result|]; [rewrite Hlost|];
    cases; eexists; repeat split; reflexivity.
Qed.

(** X15: [resetPose] and the sensor.  On the running application in
    [sensor] mode, a tick after [resetPose] leaves the pose manager as
    [reset()] left it: nothing is applied while there is no reference.
    The next sample with an alpha becomes the reference, and the tick
    after it hands that sample to the pose manager. *)
Theorem reset_waits_for_next_sample :
  forall (s : ARApp) (mgr : Manager) (event : OrientationEvent) (a : R)
         (vw vh vw' vh' : Z) (answer answer' : option VOResult),
    reachable s ->
    isRunning s = true ->
    trackingMode s = sensor ->
    cameraPoseManager s = Some mgr ->
    ev_alpha event = Some a ->
    let s1 := run [EvResetPose; EvTick vw vh answer] s in
    let s2 := run [EvDeviceOrientation event; EvTick vw' vh' answer'] s1 in
    let sample :=
      {| alpha := a; beta := ev_beta event; gamma := ev_gamma event |} in
    cameraPoseManager s1 = Some (mgr_reset mgr) /\
    initialOrientation s1 = None /\
    initialOrientation s2 = Some sample /\
    cameraPoseManager s2
    = Some (mgr_applyDeviceOrientation a (ev_beta event) (ev_gamma event)
              (orZero (orientation (window s))) (mgr_reset mgr)).
Proof.
  intros s mgr event a vw vh vw' vh' answer answer' R Hrun Hmode Hmgr Ha.
  destruct (running_layers (reachable_wf R) Hrun)
    as (cam & size & mgr' & Hcam & Hren & _).
  open_app s;
    cbn [isRunning trackingMode camera renderer cameraPoseManager] in *;
    subst.
  destruct event as [ea eb eg]; cbn [ev_alpha] in Ha; subst ea.
  destruct vo_, htex_; red_run; repeat split; reflexivity.
Qed.

(** ** More on the tracking mode *)

(** X16: two requests for visual odometry made before the import has
    settled start two initialisations, for nothing holds the second one
    back while [visualOdometry] is still [null].  Each resolved import then
    makes an engine of its own and starts its [init()], and the field ends
    up referring to the second engine only. *)
Theorem two_requests_two_engines :
  forall (s : ARApp) (m1 m2 : TrackingMode),
    visualOdometry s = None ->
    m1 <> sensor ->
    m2 <> sensor ->
    let s' :=
      run [EvSetTrackingMode m1; EvSetTrackingMode m2;
           EvVOImportSettled true; EvVOImportSettled true] s in
    visualOdometry s' = Some (S (nextId s)) /\
    pendingInit s' = pendingInit s ++ [nextId s; S (nextId s)] /\
    pendingImport s' = pendingImport s /\
    trackingMode s' = m2 /\
    history s'
    = history s ++ [VOImport; VOImport; VOInit (nextId s);
                    VOInit (S (nextId s))].
Proof.
  intros s m1 m2 Hvo H1 H2 s'.
  subst s'; open_app s; cbn [visualOdometry] in Hvo; subst.
  destruct m1; [contradiction H1; reflexivity| |];
    (destruct m2; [contradiction H2; reflexivity| |]).
  all: unfold history; red_run.
  all: do 4 (split; [first [reflexivity
                           | rewrite <- app_assoc; reflexivity]|]).
  all: cbn [rev]; rewrite <- !app_assoc; reflexivity.
Qed.

(** ** Release of the overlay *)

(** What the first invariant says of the overlay's parts. *)
Lemma overlay_parts s cube :
  wellFormed s ->
  hudCube s = Some cube ->
  exists cam tex vid,
    camera s = Some cam /\ hudVideoTexture s = Some tex /\
    hudVideo s = Some vid /\
    removeChild (mesh_id cube) (children cam) = [] /\
    live (log s)
    = [geo_id (geometry cube); mat_id (material cube); tex_id tex;
       vid_id vid].
Proof.
  intros W Hcube.
  open_app s; wf_open W; subst cube_.
  specialize (W3 ltac:(discriminate)); subst ready_.
  specialize (W2 eq_refl); specialize (W4 ltac:(discriminate)).
  destruct camera_ as [cam|]; [|discriminate W2].
  destruct htex_ as [tex|]; [|discriminate W4].
  destruct hvideo_ as [vid|]; [|discriminate W4].
  exists cam, tex, vid; repeat split; [|exact W6].
  destruct W5 as [E | [k [E1 E2]]]; rewrite ?E, ?E2; [reflexivity|].
  injection E1 as <-; cbn [removeChild]; rewrite Nat.eqb_refl; reflexivity.
Qed.

Lemma overlay_absent s :
  wellFormed s ->
  wellShaped s ->
  hudCube s = None ->
  attached s = [] /\ live (log s) = []
  /\ hudVideoTexture s = None /\ hudVideo s = None.
Proof.
  intros W S Hcube.
  destruct (ws_bare S) as [T V];
    [unfold shape; cbn [sh_mesh]; rewrite Hcube; reflexivity|].
  unfold shape in T, V; cbn [sh_texture sh_video] in T, V.
  destruct (hudVideoTexture s) eqn:Htex; [discriminate T|].
  destruct (hudVideo s) eqn:Hvid; [discriminate V|].
  pose proof (wf_attached W) as A; pose proof (wf_live W) as L.
  unfold view in A, L;
    cbn [v_attached v_mesh v_live v_resources] in A, L.
  unfold overlayResources in L; rewrite Hcube, Htex, Hvid in L.
  rewrite Hcube in A; cbn [option_map] in A.
  repeat split; [|exact L].
  destruct A as [A | (k & A & _)]; [exact A|discriminate A].
Qed.

Lemma live_released (g m t v : nat) (l : list Call) :
  live l = [g; m; t; v] ->
  live (VideoSetSrc v EmptyString :: VideoPause v :: TextureDispose t
        :: MaterialDispose m :: GeometryDispose g :: l) = [].
Proof.
  intros E; cbn [live]; rewrite E.
  repeat (progress (cbn [removeChild]; rewrite ?Nat.eqb_refl));
    reflexivity.
Qed.

(** X17: in a reachable state that has an overlay, [cleanupHud] returns
    with the three overlay fields [null], nothing attached to the camera
    and no overlay resource live.  It releases each part once, in the order
    detach, geometry, material, texture, video; a second [cleanupHud]
    returns at once without a call. *)
Theorem cleanupHud_releases_once :
  forall (s : ARApp) (cube : Mesh),
    reachable s ->
    hudCube s = Some cube ->
    exists tex vid s',
      hudVideoTexture s = Some tex /\ hudVideo s = Some vid /\
      cleanupHud s = Normal s' /\
      hudCube s' = None /\ hudVideoTexture s' = None /\ hudVideo s' = None /\
      attached s' = [] /\
      live (log s') = [] /\
      history s'
      = history s
        ++ [CameraRemove (mesh_id cube);
            GeometryDispose (geo_id (geometry cube));
            MaterialDispose (mat_id (material cube));
            TextureDispose (tex_id tex);
            VideoPause (vid_id vid);
            VideoSetSrc (vid_id vid) EmptyString] /\
      cleanupHud s' = Normal s'.
Proof.
  intros s cube R Hcube.
  destruct (overlay_parts (reachable_wf R) Hcube)
    as (cam & tex & vid & Hcam & Htex & Hvid & Hdetach & Hlive).
  exists tex, vid.
  open_app s; cbn [hudCube camera hudVideoTexture hudVideo log] in *; subst.
  unfold cleanupHud, attached, history; red_app.
  eexists; split; [reflexivity|]. split; [reflexivity|].
  split; [reflexivity|]; red_app; cbn [children].
  do 3 (split; [reflexivity|]).
  split; [exact Hdetach|].
  split; [apply live_released; cbn [live]; exact Hlive|].
  split; [cbn [rev]; rewrite <- !app_assoc; reflexivity|reflexivity].
Qed.

(** X18: [destroy] in a reachable state returns with the render loop
    stopped and the overlay released: a tick afterwards changes nothing.
    A second [destroy] lets go of no overlay part again, but it does repeat
    [renderer.dispose()], the stopping of the camera tracks and the
    engine's [destroy()] wherever the first one made them, for [destroy]
    clears none of [renderer], [video] and [visualOdometry]. *)
Theorem destroy_stops_and_releases :
  forall (s : ARApp) (vw vh : Z) (answer : option VOResult),
    reachable s ->
    let s1 := step EvDestroy s in
    let s2 := step EvDestroy s1 in
    destroy s = Normal s1 /\
    isRunning s1 = false /\
    hudCube s1 = None /\ hudVideoTexture s1 = None /\ hudVideo s1 = None /\
    attached s1 = [] /\ live (log s1) = [] /\
    step (EvTick vw vh answer) s1 = s1 /\
    destroy s1 = Normal s2 /\
    madeFrom s1 s2
      (match visualOdometry s with
       | Some engine => [VODestroy engine]
       | None => []
       end
       ++ match renderer s with Some _ => [RendererDispose] | None => [] end
       ++ match video s with Some true => [StopTracks] | _ => [] end).
Proof.
  intros s vw vh answer R.
  pose proof (reachable_wf R) as W.
  destruct (hudCube s) as [cube|] eqn:Hcube.
  - destruct (overlay_parts W Hcube)
      as (cam & tex & vid & Hcam & Htex & Hvid & Hdetach & Hlive).
    open_app s; cbn [hudCube camera hudVideoTexture hudVideo log] in *; subst.
    unfold step, handle, destroy, cleanupHud, animate, attached, madeFrom.
    destruct video_ as [[|]|], renderer_, vo_; red_app.
    all: split; [reflexivity|]; red_app; cbn [children].
    all: do 4 (split; [reflexivity|]).
    all: split; [exact Hdetach|].
    all: split;
      [cbn [live]; rewrite Hlive;
       repeat (progress (cbn [removeChild]; rewrite ?Nat.eqb_refl));
       reflexivity|].
    all: split; [reflexivity|]; split; reflexivity.
  - destruct (overlay_absent W (reachable_ws R) Hcube) as (A & L & T & V).
    open_app s;
      cbn [hudCube hudVideoTexture hudVideo log] in *; unfold attached in *;
      cbn [camera] in *; subst.
    unfold step, handle, destroy, cleanupHud, animate, attached, madeFrom.
    destruct video_ as [[|]|], renderer_, vo_; red_app.
    all: split; [reflexivity|]; red_app.
    all: do 4 (split; [reflexivity|]).
    all: split; [exact A|].
    all: split; [cbn [live]; exact L|].
    all: split; [reflexivity|]; split; reflexivity.
Qed.

(** X19: in every reachable state the live video, texture, material and
    geometry are exactly the four of the current overlay, whatever
    placements, gestures and teardowns came before; without an overlay
    nothing is live and nothing is attached to the camera.  The overlay is
    the only object that can be attached, and it is found detached only
    after [init()] has run again and replaced the camera. *)
Theorem overlay_resources_never_leak :
  forall s : ARApp,
    reachable s ->
    match hudCube s with
    | Some cube =>
        exists tex vid,
          hudVideoTexture s = Some tex /\ hudVideo s = Some vid /\
          live (log s)
          = [geo_id (geometry cube); mat_id (material cube); tex_id tex;
             vid_id vid] /\
          (attached s = [mesh_id cube] \/ attached s = [])
    | None =>
        hudVideoTexture s = None /\ hudVideo s = None /\
        live (log s) = [] /\ attached s = []
    end.
Proof.
  intros s R; pose proof (reachable_wf R) as W.
  destruct (hudCube s) as [cube|] eqn:Hcube.
  - destruct (overlay_parts W Hcube)
      as (cam & tex & vid & Hcam & Htex & Hvid & _ & Hlive).
    exists tex, vid; repeat split; try assumption.
    pose proof (wf_attached W) as A.
    unfold view in A; cbn [v_attached v_mesh] in A.
    rewrite Hcube in A; cbn [option_map] in A.
    destruct A as [A | (k & E & A)]; [right; exact A|].
    injection E as <-; left; exact A.
  - destruct (overlay_absent W (reachable_ws R) Hcube) as (A & L & T & V).
    repeat split; assumption.
Qed.

(** X20: when the metadata of the overlay's video arrives, with a video
    height that is not 0, the plane is rebuilt 0.5 high and as wide as the
    aspect ratio of the video asks.  The old geometry is disposed and the
    new one is the live one; the mesh, its material, its position and its
    scale, so whatever the gestures had made of them, stay. *)
Theorem metadata_sets_aspect :
  forall (s : ARApp) (cube : Mesh) (vw vh : R),
    reachable s ->
    hudCube s = Some cube ->
    vh <> 0 ->
    exists s' cube' tex vid,
      onLoadedMetadata vw vh s = Normal s' /\
      hudCube s' = Some cube' /\
      geo_height (geometry cube') = 0.5 /\
      geo_width (geometry cube') / geo_height (geometry cube') = vw / vh /\
      mesh_id cube' = mesh_id cube /\
      material cube' = material cube /\
      position cube' = position cube /\
      scale cube' = scale cube /\
      geo_id (geometry cube') <> geo_id (geometry cube) /\
      history s'
      = history s
        ++ [GeometryDispose (geo_id (geometry cube));
            CreateGeometry (geo_id (geometry cube')) (0.5 * (vw / vh)) 0.5] /\
      hudVideoTexture s' = Some tex /\ hudVideo s' = Some vid /\
      live (log s')
      = [geo_id (geometry cube'); mat_id (material cube'); tex_id tex;
         vid_id vid] /\
      attached s' = attached s.
Proof.
  intros s cube vw vh R Hcube Hvh.
  pose proof (reachable_wf R) as W.
  destruct (overlay_parts W Hcube)
    as (cam & tex & vid & Hcam & Htex & Hvid & _ & Hlive).
  pose proof (wf_fresh W) as F.
  unfold view in F; cbn [v_resources v_next] in F.
  unfold overlayResources in F; rewrite Hcube in F.
  inversion F as [|? ? Fg _]; subst.
  open_app s; cbn [hudCube camera hudVideoTexture hudVideo log nextId] in *;
    subst.
  unfold onLoadedMetadata, history, attached; red_app.
  do 2 eexists; exists tex, vid.
  split; [reflexivity|]; red_app;
    cbn [geometry geo_height geo_width geo_id mesh_id material position
         scale mat_id].
  split; [reflexivity|]. split; [reflexivity|].
  cbn [geometry geo_height geo_width geo_id mesh_id material position
       scale mat_id].
  split; [field; split; [exact Hvh|lra]|].
  do 4 (split; [reflexivity|]).
  split; [lia|].
  split; [cbn [rev]; rewrite <- !app_assoc; reflexivity|].
  do 2 (split; [reflexivity|]).
  split; [|reflexivity].
  cbn [live]; rewrite Hlive; cbn [removeChild]; rewrite Nat.eqb_refl.
  reflexivity.
Qed.

(** ** More on the chroma-key shader *)

Lemma clamp_unit x : 0 <= ChromaKey.clamp x 0 1 <= 1.
Proof.
  unfold ChromaKey.clamp, Rmin, Rmax.
  destruct (Rle_dec x 0); destruct (Rle_dec _ 1); lra.
Qed.

Lemma clamp_mono x y :
  x <= y -> ChromaKey.clamp x 0 1 <= ChromaKey.clamp y 0 1.
Proof.
  intros H; unfold ChromaKey.clamp, Rmin, Rmax.
  destruct (Rle_dec x 0); destruct (Rle_dec y 0);
    repeat match goal with |- context [Rle_dec ?a ?b] => destruct (Rle_dec a b) end;
    lra.
Qed.

Lemma hermite_unit t : 0 <= t <= 1 -> 0 <= t * t * (3 - 2 * t) <= 1.
Proof.
  intros H.
  assert (0 <= t * t * (3 - 2 * t)) as A
    by (apply Rmult_le_pos; [apply Rmult_le_pos|]; lra).
  assert (0 <= (1 - t) * (1 - t) * (1 + 2 * t)) as B
    by (apply Rmult_le_pos; [apply Rmult_le_pos|]; lra).
  split; [exact A|].
  replace (t * t * (3 - 2 * t)) with (1 - (1 - t) * (1 - t) * (1 + 2 * t))
    by ring.
  lra.
Qed.

Lemma hermite_mono t1 t2 :
  0 <= t1 -> t1 <= t2 -> t2 <= 1 ->
  t1 * t1 * (3 - 2 * t1) <= t2 * t2 * (3 - 2 * t2).
Proof.
  intros H0 H H1.
  assert (t1 * t1 <= t1 * 1) as A by (apply Rmult_le_compat_l; lra).
  assert (t2 * t2 <= t2 * 1) as B by (apply Rmult_le_compat_l; lra).
  assert (t1 * t2 <= t1 * 1) as C by (apply Rmult_le_compat_l; lra).
  assert (0 <= (t2 - t1)
               * (3 * (t1 + t2) - 2 * (t1 * t1 + t1 * t2 + t2 * t2))) as D
    by (apply Rmult_le_pos; lra).
  replace (t2 * t2 * (3 - 2 * t2))
    with (t1 * t1 * (3 - 2 * t1)
          + (t2 - t1)
            * (3 * (t1 + t2) - 2 * (t1 * t1 + t1 * t2 + t2 * t2)))
    by ring.
  lra.
Qed.

Lemma smoothstep_unit edge0 edge1 x :
  0 <= ChromaKey.smoothstep edge0 edge1 x <= 1.
Proof. unfold ChromaKey.smoothstep; apply hermite_unit, clamp_unit. Qed.

Lemma smoothstep_mono edge0 edge1 x y :
  edge0 < edge1 -> x <= y ->
  ChromaKey.smoothstep edge0 edge1 x <= ChromaKey.smoothstep edge0 edge1 y.
Proof.
  intros He H; unfold ChromaKey.smoothstep.
  apply hermite_mono; try apply clamp_unit.
  apply clamp_mono.
  unfold Rdiv; apply Rmult_le_compat_r; [|lra].
  left; apply Rinv_0_lt_compat; lra.
Qed.

Lemma overlay_key s cube :
  wellFormed s ->
  hudCube s = Some cube ->
  similarity (uniforms (material cube)) = 0.4
  /\ smoothness (uniforms (material cube)) = 0.1.
Proof.
  intros W H.
  assert ((keyColor (uniforms (material cube)),
           similarity (uniforms (material cube)),
           smoothness (uniforms (material cube)))
          = ({| vx := 0; vy := 1; vz := 0 |}, 0.4, 0.1)) as K.
  { apply (wf_key W); unfold view; cbn [v_key]; rewrite H; reflexivity. }
  injection K as _ A B; split; assumption.
Qed.

Lemma wellShaped_crop s cube :
  wellShaped s ->
  hudCube s = Some cube ->
  cropTop (uniforms (material cube)) = cropOf (currentVideoSrc s)
  /\ cropBottom (uniforms (material cube)) = cropOf (currentVideoSrc s).
Proof.
  intros W H.
  destruct (ws_sampled W (sc := scale cube) (d := vz (position cube))
              (t := videoTexture (uniforms (material cube)))
              (top := cropTop (uniforms (material cube)))
              (bottom := cropBottom (uniforms (material cube))))
    as (_ & A & B); [unfold shape; cbn [sh_mesh]; rewrite H; reflexivity|].
  split; assumption.
Qed.

(** X21: the shader of the overlay in a reachable state only fades: the
    colour that comes out is the colour that was sampled, and the alpha
    that comes out is between 0 and the alpha that was sampled.  Of two
    texels of the same alpha, the one whose chroma is farther from the key
    colour comes out at least as opaque. *)
Theorem chroma_key_only_fades :
  forall (s : ARApp) (cube : Mesh)
         (tex1 tex2 : ChromaKey.Vec2 -> ChromaKey.Vec4)
         (vUv : ChromaKey.Vec2),
    reachable s ->
    hudCube s = Some cube ->
    let u := uniforms (material cube) in
    let croppedUV :=
      {| ChromaKey.cx := ChromaKey.cx vUv;
         ChromaKey.cy :=
           cropBottom u + ChromaKey.cy vUv * (1 - cropTop u - cropBottom u) |} in
    let c1 := tex1 croppedUV in
    let c2 := tex2 croppedUV in
    let out1 := ChromaKey.main tex1 u vUv in
    let out2 := ChromaKey.main tex2 u vUv in
    0 <= ChromaKey.opacity c1 ->
    ChromaKey.rgb out1 = ChromaKey.rgb c1 /\
    0 <= ChromaKey.opacity out1 <= ChromaKey.opacity c1 /\
    (ChromaKey.opacity c2 = ChromaKey.opacity c1 ->
     ChromaKey.chromaDist (ChromaKey.rgb c1) (keyColor u)
     <= ChromaKey.chromaDist (ChromaKey.rgb c2) (keyColor u) ->
     ChromaKey.opacity out1 <= ChromaKey.opacity out2).
Proof.
  intros s cube tex1 tex2 vUv R Hcube u croppedUV c1 c2 out1 out2 Ha.
  destruct (overlay_key (reachable_wf R) Hcube) as (Hsim & Hsmooth).
  fold u in Hsim, Hsmooth.
  unfold out1, out2, ChromaKey.main; cbn [ChromaKey.opacity ChromaKey.rgb
    ChromaKey.red ChromaKey.green ChromaKey.blue];
    fold croppedUV; fold c1; fold c2.
  split; [reflexivity|].
  pose proof (smoothstep_unit (similarity u) (similarity u + smoothness u)
                (ChromaKey.chromaDist (ChromaKey.rgb c1) (keyColor u))) as U1.
  split; [nra|].
  intros Heq Hfar; rewrite Heq.
  apply Rmult_le_compat_l; [exact Ha|].
  apply smoothstep_mono; [lra|exact Hfar].
Qed.

(** X22: what the shader of the overlay in a reachable state reads of the
    video frame.  For a texture coordinate inside the unit square it reads
    the frame in the same column, at a height between the crop and one
    minus the crop: two frames that agree there give the same fragment.
    The crop is 0.08 for a source whose name includes [singgang2], whose
    bars at the top and the bottom are thus never read, and 0 otherwise,
    when the frame is read at the coordinate itself. *)
Theorem crop_hides_the_bars :
  forall (s : ARApp) (cube : Mesh)
         (tex1 tex2 : ChromaKey.Vec2 -> ChromaKey.Vec4)
         (vUv : ChromaKey.Vec2),
    reachable s ->
    hudCube s = Some cube ->
    0 <= ChromaKey.cy vUv <= 1 ->
    let crop := cropOf (currentVideoSrc s) in
    (forall p,
        ChromaKey.cx p = ChromaKey.cx vUv ->
        crop <= ChromaKey.cy p <= 1 - crop ->
        tex1 p = tex2 p) ->
    ChromaKey.main tex1 (uniforms (material cube)) vUv
    = ChromaKey.main tex2 (uniforms (material cube)) vUv
    /\ (crop = 0.08 \/ crop = 0)
    /\ (crop = 0 ->
        ChromaKey.rgb (ChromaKey.main tex1 (uniforms (material cube)) vUv)
        = ChromaKey.rgb (tex1 vUv)).
Proof.
  intros s cube tex1 tex2 vUv R Hcube Hv crop Hsame.
  destruct (wellShaped_crop (reachable_ws R) Hcube) as (Ht & Hb).
  fold crop in Ht, Hb.
  assert (crop = 0.08 \/ crop = 0) as Hc
    by (unfold crop, cropOf; destruct (includes _ _); [left|right]; reflexivity).
  split; [|split; [exact Hc|]].
  - unfold ChromaKey.main; rewrite Ht, Hb.
    rewrite (Hsame {| ChromaKey.cx := ChromaKey.cx vUv;
                      ChromaKey.cy := crop + ChromaKey.cy vUv * (1 - crop - crop) |});
      [reflexivity|reflexivity|].
    cbn [ChromaKey.cy]; destruct Hc as [-> | ->]; nra.
  - intros Z; unfold ChromaKey.main; rewrite Ht, Hb, Z.
    cbn [ChromaKey.rgb ChromaKey.red ChromaKey.green ChromaKey.blue].
    replace {| ChromaKey.cx := ChromaKey.cx vUv;
               ChromaKey.cy := 0 + ChromaKey.cy vUv * (1 - 0 - 0) |}
      with vUv; [reflexivity|].
    destruct vUv as [x y]; cbn; f_equal; lra.
Qed.

(** ** Before [init()] has succeeded, and after the overlay is gone *)

Lemma cleanupHud_ready s : isReady (stateOf (cleanupHud s)) = isReady s.
Proof. unfold cleanupHud; keeps. Qed.

Lemma buildOverlay_ready s : isReady (stateOf (buildOverlay s)) = isReady s.
Proof. unfold buildOverlay; keeps. Qed.

Lemma placeCube_ready videoSrc s :
  isReady (stateOf (placeCube videoSrc s)) = isReady s.
Proof.
  unfold placeCube.
  destruct (negb (isReady s)); [reflexivity|].
  apply andThen_keeps; [|apply buildOverlay_ready].
  rewrite cleanupHud_ready; destruct (truthySrc videoSrc); reflexivity.
Qed.

Lemma onTouchEnd_ready touches changed now s :
  isReady (stateOf (onTouchEnd touches changed now s)) = isReady s.
Proof.
  unfold onTouchEnd.
  destruct touches as [|t0 [|t1 rest]]; try reflexivity.
  apply andThen_keeps; [|reflexivity].
  destruct (isDragging (gesture s) && negb (isPinching (gesture s)));
    [|reflexivity].
  match goal with |- context [if ?c then _ else _] => destruct c end;
    [|reflexivity].
  apply andThen_keeps; [|reflexivity].
  destruct (now - lastTap s <? 300)%Z; [apply placeCube_ready|reflexivity].
Qed.

Lemma destroy_ready s : isReady (stateOf (destroy s)) = isReady s.
Proof.
  unfold destroy.
  apply andThen_keeps; [rewrite cleanupHud_ready; reflexivity|].
  keeps.
Qed.

Lemma view_ready s s' : view s' = view s -> isReady s' = isReady s.
Proof. intros E; exact (f_equal v_ready E). Qed.

Lemma isReady_after e s :
  isSuccessfulInit e = false -> isReady (step e s) = isReady s.
Proof.
  intros H; unfold step; destruct e; cbn [handle stateOf];
    first [ apply placeCube_ready | apply onTouchEnd_ready
          | apply destroy_ready
          | apply view_ready;
            first [ apply onDeviceOrientation_keeps
                  | apply onDeviceMotion_keeps
                  | apply onTouchStart_keeps | apply onTouchMove_keeps
                  | apply onMouseMove_keeps | apply onMouseUp_keeps
                  | apply onWheel_keeps | apply switchCamera_keeps
                  | apply onResize_keeps | apply animate_keeps
                  | apply tryPlay_keeps | apply resetPose_keeps
                  | apply setTrackingMode_keeps ]
          | solve [destruct o; try discriminate H; reflexivity]
          | solve [unfold onMouseDown; destruct (hudCube s);
                   [reflexivity|apply placeCube_ready]]
          | solve [unfold onLoadedMetadata, initVisualOdometry_imported,
                     initVisualOdometry_initialized;
                   open_app s; cases; reflexivity]
          | reflexivity ].
Qed.

Lemma reachable_run events s : reachable s -> reachable (run events s).
Proof.
  revert s; induction events as [|e events IH]; intros s R; [exact R|].
  apply IH, reachable_step, R.
Qed.

(** X23: nothing is placed before [init()] has succeeded.  Whatever
    events reach a new application, as long as none of them is an [init()]
    that runs to its end, the application is neither ready nor running, it
    has no overlay, video or texture, and no overlay resource is live: the
    taps, clicks and [changeARVideo] calls among them placed nothing. *)
Theorem nothing_before_init :
  forall (w : Window) (events : list Event),
    forallb (fun e => negb (isSuccessfulInit e)) events = true ->
    let s := run events (constructor w) in
    isReady s = false /\ isRunning s = false /\
    hudCube s = None /\ hudVideo s = None /\ hudVideoTexture s = None /\
    live (log s) = [] /\ attached s = [].
Proof.
  intros w events H s.
  assert (isReady s = false) as Hready.
  { unfold s; clear s.
    assert (isReady (constructor w) = false) as H0 by reflexivity.
    revert H0; generalize (constructor w).
    induction events as [|e events IH]; intros s0 H0; [exact H0|].
    cbn [forallb] in H; apply andb_prop in H; destruct H as [He H].
    rewrite run_cons; apply (IH H).
    rewrite isReady_after; [exact H0|].
    destruct (isSuccessfulInit e); [discriminate He|reflexivity]. }
  assert (reachable s) as R by (apply reachable_run, reachable_new).
  pose proof (reachable_wf R) as W.
  assert (hudCube s = None) as Hcube.
  { destruct (hudCube s) eqn:E; [|reflexivity].
    assert (isReady s = true) as T
      by (apply (wellFormed_overlay_ready W); rewrite E; discriminate).
    congruence. }
  destruct (overlay_absent W (reachable_ws R) Hcube) as (A & L & T & V).
  split; [exact Hready|].
  split.
  { pose proof (wf_running W) as Q; unfold view in Q;
      cbn [v_running v_ready] in Q.
    destruct (isRunning s); [|reflexivity].
    specialize (Q eq_refl); congruence. }
  repeat split; assumption.
Qed.

(** X24: the listeners that [placeCube] puts on the overlay's video are
    not taken off when the overlay is released.  In a reachable state
    without an overlay, so also after [destroy], a late [loadedmetadata] or
    [canplay] finds [hudVideo] [null]: the listener ends in a TypeError and
    the state is as it was. *)
Theorem late_media_events_throw :
  forall (s : ARApp) (vw vh : R),
    reachable s ->
    hudCube s = None ->
    onLoadedMetadata vw vh s = TypeError s /\ tryPlay s = TypeError s /\
    step (EvLoadedMetadata vw vh) s = s /\ step EvTryPlay s = s.
Proof.
  intros s vw vh R Hcube.
  destruct (overlay_absent (reachable_wf R) (reachable_ws R) Hcube)
    as (_ & _ & _ & V).
  unfold step, handle, onLoadedMetadata, tryPlay; rewrite V.
  repeat split.
Qed.

(** ** The pinch in progress *)

Lemma placeCube_gesture videoSrc s :
  gesture (stateOf (placeCube videoSrc s)) = gesture s.
Proof.
  unfold placeCube.
  destruct (negb (isReady s)); [reflexivity|].
  apply andThen_keeps; [|unfold buildOverlay; keeps].
  transitivity
    (gesture (match truthySrc videoSrc with
              | Some src => set_currentVideoSrc src s
              | None => s
              end)); [unfold cleanupHud; keeps|].
  destruct (truthySrc videoSrc); reflexivity.
Qed.

Lemma quiet_gesture s s' : quiet s' = quiet s -> gesture s' = gesture s.
Proof.
  intros E; exact (f_equal (fun q => fst (fst (snd (snd (fst q))))) E).
Qed.

Lemma pinchMeasured_gesture s s' :
  gesture s' = gesture s -> pinchMeasured s -> pinchMeasured s'.
Proof. unfold pinchMeasured; intros ->; auto. Qed.

Lemma pinchMeasured_andThen (c : Completion) (k : ARApp -> Completion) :
  pinchMeasured (stateOf c) ->
  (forall s, pinchMeasured s -> pinchMeasured (stateOf (k s))) ->
  pinchMeasured (stateOf (c >>= k)).
Proof. intros Hc Hk; destruct c as [s | s]; simpl in *; auto. Qed.

Lemma onTouchEnd_measured touches changed now s :
  pinchMeasured s ->
  pinchMeasured (stateOf (onTouchEnd touches changed now s)).
Proof.
  intros P; unfold onTouchEnd.
  destruct touches as [|t0 [|t1 rest]]; try exact P.
  - apply pinchMeasured_andThen;
      [|intros s1 _; unfold pinchMeasured; cbn; discriminate].
    revert P; apply pinchMeasured_gesture.
    destruct (isDragging (gesture s) && negb (isPinching (gesture s)));
      [|reflexivity].
    match goal with |- context [if ?c then _ else _] => destruct c end;
      [|reflexivity].
    apply andThen_keeps; [|reflexivity].
    destruct (now - lastTap s <? 300)%Z;
      [apply placeCube_gesture|reflexivity].
  - unfold pinchMeasured; cbn; discriminate.
Qed.

Lemma init_gesture o gyro vw vh answer s :
  gesture (init o gyro vw vh answer s) = gesture s.
Proof.
  unfold init.
  destruct o; try reflexivity.
  match goal with
  | |- context [animate vw vh answer ?s1] =>
      pose proof (quiet_gesture (animate_quiet vw vh answer s1)) as E;
      destruct (animate vw vh answer s1)
  end; simpl in E; [rewrite E|
    change (gesture (call (UpdateStatus StatusInitFailed) s0))
      with (gesture s0); rewrite E];
    destruct gyro; reflexivity.
Qed.

Lemma destroy_gesture s : gesture (stateOf (destroy s)) = gesture s.
Proof.
  unfold destroy.
  apply andThen_keeps; [|keeps].
  transitivity (gesture (set_isRunning false s)); [|reflexivity].
  unfold cleanupHud; keeps.
Qed.

(** An event keeps the pinch measured, when the fingers of a pinch that
    begins are apart. *)
Lemma step_measured e s :
  fingersApart e -> pinchMeasured s -> pinchMeasured (step e s).
Proof.
  intros A P; unfold step; destruct e; cbn [handle stateOf];
    first
      [ apply onTouchEnd_measured, P
      | revert P; apply pinchMeasured_gesture;
        first [ apply init_gesture | apply destroy_gesture
              | apply placeCube_gesture
              | apply quiet_gesture;
                first [ apply onDeviceMotion_quiet | apply switchCamera_quiet
                      | apply onResize_quiet | apply animate_quiet
                      | apply resetPose_quiet | apply setTrackingMode_quiet
                      | apply imported_quiet | apply initialized_quiet ]
              | solve [unfold onDeviceOrientation; keeps]
              | solve [unfold onTouchMove, screenPixelToLocal; keeps]
              | solve [unfold onMouseMove, screenPixelToLocal; keeps]
              | solve [unfold onWheel; keeps]
              | solve [unfold onLoadedMetadata; keeps]
              | solve [unfold tryPlay; keeps]
              | reflexivity ]
      | idtac ].
  - (* touchstart *)
    unfold onTouchStart, pinchMeasured in *.
    destruct touches as [|t0 [|t1 [|t2 rest]]]; try exact P;
      destruct (hudCube s); try exact P.
    + cbn; discriminate.
    + cbn; intros _; exact A.
  - (* mousedown *)
    unfold onMouseDown; destruct (hudCube s);
      [exact P|revert P; apply pinchMeasured_gesture, placeCube_gesture].
Qed.

Lemma run_measured events s :
  Forall fingersApart events -> pinchMeasured s ->
  pinchMeasured (run events s).
Proof.
  intros F; revert s; induction F as [|e events A _ IH]; intros s P;
    [exact P|].
  rewrite run_cons; apply IH, step_measured; assumption.
Qed.

(** X5: take any sequence of events on a new application in which every
    [touchstart] of two fingers finds them apart.  Then a pinch in progress
    has a positive start distance to divide by, and if there is an overlay,
    it has [hudCubeBaseScale] on its three axes, that scale is between 0.3
    and 20 whatever pinches and wheel turns came before, and the overlay is
    1.5 in front of the camera, the distance [screenPixelToLocal]
    assumes. *)
Theorem overlay_scale_and_depth :
  forall (w : Window) (events : list Event),
    Forall fingersApart events ->
    let s := run events (constructor w) in
    (isPinching (gesture s) = true -> 0 < pinchStartDist (gesture s)) /\
    forall cube : Mesh,
      hudCube s = Some cube ->
      scale cube = {| vx := hudCubeBaseScale s; vy := hudCubeBaseScale s;
                      vz := hudCubeBaseScale s |}
      /\ 0.3 <= hudCubeBaseScale s <= 20
      /\ vz (position cube) = -1.5.
Proof.
  intros w events F s; split.
  - apply (run_measured F); unfold pinchMeasured; cbn; discriminate.
  - intros cube H.
    apply (wellShaped_scale
             (reachable_ws (reachable_run events (reachable_new w))) H).
Qed.

(** ** Drags measured from their start *)

(** X7: in a reachable state with an overlay, on a window of positive
    height, when one of two fingers is lifted the gesture goes on as a drag
    anchored at the finger that stays and at the place the overlay has
    then: the overlay itself is not touched by the lift, and a [touchmove]
    that reports the remaining finger where it was leaves the overlay
    where it was. *)
Theorem pinch_to_drag_keeps_place :
  forall (s : ARApp) (cube : Mesh) (t0 : Touch)
         (changed : list Touch) (now : Z),
    reachable s ->
    hudCube s = Some cube ->
    0 < innerHeight (window s) ->
    let s1 := step (EvTouchEnd [t0] changed now) s in
    let s2 := step (EvTouchMove [t0]) s1 in
    hudCube s1 = Some cube /\
    isDragging (gesture s1) = true /\ isPinching (gesture s1) = false /\
    log s1 = log s /\
    hudCube s2 = Some cube /\ log s2 = log s.
Proof.
  intros s cube t0 changed now R Hcube Hh s1 s2.
  destruct (overlay_parts (reachable_wf R) Hcube)
    as (cam & _ & _ & Hcam & _).
  assert (s1 = set_gesture
                 (anchorDrag true false (clientX t0) (clientY t0)
                    (vx (position cube)) (vy (position cube)) (gesture s)) s)
    as E1.
  { unfold s1, step, handle, onTouchEnd; rewrite Hcube; reflexivity. }
  assert (hudCube s2 = Some cube /\ log s2 = log s) as E2.
  { unfold s2, step, handle, onTouchMove, screenPixelToLocal; rewrite E1.
    open_app s; cbn [hudCube camera] in Hcube, Hcam; subst.
    red_app; cbn [anchorDrag isDragging dragStartX dragStartY objStartX
                  objStartY].
    rewrite moveTo_back; split; reflexivity. }
  rewrite E1; repeat split; try apply E2; exact Hcube.
Qed.

(** X8: a drag is measured from where it began, not from the last move.
    In a reachable state with an overlay, on a window of positive height,
    after a finger has come down at [p] on the overlay and moved through
    any points, a [touchmove] that reports it back at [p] puts the overlay
    back where it was when the finger came down. *)
Theorem drag_back_to_start :
  forall (s : ARApp) (cube : Mesh) (p : Touch) (moves : list Touch),
    reachable s ->
    hudCube s = Some cube ->
    0 < innerHeight (window s) ->
    let s' :=
      run (EvTouchStart [p] :: map (fun m => EvTouchMove [m]) (moves ++ [p]))
        s in
    option_map position (hudCube s') = Some (position cube).
Proof.
  intros s cube p moves R Hcube Hh s'.
  destruct (overlay_parts (reachable_wf R) Hcube)
    as (cam & _ & _ & Hcam & _).
  assert (s' = step (EvTouchMove [p])
                 (run (map (fun m => EvTouchMove [m]) moves)
                    (step (EvTouchStart [p]) s))) as E.
  { unfold s'; rewrite map_app, run_cons, run_app; reflexivity. }
  set (s0 := step (EvTouchStart [p]) s) in *.
  assert (armed s0 p /\
          objStartX (gesture s0) = vx (position cube) /\
          objStartY (gesture s0) = vy (position cube) /\
          camera s0 = Some cam /\ window s0 = window s /\
          exists c, hudCube s0 = Some c /\ vz (position c) = vz (position cube))
    as J.
  { unfold s0, step, handle, onTouchStart, armed; rewrite Hcube.
    cbn [stateOf]; repeat split; try assumption.
    exists cube; split; [exact Hcube|reflexivity]. }
  clearbody s0.
  assert (forall l s1,
             (armed s1 p /\
              objStartX (gesture s1) = vx (position cube) /\
              objStartY (gesture s1) = vy (position cube) /\
              camera s1 = Some cam /\ window s1 = window s /\
              exists c, hudCube s1 = Some c
                        /\ vz (position c) = vz (position cube)) ->
             let s2 := run (map (fun m => EvTouchMove [m]) l) s1 in
             armed s2 p /\
             objStartX (gesture s2) = vx (position cube) /\
             objStartY (gesture s2) = vy (position cube) /\
             camera s2 = Some cam /\ window s2 = window s /\
             exists c, hudCube s2 = Some c
                       /\ vz (position c) = vz (position cube)) as Hmoves.
  { induction l as [|m l IH]; intros s1 J1; [exact J1|].
    cbn [map]; rewrite run_cons.
    apply IH, (drag_move_invariant m J1). }
  pose proof (proj2 (drag_move_invariant p (Hmoves moves s0 J))) as P.
  rewrite E, P.
  destruct (position cube) as [px py pz]; cbn; f_equal; f_equal; lra.
Qed.

(** ** The first click *)

Lemma init_ok_ready gyro vw vh answer s :
  isReady (init InitOk gyro vw vh answer s) = true.
Proof.
  unfold init.
  match goal with
  | |- context [animate vw vh answer ?s1] =>
      pose proof (view_ready (proj2 (animate_keeps vw vh answer s1))) as E;
      destruct (animate vw vh answer s1)
  end; simpl in E; [rewrite E|
    change (isReady (call (UpdateStatus StatusInitFailed) s0))
      with (isReady s0); rewrite E];
    destruct gyro; reflexivity.
Qed.

(** X11: take an application whose [init()] has run to its end once, so
    that [setupEvents] has registered one set of listeners, and any events
    after it.  If the application then has no overlay and the mouse button
    is up, a [mousedown] places the overlay and returns before the button
    is recorded as down, so the [mousemove]s that follow do not drag the
    overlay just placed. *)
Theorem click_places_without_drag :
  forall (w : Window) (gyro : bool) (vw vh : Z) (answer : option VOResult)
         (events : list Event) (x y x' y' : R),
    forallb (fun e => negb (isSuccessfulInit e)) events = true ->
    let s :=
      run events (step (EvInit InitOk gyro vw vh answer) (constructor w)) in
    hudCube s = None ->
    mouseDown s = false ->
    let s1 := step (EvMouseDown x y) s in
    placedFrom s s1 /\ mouseDown s1 = false /\
    step (EvMouseMove x' y') s1 = s1.
Proof.
  intros w gyro vw vh answer events x y x' y' H s Hnone Hup s1.
  assert (isReady s = true) as Hready.
  { unfold s; clear s Hnone Hup s1.
    assert (isReady (step (EvInit InitOk gyro vw vh answer) (constructor w))
            = true) as H0 by apply init_ok_ready.
    revert H0;
      generalize (step (EvInit InitOk gyro vw vh answer) (constructor w)).
    induction events as [|e events IH]; intros s0 H0; [exact H0|].
    cbn [forallb] in H; apply andb_prop in H; destruct H as [He H].
    rewrite run_cons; apply (IH H).
    rewrite isReady_after; [exact H0|].
    destruct (isSuccessfulInit e); [discriminate He|reflexivity]. }
  assert (reachable s) as R
    by (apply reachable_run, reachable_step, reachable_new).
  destruct (@placeCube_places _ _ None s (reachable_wf R) Hready)
    as (s2 & P & Q & _).
  assert (s1 = s2) as E
    by (unfold s1, step, handle, onMouseDown; rewrite Hnone, P; reflexivity).
  assert (mouseDown s2 = false) as M.
  { pose proof (placeCube_mouseDown None s) as K.
    rewrite P in K; cbn [stateOf] in K; congruence. }
  rewrite E; split; [exact Q|]. split; [exact M|].
  unfold step, handle, onMouseMove; rewrite M; reflexivity.
Qed.

End FurtherProperties.

(** * The properties at the sample data *)

Lemma started_reachable : reachable started.
Proof.
  unfold started, run; cbn [fold_left].
  do 2 apply reachable_step; apply reachable_new.
Qed.

Lemma hybridTracking_reachable : reachable hybridTracking.
Proof.
  unfold hybridTracking, run; cbn [fold_left].
  do 4 apply reachable_step; exact started_reachable.
Qed.

Lemma placeCube_before_ready_witness :
  isReady (constructor phone) = false /\
  placeCube (Some "singgang2.mp4"%string) (constructor phone)
  = Normal (constructor phone).
Proof.
  split; [reflexivity|].
  apply (placeCube_before_ready (Some "singgang2.mp4"%string)
           (constructor phone)).
  reflexivity.
Defined.

Lemma overlay_replaced_witness :
  exists cube s',
    hudCube started = Some cube /\
    placeCube (Some "singgang2.mp4"%string) started = Normal s' /\
    List.length (attached s') = 1%nat.
Proof.
  destruct (hudCube started) as [cube|] eqn:E;
    [|lazy in E; discriminate E].
  destruct (overlay_replaced_by_recreation (Some "singgang2.mp4"%string)
              started_reachable E)
    as (tex & vid & s' & cube' & tex' & vid' & _ & _ & P & _ & _ & _ & A & _).
  exists cube, s'; rewrite A; repeat split; assumption.
Defined.

Lemma hybrid_tick_witness :
  exists s',
    animate 1280 720
      (Some {| tracking := true; viewMatrix := [1; 0; 0; 0];
               featureCount := 42 |})
      hybridTracking = Normal s' /\
    option_map SpecManager.isTracking (cameraPoseManager s') = Some true.
Proof.
  destruct (hybrid_tick_prefers_visual_odometry
              (s := hybridTracking) (vw := 1280) (engine := 5%nat) 720
              {| tracking := true; viewMatrix := [1; 0; 0; 0];
                 featureCount := 42 |}
              (fun _ _ _ => eq_refl)
              hybridTracking_reachable
              ltac:(lazy; reflexivity) ltac:(lazy; reflexivity)
              ltac:(lazy; reflexivity) ltac:(lazy; discriminate)
              ltac:(discriminate) eq_refl)
    as (mgr & s' & made & _ & A & M & _).
  exists s'; split; [exact A|]; rewrite M; reflexivity.
Defined.

Lemma slamRequested_reachable : reachable slamRequested.
Proof.
  unfold slamRequested, run; cbn [fold_left].
  do 2 apply reachable_step; exact started_reachable.
Qed.

Lemma tracking_mode_witness :
  trackingMode (step (EvVOInitSettled 5 false 1280 720) slamRequested)
  = sensor
  /\ trackingMode (step (EvTick 1280 720 None) slamRequested) = slam.
Proof.
  split.
  - rewrite (tracking_mode_assignments (EvVOInitSettled 5 false 1280 720)
               slamRequested_reachable).
    lazy; reflexivity.
  - rewrite (tracking_mode_assignments (EvTick 1280 720 None)
               slamRequested_reachable).
    lazy; reflexivity.
Defined.

(** C3 as stated does not hold: a resolved [init()] changes the mode, here
    from the [slam] that was asked for to [hybrid]. *)
Lemma successful_init_changes_mode :
  ~ @modeChangesOnlyAsStated callThreeMath specPoseManager.
Proof.
  intros H.
  specialize (H (EvVOInitSettled 5 true 1280 720) slamRequested).
  destruct H as [[mode E] | [E | (engine & vw & vh & E)]];
    try discriminate E.
  lazy; discriminate.
Qed.

(** C7 as stated does not hold: right after [init()], with no overlay yet,
    two short taps 250 ms apart place nothing. *)
Lemma double_tap_without_overlay :
  let p := {| clientX := 100; clientY := 100 |} in
  let q := {| clientX := 103; clientY := 102 |} in
  let s' :=
    run (tapSequence p [] q 1000 ++ tapSequence p [] p 1250) initialised in
  isReady initialised = true /\
  hudCube initialised = None /\
  hudCube s' = None /\
  log s' = log initialised.
Proof.
  intros p q s'.
  do 3 (split; [lazy; reflexivity|]); lazy; reflexivity.
Qed.

Lemma distance_on_axis x :
  0 <= x ->
  getTouchDistance [{| clientX := x; clientY := 0 |};
                    {| clientX := 0; clientY := 0 |}] = x.
Proof.
  intros H; unfold getTouchDistance; cbn [clientX clientY].
  replace ((x - 0) * (x - 0) + (0 - 0) * (0 - 0)) with (Rsqr x)
    by (unfold Rsqr; lra).
  apply sqrt_Rsqr, H.
Qed.


Lemma drag_witness :
  exists s',
    onTouchMove [{| clientX := 130; clientY := 80 |}] dragStarted = Normal s' /\
    option_map position (hudCube s')
    = Some {| vx := 0 + (130 - 100) * (2 * 1.5 * tan (degToRad 70 / 2) / 844);
              vy := 0 - (80 - 100) * (2 * 1.5 * tan (degToRad 70 / 2) / 844);
              vz := -1.5 |}.
Proof.
  destruct (hudCube dragStarted) as [cube|] eqn:E;
    [|lazy in E; discriminate E].
  destruct (camera dragStarted) as [cam|] eqn:C;
    [|lazy in C; discriminate C].
  destruct (@drag_moves_overlay _ _ dragStarted cube cam
              {| clientX := 130; clientY := 80 |} E C eq_refl)
    as (_ & s' & M & P & _).
  exists s'; split; [exact M|].
  rewrite P.
  assert (fov cam = 70) as F.
  { change (fov cam) with (match Some cam with Some c => fov c | None => 0 end).
    rewrite <- C; reflexivity. }
  assert (vz (position cube) = -1.5) as Z.
  { change (vz (position cube))
      with (match Some cube with Some c => vz (position c) | None => 0 end).
    rewrite <- E; reflexivity. }
  rewrite F, Z; reflexivity.
Defined.

Lemma Rabs_small a b : -10 < a - b < 10 -> Rabs (a - b) < 10.
Proof. intros H; unfold Rabs; destruct (Rcase_abs (a - b)); lra. Qed.

Lemma double_tap_witness :
  let p := {| clientX := 100; clientY := 100 |} in
  let q := {| clientX := 103; clientY := 102 |} in
  let first := tapSequence p [] q 1000 in
  placedFrom (run (first ++ [EvTouchStart [p]]) started)
             (run (first ++ tapSequence p [] p 1250) started) /\
  log (run (first ++ tapSequence p [] p 1500) started)
  = log (run (first ++ [EvTouchStart [p]]) started).
Proof.
  intros p q first.
  assert (hudCube started <> None) as H by (lazy; discriminate).
  assert (Rabs (clientX q - clientX p) < 10) as Hx
    by (apply Rabs_small; cbn; lra).
  assert (Rabs (clientY q - clientY p) < 10) as Hy
    by (apply Rabs_small; cbn; lra).
  assert (Rabs (clientX p - clientX p) < 10) as Hx'
    by (apply Rabs_small; cbn; lra).
  assert (Rabs (clientY p - clientY p) < 10) as Hy'
    by (apply Rabs_small; cbn; lra).
  destruct (@double_tap_places_overlay _ _ started p q p p [] [] 1000 1250
              started_reachable H Hx Hy Hx' Hy') as (E1 & P & _).
  destruct (@double_tap_places_overlay _ _ started p q p p [] [] 1000 1500
              started_reachable H Hx Hy Hx' Hy') as (E2 & _ & N).
  split.
  - unfold first; rewrite E1; apply P; lia.
  - unfold first; rewrite E2; apply N; lia.
Defined.

Lemma chroma_key_witness :
  match hudCube started with
  | Some cube =>
      ChromaKey.opacity
        (ChromaKey.main
           (fun _ => {| ChromaKey.red := 0; ChromaKey.green := 1;
                        ChromaKey.blue := 0; ChromaKey.opacity := 1 |})
           (uniforms (material cube))
           {| ChromaKey.cx := 0.5; ChromaKey.cy := 0.5 |}) = 0
  | None => False
  end.
Proof.
  destruct (hudCube started) as [cube|] eqn:E;
    [|lazy in E; discriminate E].
  destruct (@chroma_key_alpha _ _ started cube
              (fun _ => {| ChromaKey.red := 0; ChromaKey.green := 1;
                           ChromaKey.blue := 0; ChromaKey.opacity := 1 |})
              {| ChromaKey.cx := 0.5; ChromaKey.cy := 0.5 |}
              started_reachable E) as (K & A & _).
  apply A; injection K as -> _ _; reflexivity.
Defined.

(** * The further properties at the sample data *)

Lemma pinchStarted_reachable : reachable pinchStarted.
Proof. apply reachable_step, started_reachable. Qed.

Lemma pinchReleased_reachable : reachable pinchReleased.
Proof. apply reachable_step, pinchStarted_reachable. Qed.

Lemma dragStarted_reachable : reachable dragStarted.
Proof. apply reachable_step, started_reachable. Qed.

Lemma initialised_reachable : reachable initialised.
Proof. apply reachable_step, reachable_new. Qed.

Lemma sensorTracking_reachable : reachable sensorTracking.
Proof. apply reachable_step, started_reachable. Qed.

Lemma hybridFixed_reachable : reachable hybridFixed.
Proof. apply reachable_step, hybridTracking_reachable. Qed.

Lemma overlay_events_keep_pose_witness :
  poseSide (step (EvPlaceCube (Some "singgang2.mp4"%string)) hybridTracking)
  = poseSide hybridTracking.
Proof.
  apply (@overlay_events_keep_pose _ _
           (EvPlaceCube (Some "singgang2.mp4"%string)) hybridTracking).
  reflexivity.
Defined.

Lemma tracking_events_keep_overlay_witness :
  overlaySide (step (EvTick 1280 720 None) dragStarted)
  = overlaySide dragStarted.
Proof.
  apply (@tracking_events_keep_overlay _ _ (EvTick 1280 720 None) dragStarted).
  reflexivity.
Defined.

Lemma gesture_flags_exclusive_witness :
  isDragging (gesture pinchReleased) && isPinching (gesture pinchReleased)
  = false.
Proof.
  apply (@gesture_flags_exclusive _ _ pinchReleased).
  exact pinchReleased_reachable.
Defined.

Lemma overlay_scale_and_depth_witness :
  match
    hudCube
      (run [EvInit InitOk true 1280 720 None; EvPlaceCube None;
            EvTouchStart [{| clientX := 100; clientY := 0 |};
                          {| clientX := 0; clientY := 0 |}];
            EvTouchEnd [{| clientX := 40; clientY := 60 |}]
              [{| clientX := 100; clientY := 0 |}] 1000]
         (constructor phone))
  with
  | Some cube => vz (position cube) = -1.5
  | None => False
  end.
Proof.
  assert (Forall fingersApart
            [EvInit InitOk true 1280 720 None; EvPlaceCube None;
             EvTouchStart [{| clientX := 100; clientY := 0 |};
                           {| clientX := 0; clientY := 0 |}];
             EvTouchEnd [{| clientX := 40; clientY := 60 |}]
               [{| clientX := 100; clientY := 0 |}] 1000]) as F.
  { repeat constructor.
    unfold fingersApart; rewrite distance_on_axis; lra. }
  destruct (@overlay_scale_and_depth _ _ phone _ F) as [_ H].
  destruct (hudCube (run _ (constructor phone))) as [cube|] eqn:E;
    [|lazy in E; discriminate E].
  apply (H cube eq_refl).
Defined.

Lemma overlay_media_consistent_witness :
  match hudCube started, hudVideo started with
  | Some cube, Some vid =>
      vid_src vid = "greetgang.mp4"%string /\ vid_muted vid = true
      /\ cropTop (uniforms (material cube)) = 0
  | _, _ => False
  end.
Proof.
  destruct (hudCube started) as [cube|] eqn:E;
    [|lazy in E; discriminate E].
  destruct (@overlay_media_consistent _ _ started cube started_reachable E)
    as (tex & vid & _ & V & _ & _ & A & B & _ & C & _).
  rewrite V.
  assert (currentVideoSrc started = "greetgang.mp4"%string) as S
    by (lazy; reflexivity).
  rewrite A, B, C, S; repeat split; reflexivity.
Defined.

Lemma pinch_to_drag_keeps_place_witness :
  hudCube
    (step (EvTouchMove [{| clientX := 40; clientY := 60 |}]) pinchReleased)
  = hudCube pinchStarted.
Proof.
  destruct (hudCube pinchStarted) as [cube|] eqn:E;
    [|lazy in E; discriminate E].
  destruct (@pinch_to_drag_keeps_place _ _ pinchStarted cube
              {| clientX := 40; clientY := 60 |}
              [{| clientX := 100; clientY := 0 |}] 1000
              pinchStarted_reachable E)
    as (_ & _ & _ & _ & M & _).
  - change (innerHeight (window pinchStarted)) with 844; lra.
  - exact M.
Defined.

Lemma drag_back_to_start_witness :
  option_map position
    (hudCube
       (run (EvTouchStart [{| clientX := 100; clientY := 100 |}]
             :: map (fun m => EvTouchMove [m])
                  ([{| clientX := 130; clientY := 80 |};
                    {| clientX := 20; clientY := 300 |}]
                   ++ [{| clientX := 100; clientY := 100 |}])) started))
  = option_map position (hudCube started).
Proof.
  destruct (hudCube started) as [cube|] eqn:E;
    [|lazy in E; discriminate E].
  apply (@drag_back_to_start _ _ started cube
           {| clientX := 100; clientY := 100 |}
           [{| clientX := 130; clientY := 80 |};
            {| clientX := 20; clientY := 300 |}] started_reachable E).
  change (innerHeight (window started)) with 844; lra.
Defined.

Lemma drag_follows_finger_witness :
  exists k, screenPixelToLocal dragStarted = Some k /\ 0 < k.
Proof.
  destruct (hudCube dragStarted) as [cube|] eqn:E;
    [|lazy in E; discriminate E].
  destruct (@drag_follows_finger _ _ dragStarted cube
              {| clientX := 130; clientY := 80 |} dragStarted_reachable E
              eq_refl)
    as (k & _ & _ & K & P & _).
  - change (innerHeight (window dragStarted)) with 844; lra.
  - exists k; split; assumption.
Defined.

Lemma pinch_starts_without_jump_witness :
  hudCubeBaseScale
    (run [EvTouchStart [{| clientX := 100; clientY := 0 |};
                        {| clientX := 0; clientY := 0 |}];
          EvTouchMove [{| clientX := 100; clientY := 0 |};
                       {| clientX := 0; clientY := 0 |}]] started)
  = hudCubeBaseScale started.
Proof.
  destruct (hudCube started) as [cube|] eqn:E;
    [|lazy in E; discriminate E].
  apply (@pinch_starts_without_jump _ _ started cube
           {| clientX := 100; clientY := 0 |} {| clientX := 0; clientY := 0 |}
           started_reachable E).
  rewrite distance_on_axis; lra.
Defined.

Lemma click_places_without_drag_witness :
  placedFrom
    (run [EvTick 1280 720 None; EvMouseUp]
       (step (EvInit InitOk true 1280 720 None) (constructor phone)))
    (step (EvMouseDown 200 300)
       (run [EvTick 1280 720 None; EvMouseUp]
          (step (EvInit InitOk true 1280 720 None) (constructor phone)))).
Proof.
  pose proof (@click_places_without_drag _ _ phone true 1280 720 None
                [EvTick 1280 720 None; EvMouseUp] 200 300 210 310 eq_refl)
    as H.
  cbv zeta in H; apply H; lazy; reflexivity.
Defined.

Lemma sensor_tick_witness :
  exists s',
    animate 1280 720 None sensorTracking = Normal s' /\
    option_map SpecManager.cameraPose (cameraPoseManager s')
    = Some (SpecManager.PoseFromSensor (30 - 30) (Some 80) (Some 2) 0).
Proof.
  destruct (@sensor_tick_applies_latest_sample _ _ sensorTracking 1280 720
              None sensorTracking_reachable
              ltac:(lazy; reflexivity) ltac:(lazy; reflexivity))
    as (mgr & s' & M & A & _ & T).
  exists s'; split; [exact A|].
  change (initialOrientation sensorTracking)
    with (Some {| alpha := 30; beta := Some 80; gamma := Some 2 |}) in T.
  destruct T as (T & _); rewrite T.
  injection M as <-; reflexivity.
Defined.

Lemma slam_tick_witness :
  exists s',
    animate 1280 720 None slamRequested = Normal s' /\
    camera s' = camera slamRequested.
Proof.
  destruct (@slam_tick_never_reads_sensor _ _ slamRequested 1280 720 None
              slamRequested_reachable
              ltac:(lazy; reflexivity) ltac:(lazy; reflexivity))
    as (s' & made & A & _ & _ & _ & C & _).
  exists s'; split; assumption.
Defined.

Lemma hybrid_tick_without_fix_witness :
  exists s',
    animate 1280 720
      (Some {| tracking := false; viewMatrix := []; featureCount := 0 |})
      hybridFixed = Normal s' /\
    cameraPoseManager s' = cameraPoseManager hybridFixed.
Proof.
  destruct (@hybrid_tick_without_fix _ _ hybridFixed 1280 720
              (Some {| tracking := false; viewMatrix := [];
                       featureCount := 0 |})
              hybridFixed_reachable
              ltac:(lazy; reflexivity) ltac:(lazy; reflexivity)
              ltac:(discriminate))
    as (mgr & s' & M & A & _ & T).
  exists s'; split; [exact A|].
  rewrite T, M.
  change (initialOrientation hybridFixed)
    with (Some {| alpha := 30; beta := Some 80; gamma := Some 2 |}).
  assert (mgr_isTracking mgr = true) as I.
  { change (mgr_isTracking mgr)
      with (match Some mgr with
            | Some m => SpecManager.isTracking m
            | None => true
            end).
    rewrite <- M; lazy; reflexivity. }
  cbv zeta; rewrite I; reflexivity.
Defined.

Lemma reset_waits_for_next_sample_witness :
  initialOrientation
    (run [EvDeviceOrientation
            {| ev_alpha := Some 75; ev_beta := Some 60; ev_gamma := None |};
          EvTick 1280 720 None]
       (run [EvResetPose; EvTick 1280 720 None] sensorTracking))
  = Some {| alpha := 75; beta := Some 60; gamma := None |}.
Proof.
  destruct (cameraPoseManager sensorTracking) as [mgr|] eqn:M;
    [|lazy in M; discriminate M].
  apply (@reset_waits_for_next_sample _ _ sensorTracking mgr
           {| ev_alpha := Some 75; ev_beta := Some 60; ev_gamma := None |} 75
           1280 720 1280 720 None None sensorTracking_reachable
           ltac:(lazy; reflexivity) ltac:(lazy; reflexivity) M eq_refl).
Defined.

Lemma two_requests_two_engines_witness :
  visualOdometry
    (run [EvSetTrackingMode slam; EvSetTrackingMode hybrid;
          EvVOImportSettled true; EvVOImportSettled true] started)
  = Some (S (nextId started)).
Proof.
  apply (@two_requests_two_engines _ _ started slam hybrid);
    [lazy; reflexivity | discriminate | discriminate].
Defined.

Lemma cleanupHud_releases_once_witness :
  exists s',
    cleanupHud started = Normal s' /\ live (log s') = []
    /\ cleanupHud s' = Normal s'.
Proof.
  destruct (hudCube started) as [cube|] eqn:E;
    [|lazy in E; discriminate E].
  destruct (@cleanupHud_releases_once _ _ started cube started_reachable E)
    as (tex & vid & s' & _ & _ & A & _ & _ & _ & _ & L & _ & B).
  exists s'; repeat split; assumption.
Defined.

Lemma destroy_stops_and_releases_witness :
  live (log (step EvDestroy hybridTracking)) = []
  /\ madeFrom (step EvDestroy hybridTracking)
       (step EvDestroy (step EvDestroy hybridTracking))
       [VODestroy 5; RendererDispose; StopTracks].
Proof.
  destruct (@destroy_stops_and_releases _ _ hybridTracking 1280 720 None
              hybridTracking_reachable)
    as (_ & _ & _ & _ & _ & _ & L & _ & _ & M).
  split; [exact L|exact M].
Defined.

Lemma overlay_resources_never_leak_witness :
  live (log (step (EvPlaceCube (Some "singgang2.mp4"%string)) started))
  = [8; 7; 6; 5]%nat.
Proof.
  pose proof (@overlay_resources_never_leak _ _
                (step (EvPlaceCube (Some "singgang2.mp4"%string)) started)
                (reachable_step _ started_reachable)) as H.
  destruct (hudCube (step (EvPlaceCube (Some "singgang2.mp4"%string)) started))
    as [cube|] eqn:E; [|lazy in E; discriminate E].
  destruct H as (tex & vid & T & V & L & _).
  rewrite L.
  assert (option_map (fun c => (geo_id (geometry c), mat_id (material c)))
            (hudCube (step (EvPlaceCube (Some "singgang2.mp4"%string)) started))
          = Some (8, 7)%nat) as A by (lazy; reflexivity).
  assert (option_map tex_id
            (hudVideoTexture
               (step (EvPlaceCube (Some "singgang2.mp4"%string)) started))
          = Some 6%nat) as B by (lazy; reflexivity).
  assert (option_map vid_id
            (hudVideo
               (step (EvPlaceCube (Some "singgang2.mp4"%string)) started))
          = Some 5%nat) as C by (lazy; reflexivity).
  rewrite E in A; rewrite T in B; rewrite V in C.
  injection A as -> ->; injection B as ->; injection C as ->; reflexivity.
Defined.

Lemma metadata_sets_aspect_witness :
  exists s' cube',
    onLoadedMetadata 1920 1080 started = Normal s' /\
    hudCube s' = Some cube' /\
    geo_width (geometry cube') / geo_height (geometry cube') = 1920 / 1080.
Proof.
  destruct (hudCube started) as [cube|] eqn:E;
    [|lazy in E; discriminate E].
  destruct (@metadata_sets_aspect _ _ started cube 1920 1080
              started_reachable E ltac:(lra))
    as (s' & cube' & _ & _ & A & B & _ & C & _).
  exists s', cube'; repeat split; assumption.
Defined.

Lemma chroma_key_only_fades_witness :
  match hudCube started with
  | Some cube =>
      0 <= ChromaKey.opacity
             (ChromaKey.main
                (fun _ => {| ChromaKey.red := 0.2; ChromaKey.green := 0.9;
                             ChromaKey.blue := 0.3; ChromaKey.opacity := 1 |})
                (uniforms (material cube))
                {| ChromaKey.cx := 0.5; ChromaKey.cy := 0.5 |}) <= 1
  | None => False
  end.
Proof.
  destruct (hudCube started) as [cube|] eqn:E;
    [|lazy in E; discriminate E].
  destruct (@chroma_key_only_fades _ _ started cube
              (fun _ => {| ChromaKey.red := 0.2; ChromaKey.green := 0.9;
                           ChromaKey.blue := 0.3; ChromaKey.opacity := 1 |})
              (fun _ => {| ChromaKey.red := 0.2; ChromaKey.green := 0.9;
                           ChromaKey.blue := 0.3; ChromaKey.opacity := 1 |})
              {| ChromaKey.cx := 0.5; ChromaKey.cy := 0.5 |}
              started_reachable E)
    as (_ & B & _); [cbn; lra|exact B].
Defined.

Lemma crop_hides_the_bars_witness :
  match hudCube started with
  | Some cube =>
      ChromaKey.rgb
        (ChromaKey.main
           (fun p => {| ChromaKey.red := ChromaKey.cy p; ChromaKey.green := 1;
                        ChromaKey.blue := 0; ChromaKey.opacity := 1 |})
           (uniforms (material cube))
           {| ChromaKey.cx := 0.5; ChromaKey.cy := 0.25 |})
      = {| vx := 0.25; vy := 1; vz := 0 |}
  | None => False
  end.
Proof.
  destruct (hudCube started) as [cube|] eqn:E;
    [|lazy in E; discriminate E].
  assert (currentVideoSrc started = "greetgang.mp4"%string) as S
    by (lazy; reflexivity).
  exact (proj2 (proj2
           (@crop_hides_the_bars _ _ started cube
              (fun p => {| ChromaKey.red := ChromaKey.cy p;
                           ChromaKey.green := 1; ChromaKey.blue := 0;
                           ChromaKey.opacity := 1 |})
              (fun p => {| ChromaKey.red := ChromaKey.cy p;
                           ChromaKey.green := 1; ChromaKey.blue := 0;
                           ChromaKey.opacity := 1 |})
              {| ChromaKey.cx := 0.5; ChromaKey.cy := 0.25 |}
              started_reachable E ltac:(cbn; lra) (fun _ _ _ => eq_refl)))
           ltac:(rewrite S; reflexivity)).
Defined.

Lemma nothing_before_init_witness :
  hudCube
    (run [EvInit (CameraRejected false) true 0 0 None;
          EvPlaceCube (Some "singgang2.mp4"%string);
          EvMouseDown 10 10;
          EvTick 1280 720 None] (constructor phone))
  = None.
Proof.
  apply (@nothing_before_init _ _ phone
           [EvInit (CameraRejected false) true 0 0 None;
            EvPlaceCube (Some "singgang2.mp4"%string);
            EvMouseDown 10 10;
            EvTick 1280 720 None]).
  reflexivity.
Defined.

Lemma late_media_events_throw_witness :
  tryPlay (step EvDestroy started) = TypeError (step EvDestroy started).
Proof.
  apply (@late_media_events_throw _ _ (step EvDestroy started) 1920 1080).
  - apply reachable_step, started_reachable.
  - lazy; reflexivity.
Defined.
